(** * GalaxySystem: a shallow embedding of [GalaxySystem.ts]

    The TypeScript class [GalaxySystem] drives a procedurally generated
    spiral galaxy: it synthesises a particle field, animates it once per
    animation frame, follows size, orientation and visibility changes of the
    host page, and releases its resources in [destroy].

    Conventions of the embedding.
    - Geometry read from the DOM (bounding boxes, pixel ratio) is a JavaScript
      number; every finite double is a rational, so these are modelled in [Q],
      which keeps [Math.round] executable.  Integer-valued host attributes
      ([innerWidth], [clientWidth], WebIDL [long]) are in [Z].
    - The camera's aspect is the quotient of two integers, which JavaScript
      also defines for a zero divisor: it is a [JsNumber], a rational, an
      infinity or [NaN].
    - The particle model uses [Math.pow], [Math.sqrt], [Math.cos] and
      [Math.sin]; it is modelled over the real numbers [R] (doubles idealised,
      no rounding).
    - [Math.random()] is a stream [nat -> R] read through a cursor.
    - The host (timers, animation-frame requests, listeners) is explicit state;
      calls into the rendering backend are recorded in an effect log.
    - [console.log] diagnostics are omitted: they do not influence control
      flow. *)

From Stdlib Require Import ZArith QArith Qround Qminmax List Bool Lia Arith.
From Stdlib Require Import Reals Lra.
Import ListNotations.

(** ** Device tier and host environment *)

Inductive DeviceType := mobile | tablet | desktop.

Definition DeviceType_eqb (a b : DeviceType) : bool :=
  match a, b with
  | mobile, mobile | tablet, tablet | desktop, desktop => true
  | _, _ => false
  end.

(** A [DOMRect], reduced to the two fields the class reads. *)
Record DOMRect := { rect_width : Q; rect_height : Q }.

(** What a handler can observe of the host page while it runs. *)
Record Env := {
  document_hidden : bool;
  innerWidth : Z;
  innerHeight : Z;
  isMobileUA : bool;             (* the user-agent regular expression matches *)
  devicePixelRatio : Q;
  parentElement : option DOMRect; (* [canvas.parentElement], with its rect *)
  canvasRect : DOMRect;           (* [canvas.getBoundingClientRect()] *)
  clientWidth : Z;
  clientHeight : Z;
  hasResizeObserver : bool;       (* [typeof ResizeObserver !== 'undefined'] *)
  dateNow : Z                     (* [Date.now()] *)
}.

Record Size := { width : Z; height : Z }.

Definition Size_eqb (a b : Size) : bool :=
  (width a =? width b)%Z && (height a =? height b)%Z.

Module Viewport.

Local Open Scope Q_scope.

(** [x > 0] on JavaScript numbers. *)
Definition gt0 (x : Q) : bool := negb (Qle_bool x 0).

(** [Math.round]: the nearest integer, ties towards plus infinity. *)
Definition Math_round (x : Q) : Z := Qfloor (x + (1 # 2)).

(** [n || d] on an integer-valued number: [d] replaces a falsy [0]. *)
Definition orDefault (n d : Z) : Z := if (n =? 0)%Z then d else n.

Definition deviceType (env : Env) : DeviceType :=
  let w := innerWidth env in
  if ((w <? 640) || (isMobileUA env && (w <? 1024)))%Z%bool then mobile
  else if (w <? 1024)%Z then tablet
  else desktop.

Definition rectPositive (r : DOMRect) : bool :=
  gt0 (rect_width r) && gt0 (rect_height r).

Definition roundRect (r : DOMRect) : Size :=
  {| width := Math_round (rect_width r);
     height := Math_round (rect_height r) |}.


Definition clientPositive (env : Env) : bool :=
  ((0 <? clientWidth env) && (0 <? clientHeight env))%Z.

(** The last resort of [getCanvasSize]: the window's inner size. *)
Definition windowFallback (env : Env) : Size :=
  {| width := Math_round (inject_Z (orDefault (innerWidth env) 1920));
     height := Math_round (inject_Z (orDefault (innerHeight env) 1080)) |}.

Definition getCanvasSize (env : Env) : Size :=
  match parentElement env with
  | Some parentRect =>
      if rectPositive parentRect then roundRect parentRect
      else if rectPositive (canvasRect env) then roundRect (canvasRect env)
      else if clientPositive env then
        {| width := Math_round (inject_Z (clientWidth env));
           height := Math_round (inject_Z (clientHeight env)) |}
      else windowFallback env
  | None =>
      if rectPositive (canvasRect env) then roundRect (canvasRect env)
      else if clientPositive env then
        {| width := Math_round (inject_Z (clientWidth env));
           height := Math_round (inject_Z (clientHeight env)) |}
      else windowFallback env
  end.



End Viewport.

(** ** The particle field ([createGalaxy]) *)

Module Field.

Local Open Scope R_scope.

Definition PARTICLES_COUNT : Z := 8000.
Definition RADIUS : R := 20.
Definition BRANCHES : nat := 4.
Definition SPIN : R := 1.5.
Definition RANDOMNESS : R := 0.4.
Definition RANDOMNESS_POWER : R := 3.
Definition INSIDE_COLOR : Z := 0x3b82f6.
Definition OUTSIDE_COLOR : Z := 0x1e40af.

(** [Math.pow] on the arguments the class passes: a base in [[0,1)] and
    a positive exponent.  [Rpower] is [exp (y * ln x)], which is only right
    for a positive base, so the base [0] is written out. *)
Definition Math_pow (x y : R) : R :=
  if Req_dec_T x 0 then (if Req_dec_T y 0 then 1 else 0) else Rpower x y.

Definition Math_sqrt (x : R) : R := sqrt x.

(** [Math.floor(PARTICLES_COUNT * fraction)] per device. *)
Definition optimizedParticleCount (device : DeviceType) : nat :=
  match device with
  | mobile => Z.to_nat (Qfloor (inject_Z PARTICLES_COUNT * (3 # 10)))
  | tablet => Z.to_nat (Qfloor (inject_Z PARTICLES_COUNT * (6 # 10)))
  | desktop => Z.to_nat PARTICLES_COUNT
  end.

(** The two glyph textures made by [createTextTexture('1')] and
    [createTextTexture('0')]. *)
Inductive Texture := texture1 | texture0.

Definition Texture_eqb (a b : Texture) : bool :=
  match a, b with
  | texture1, texture1 | texture0, texture0 => true
  | _, _ => false
  end.

(** [THREE.Color] values, kept symbolic: a hexadecimal colour, or the
    result of [c.lerp(target, alpha)]. *)
Inductive Color :=
| ColorHex (hex : Z)
| ColorLerp (c target : Color) (alpha : R).

Inductive Blending := NormalBlending | AdditiveBlending.

Record Vec3 := { vx : R; vy : R; vz : R }.

Record SpriteMaterial := {
  material_map : option Texture;
  transparent : bool;
  opacity : R;
  blending : Blending;
  color : Color;
  depthWrite : bool
}.

Record Sprite := {
  material : SpriteMaterial;
  scale : Vec3;
  position : Vec3
}.

Record ParticleData := {
  sprite : Sprite;
  initialAngle : R;
  radius : R;
  orbitalSpeed : R;
  branchAngle : R;
  randomOffset : Vec3
}.

(** *** [Math.random] as a state monad over a cursor into a stream *)

Definition Rand (A : Type) : Type := (nat -> R) -> nat -> A * nat.

Definition ret {A} (a : A) : Rand A := fun _ c => (a, c).

Definition bind {A B} (m : Rand A) (k : A -> Rand B) : Rand B :=
  fun rnd c => let (a, c') := m rnd c in k a rnd c'.

Definition Math_random : Rand R := fun rnd c => (rnd c, S c).

Notation "x <- m ;; k" := (bind m (fun x => k))
  (at level 61, m at next level, right associativity).

(** [Math.random() < 0.5 ? a : b] *)
Definition coin {A} (a b : A) : Rand A :=
  u <- Math_random ;; ret (if Rlt_dec u 0.5 then a else b).

Definition densityPower (device : DeviceType) : R :=
  match device with mobile => 3 | _ => 2.5 end.

Definition baseOpacity (device : DeviceType) : R :=
  match device with mobile => 0.4 | _ => 0.5 end.

Definition baseSize (device : DeviceType) : R :=
  match device with mobile => 0.12 | tablet => 0.14 | desktop => 0.15 end.

(** One iteration of the loop of [createGalaxy], for index [i]. *)
Definition makeParticle (device : DeviceType) (i : nat) : Rand ParticleData :=
  _radius <- Math_random ;;
  u <- Math_random ;;
  let radiusPower := Math_pow u (densityPower device) in
  let finalRadius := radiusPower * RADIUS in
  let initialSpinAngle := finalRadius * SPIN in
  let branchAngle := (INR (i mod BRANCHES) / INR BRANCHES) * PI * 2 in
  let initialAngle := branchAngle + initialSpinAngle in
  binaryValue <- coin 1%nat 0%nat ;;
  mx <- Math_random ;; sx <- coin 1 (-1) ;;
  let randomX := Math_pow mx RANDOMNESS_POWER * RANDOMNESS * sx in
  my <- Math_random ;; sy <- coin 1 (-1) ;;
  let randomY := Math_pow my RANDOMNESS_POWER * RANDOMNESS * sy in
  mz <- Math_random ;; sz <- coin 1 (-1) ;;
  let randomZ := Math_pow mz RANDOMNESS_POWER * RANDOMNESS * 0.3 * sz in
  let x := cos initialAngle * finalRadius + randomX in
  let y := randomY in
  let z := sin initialAngle * finalRadius + randomZ in
  let mixedColor :=
    ColorLerp (ColorHex INSIDE_COLOR) (ColorHex OUTSIDE_COLOR)
              (finalRadius / RADIUS) in
  let distanceFactor := finalRadius / RADIUS in
  let centerOpacity := baseOpacity device * 0.4 in
  let edgeOpacity := baseOpacity device * 1.2 in
  let opacity := centerOpacity + (edgeOpacity - centerOpacity) * distanceFactor in
  let spriteMaterial :=
    {| material_map := Some (if Nat.eqb binaryValue 1 then texture1 else texture0);
       transparent := true;
       opacity := opacity;
       blending := AdditiveBlending;
       color := mixedColor;
       depthWrite := false |} in
  let size := baseSize device * (1 - finalRadius / RADIUS * 0.5) in
  let orbitalSpeed := 0.5 / Math_sqrt (finalRadius + 1) in
  ret {| sprite := {| material := spriteMaterial;
                      scale := {| vx := size; vy := size; vz := 1 |};
                      position := {| vx := x; vy := y; vz := z |} |};
         initialAngle := initialAngle;
         radius := finalRadius;
         orbitalSpeed := orbitalSpeed;
         branchAngle := branchAngle;
         randomOffset := {| vx := randomX; vy := randomY; vz := randomZ |} |}.

(** The loop [for (let i = 0; i < particleCount; i++)], started at [i]
    with [n] iterations left. *)
Fixpoint genLoop (device : DeviceType) (n i : nat) : Rand (list ParticleData) :=
  match n with
  | O => ret []
  | S n' =>
      p <- makeParticle device i ;;
      ps <- genLoop device n' (S i) ;;
      ret (p :: ps)
  end.

(** The particles pushed by [createGalaxy] for a given count. *)
Definition genParticles (device : DeviceType) (particleCount : nat)
           (rnd : nat -> R) : list ParticleData :=
  fst (genLoop device particleCount 0%nat rnd 0%nat).

(** The uniform sample raised to the density power for particle [i]:
    the second of its nine draws. *)
Definition radiusSample (rnd : nat -> R) (i : nat) : R := rnd (9 * i + 1)%nat.

(** The fair-coin draw choosing the glyph of particle [i]. *)
Definition labelSample (rnd : nat -> R) (i : nat) : R := rnd (9 * i + 2)%nat.

(** The angle of spiral arm [a]. *)
Definition armAngle (a : nat) : R := (INR a / INR BRANCHES) * PI * 2.

Definition onArm (a : nat) (p : ParticleData) : bool :=
  if Req_dec_T (branchAngle p) (armAngle a) then true else false.

(** How many particles sit on spiral arm [a]. *)
Definition armCount (a : nat) (ps : list ParticleData) : nat :=
  length (filter (onArm a) ps).

(** *** The per-frame orbit *)

Definition currentAngle (p : ParticleData) (time : R) : R :=
  initialAngle p + orbitalSpeed p * time.

(** The body of [this.particles.forEach] in [animate]: only the sprite's
    position is assigned. *)
Definition moveParticle (time : R) (p : ParticleData) : ParticleData :=
  let currentAngle := initialAngle p + orbitalSpeed p * time in
  let x := cos currentAngle * radius p + vx (randomOffset p) in
  let z := sin currentAngle * radius p + vz (randomOffset p) in
  {| sprite := {| material := material (sprite p);
                  scale := scale (sprite p);
                  position := {| vx := x; vy := vy (randomOffset p); vz := z |} |};
     initialAngle := initialAngle p;
     radius := radius p;
     orbitalSpeed := orbitalSpeed p;
     branchAngle := branchAngle p;
     randomOffset := randomOffset p |}.

End Field.

(** ** The running system: instance, host and handlers *)

Module GalaxySystem.

Import Viewport Field.

Record Vec3Q := { qx : Q; qy : Q; qz : Q }.

(** The value of a JavaScript division of two integers: dividing by zero
    is no error, it gives an infinity or [NaN].  A zero size is a [+0]:
    [Math.round] is only reached here with positive arguments. *)
Inductive JsNumber :=
| Ratio (q : Q)
| PosInfinity
| NegInfinity
| NotANumber.

Definition divide (a b : Z) : JsNumber :=
  if (b =? 0)%Z then
    if (0 <? a)%Z then PosInfinity
    else if (a <? 0)%Z then NegInfinity
    else NotANumber
  else Ratio (inject_Z a / inject_Z b).

(** [THREE.PerspectiveCamera], reduced to what the class assigns. *)
Record Camera := {
  cam_position : Vec3Q;
  cam_lookAt : Vec3Q;
  fov : Q;
  aspect : JsNumber
}.

(** [THREE.Group]: the sprites it holds are those of [particles]. *)
Record Group := { rotation_x : R; rotation_y : R }.

(** The [source] argument of [updateSize]. *)
Inductive Source := window_resize | orientation_change | resize_observer.

(** The two call sites of [renderer.render]. *)
Inductive RenderSite := FrameRender | ResizeRender.

Inductive Effect :=
| SetSize (w h : Z)
| SetPixelRatio (r : Q)
| SetClearColor
| Render (site : RenderSite)
| RendererDispose
| CameraPositionSet (p : Vec3Q)
| CameraLookAt (p : Vec3Q)
| UpdateProjectionMatrix
| SceneAdd
| SceneRemove
| TextureDispose (t : Texture)
| MaterialDispose (index : nat).

(** Callbacks handed to [requestAnimationFrame]. *)
Inductive FrameCallback :=
| CbAnimate
| CbUpdateSize (source : Source).

(** Callbacks handed to [window.setTimeout]. *)
Inductive TimerCallback :=
| TmResizeDebounce
| TmOrientationDebounce
| TmObserverDebounce
| TmPixelRatio.

Record FrameRequest := { frameId : nat; frameCallback : FrameCallback }.

Record Timer := { timerId : nat; timerCallback : TimerCallback; timerDelay : Z }.

(** The instance fields of the class, the closure variables of
    [handleResize], and the part of the host the class talks to. *)
Record State := {
  camera : Camera;
  galaxyGroup : option Group;
  particles : list ParticleData;
  animationId : option nat;
  isDestroyed : bool;
  time : R;
  resizeHandler : bool;  (* handler stored and registered for [resize] *)
  orientationHandler : bool;  (* likewise for [orientationchange] *)
  visibilityHandler : bool;  (* likewise for [visibilitychange] *)
  resizeTimeout : option nat;  (* handle of the pixel-ratio timer *)
  resizeObserver : option bool;  (* [Some b]: created; [b]: observes the parent *)
  renderLogCounter : Z;
  lastRenderLogTime : Z;
  lastSize : option Size;
  lastDevice : option DeviceType;
  updateSizePending : bool;
  isPageVisible : bool;
  resizeDebounceTimeout : option nat;  (* closure variables of [handleResize] *)
  orientationDebounceTimeout : option nat;
  observerDebounceTimeout : option nat;
  frameRequests : list FrameRequest;  (* host: pending animation-frame requests *)
  timers : list Timer;  (* host: armed timers *)
  nextFrameId : nat;  (* host: next request handle *)
  nextTimerId : nat;  (* host: next timer handle *)
  log : list Effect  (* calls into the rendering backend, oldest first *)
}.

(** Field assignments [this.f = v]. *)
Definition set_camera (v : Camera) (s : State) : State :=
  Build_State v (galaxyGroup s) (particles s) (animationId s) (isDestroyed s)
    (time s) (resizeHandler s) (orientationHandler s) (visibilityHandler s)
    (resizeTimeout s) (resizeObserver s) (renderLogCounter s)
    (lastRenderLogTime s) (lastSize s) (lastDevice s) (updateSizePending s)
    (isPageVisible s) (resizeDebounceTimeout s) (orientationDebounceTimeout s)
    (observerDebounceTimeout s) (frameRequests s) (timers s) (nextFrameId s)
    (nextTimerId s) (log s).

Definition set_galaxyGroup (v : option Group) (s : State) : State :=
  Build_State (camera s) v (particles s) (animationId s) (isDestroyed s)
    (time s) (resizeHandler s) (orientationHandler s) (visibilityHandler s)
    (resizeTimeout s) (resizeObserver s) (renderLogCounter s)
    (lastRenderLogTime s) (lastSize s) (lastDevice s) (updateSizePending s)
    (isPageVisible s) (resizeDebounceTimeout s) (orientationDebounceTimeout s)
    (observerDebounceTimeout s) (frameRequests s) (timers s) (nextFrameId s)
    (nextTimerId s) (log s).

Definition set_particles (v : list ParticleData) (s : State) : State :=
  Build_State (camera s) (galaxyGroup s) v (animationId s) (isDestroyed s)
    (time s) (resizeHandler s) (orientationHandler s) (visibilityHandler s)
    (resizeTimeout s) (resizeObserver s) (renderLogCounter s)
    (lastRenderLogTime s) (lastSize s) (lastDevice s) (updateSizePending s)
    (isPageVisible s) (resizeDebounceTimeout s) (orientationDebounceTimeout s)
    (observerDebounceTimeout s) (frameRequests s) (timers s) (nextFrameId s)
    (nextTimerId s) (log s).

Definition set_animationId (v : option nat) (s : State) : State :=
  Build_State (camera s) (galaxyGroup s) (particles s) v (isDestroyed s)
    (time s) (resizeHandler s) (orientationHandler s) (visibilityHandler s)
    (resizeTimeout s) (resizeObserver s) (renderLogCounter s)
    (lastRenderLogTime s) (lastSize s) (lastDevice s) (updateSizePending s)
    (isPageVisible s) (resizeDebounceTimeout s) (orientationDebounceTimeout s)
    (observerDebounceTimeout s) (frameRequests s) (timers s) (nextFrameId s)
    (nextTimerId s) (log s).

Definition set_isDestroyed (v : bool) (s : State) : State :=
  Build_State (camera s) (galaxyGroup s) (particles s) (animationId s) v
    (time s) (resizeHandler s) (orientationHandler s) (visibilityHandler s)
    (resizeTimeout s) (resizeObserver s) (renderLogCounter s)
    (lastRenderLogTime s) (lastSize s) (lastDevice s) (updateSizePending s)
    (isPageVisible s) (resizeDebounceTimeout s) (orientationDebounceTimeout s)
    (observerDebounceTimeout s) (frameRequests s) (timers s) (nextFrameId s)
    (nextTimerId s) (log s).

Definition set_time (v : R) (s : State) : State :=
  Build_State (camera s) (galaxyGroup s) (particles s) (animationId s)
    (isDestroyed s) v (resizeHandler s) (orientationHandler s)
    (visibilityHandler s) (resizeTimeout s) (resizeObserver s)
    (renderLogCounter s) (lastRenderLogTime s) (lastSize s) (lastDevice s)
    (updateSizePending s) (isPageVisible s) (resizeDebounceTimeout s)
    (orientationDebounceTimeout s) (observerDebounceTimeout s)
    (frameRequests s) (timers s) (nextFrameId s) (nextTimerId s) (log s).

Definition set_resizeHandler (v : bool) (s : State) : State :=
  Build_State (camera s) (galaxyGroup s) (particles s) (animationId s)
    (isDestroyed s) (time s) v (orientationHandler s) (visibilityHandler s)
    (resizeTimeout s) (resizeObserver s) (renderLogCounter s)
    (lastRenderLogTime s) (lastSize s) (lastDevice s) (updateSizePending s)
    (isPageVisible s) (resizeDebounceTimeout s) (orientationDebounceTimeout s)
    (observerDebounceTimeout s) (frameRequests s) (timers s) (nextFrameId s)
    (nextTimerId s) (log s).

Definition set_orientationHandler (v : bool) (s : State) : State :=
  Build_State (camera s) (galaxyGroup s) (particles s) (animationId s)
    (isDestroyed s) (time s) (resizeHandler s) v (visibilityHandler s)
    (resizeTimeout s) (resizeObserver s) (renderLogCounter s)
    (lastRenderLogTime s) (lastSize s) (lastDevice s) (updateSizePending s)
    (isPageVisible s) (resizeDebounceTimeout s) (orientationDebounceTimeout s)
    (observerDebounceTimeout s) (frameRequests s) (timers s) (nextFrameId s)
    (nextTimerId s) (log s).

Definition set_visibilityHandler (v : bool) (s : State) : State :=
  Build_State (camera s) (galaxyGroup s) (particles s) (animationId s)
    (isDestroyed s) (time s) (resizeHandler s) (orientationHandler s) v
    (resizeTimeout s) (resizeObserver s) (renderLogCounter s)
    (lastRenderLogTime s) (lastSize s) (lastDevice s) (updateSizePending s)
    (isPageVisible s) (resizeDebounceTimeout s) (orientationDebounceTimeout s)
    (observerDebounceTimeout s) (frameRequests s) (timers s) (nextFrameId s)
    (nextTimerId s) (log s).

Definition set_resizeTimeout (v : option nat) (s : State) : State :=
  Build_State (camera s) (galaxyGroup s) (particles s) (animationId s)
    (isDestroyed s) (time s) (resizeHandler s) (orientationHandler s)
    (visibilityHandler s) v (resizeObserver s) (renderLogCounter s)
    (lastRenderLogTime s) (lastSize s) (lastDevice s) (updateSizePending s)
    (isPageVisible s) (resizeDebounceTimeout s) (orientationDebounceTimeout s)
    (observerDebounceTimeout s) (frameRequests s) (timers s) (nextFrameId s)
    (nextTimerId s) (log s).

Definition set_resizeObserver (v : option bool) (s : State) : State :=
  Build_State (camera s) (galaxyGroup s) (particles s) (animationId s)
    (isDestroyed s) (time s) (resizeHandler s) (orientationHandler s)
    (visibilityHandler s) (resizeTimeout s) v (renderLogCounter s)
    (lastRenderLogTime s) (lastSize s) (lastDevice s) (updateSizePending s)
    (isPageVisible s) (resizeDebounceTimeout s) (orientationDebounceTimeout s)
    (observerDebounceTimeout s) (frameRequests s) (timers s) (nextFrameId s)
    (nextTimerId s) (log s).

Definition set_renderLogCounter (v : Z) (s : State) : State :=
  Build_State (camera s) (galaxyGroup s) (particles s) (animationId s)
    (isDestroyed s) (time s) (resizeHandler s) (orientationHandler s)
    (visibilityHandler s) (resizeTimeout s) (resizeObserver s) v
    (lastRenderLogTime s) (lastSize s) (lastDevice s) (updateSizePending s)
    (isPageVisible s) (resizeDebounceTimeout s) (orientationDebounceTimeout s)
    (observerDebounceTimeout s) (frameRequests s) (timers s) (nextFrameId s)
    (nextTimerId s) (log s).

Definition set_lastRenderLogTime (v : Z) (s : State) : State :=
  Build_State (camera s) (galaxyGroup s) (particles s) (animationId s)
    (isDestroyed s) (time s) (resizeHandler s) (orientationHandler s)
    (visibilityHandler s) (resizeTimeout s) (resizeObserver s)
    (renderLogCounter s) v (lastSize s) (lastDevice s) (updateSizePending s)
    (isPageVisible s) (resizeDebounceTimeout s) (orientationDebounceTimeout s)
    (observerDebounceTimeout s) (frameRequests s) (timers s) (nextFrameId s)
    (nextTimerId s) (log s).

Definition set_lastSize (v : option Size) (s : State) : State :=
  Build_State (camera s) (galaxyGroup s) (particles s) (animationId s)
    (isDestroyed s) (time s) (resizeHandler s) (orientationHandler s)
    (visibilityHandler s) (resizeTimeout s) (resizeObserver s)
    (renderLogCounter s) (lastRenderLogTime s) v (lastDevice s)
    (updateSizePending s) (isPageVisible s) (resizeDebounceTimeout s)
    (orientationDebounceTimeout s) (observerDebounceTimeout s)
    (frameRequests s) (timers s) (nextFrameId s) (nextTimerId s) (log s).

Definition set_lastDevice (v : option DeviceType) (s : State) : State :=
  Build_State (camera s) (galaxyGroup s) (particles s) (animationId s)
    (isDestroyed s) (time s) (resizeHandler s) (orientationHandler s)
    (visibilityHandler s) (resizeTimeout s) (resizeObserver s)
    (renderLogCounter s) (lastRenderLogTime s) (lastSize s) v
    (updateSizePending s) (isPageVisible s) (resizeDebounceTimeout s)
    (orientationDebounceTimeout s) (observerDebounceTimeout s)
    (frameRequests s) (timers s) (nextFrameId s) (nextTimerId s) (log s).

Definition set_updateSizePending (v : bool) (s : State) : State :=
  Build_State (camera s) (galaxyGroup s) (particles s) (animationId s)
    (isDestroyed s) (time s) (resizeHandler s) (orientationHandler s)
    (visibilityHandler s) (resizeTimeout s) (resizeObserver s)
    (renderLogCounter s) (lastRenderLogTime s) (lastSize s) (lastDevice s) v
    (isPageVisible s) (resizeDebounceTimeout s) (orientationDebounceTimeout s)
    (observerDebounceTimeout s) (frameRequests s) (timers s) (nextFrameId s)
    (nextTimerId s) (log s).

Definition set_isPageVisible (v : bool) (s : State) : State :=
  Build_State (camera s) (galaxyGroup s) (particles s) (animationId s)
    (isDestroyed s) (time s) (resizeHandler s) (orientationHandler s)
    (visibilityHandler s) (resizeTimeout s) (resizeObserver s)
    (renderLogCounter s) (lastRenderLogTime s) (lastSize s) (lastDevice s)
    (updateSizePending s) v (resizeDebounceTimeout s)
    (orientationDebounceTimeout s) (observerDebounceTimeout s)
    (frameRequests s) (timers s) (nextFrameId s) (nextTimerId s) (log s).

Definition set_resizeDebounceTimeout (v : option nat) (s : State) : State :=
  Build_State (camera s) (galaxyGroup s) (particles s) (animationId s)
    (isDestroyed s) (time s) (resizeHandler s) (orientationHandler s)
    (visibilityHandler s) (resizeTimeout s) (resizeObserver s)
    (renderLogCounter s) (lastRenderLogTime s) (lastSize s) (lastDevice s)
    (updateSizePending s) (isPageVisible s) v (orientationDebounceTimeout s)
    (observerDebounceTimeout s) (frameRequests s) (timers s) (nextFrameId s)
    (nextTimerId s) (log s).

Definition set_orientationDebounceTimeout (v : option nat) (s : State) : State :=
  Build_State (camera s) (galaxyGroup s) (particles s) (animationId s)
    (isDestroyed s) (time s) (resizeHandler s) (orientationHandler s)
    (visibilityHandler s) (resizeTimeout s) (resizeObserver s)
    (renderLogCounter s) (lastRenderLogTime s) (lastSize s) (lastDevice s)
    (updateSizePending s) (isPageVisible s) (resizeDebounceTimeout s) v
    (observerDebounceTimeout s) (frameRequests s) (timers s) (nextFrameId s)
    (nextTimerId s) (log s).

Definition set_observerDebounceTimeout (v : option nat) (s : State) : State :=
  Build_State (camera s) (galaxyGroup s) (particles s) (animationId s)
    (isDestroyed s) (time s) (resizeHandler s) (orientationHandler s)
    (visibilityHandler s) (resizeTimeout s) (resizeObserver s)
    (renderLogCounter s) (lastRenderLogTime s) (lastSize s) (lastDevice s)
    (updateSizePending s) (isPageVisible s) (resizeDebounceTimeout s)
    (orientationDebounceTimeout s) v (frameRequests s) (timers s)
    (nextFrameId s) (nextTimerId s) (log s).

Definition set_frameRequests (v : list FrameRequest) (s : State) : State :=
  Build_State (camera s) (galaxyGroup s) (particles s) (animationId s)
    (isDestroyed s) (time s) (resizeHandler s) (orientationHandler s)
    (visibilityHandler s) (resizeTimeout s) (resizeObserver s)
    (renderLogCounter s) (lastRenderLogTime s) (lastSize s) (lastDevice s)
    (updateSizePending s) (isPageVisible s) (resizeDebounceTimeout s)
    (orientationDebounceTimeout s) (observerDebounceTimeout s) v (timers s)
    (nextFrameId s) (nextTimerId s) (log s).

Definition set_timers (v : list Timer) (s : State) : State :=
  Build_State (camera s) (galaxyGroup s) (particles s) (animationId s)
    (isDestroyed s) (time s) (resizeHandler s) (orientationHandler s)
    (visibilityHandler s) (resizeTimeout s) (resizeObserver s)
    (renderLogCounter s) (lastRenderLogTime s) (lastSize s) (lastDevice s)
    (updateSizePending s) (isPageVisible s) (resizeDebounceTimeout s)
    (orientationDebounceTimeout s) (observerDebounceTimeout s)
    (frameRequests s) v (nextFrameId s) (nextTimerId s) (log s).

Definition set_nextFrameId (v : nat) (s : State) : State :=
  Build_State (camera s) (galaxyGroup s) (particles s) (animationId s)
    (isDestroyed s) (time s) (resizeHandler s) (orientationHandler s)
    (visibilityHandler s) (resizeTimeout s) (resizeObserver s)
    (renderLogCounter s) (lastRenderLogTime s) (lastSize s) (lastDevice s)
    (updateSizePending s) (isPageVisible s) (resizeDebounceTimeout s)
    (orientationDebounceTimeout s) (observerDebounceTimeout s)
    (frameRequests s) (timers s) v (nextTimerId s) (log s).

Definition set_nextTimerId (v : nat) (s : State) : State :=
  Build_State (camera s) (galaxyGroup s) (particles s) (animationId s)
    (isDestroyed s) (time s) (resizeHandler s) (orientationHandler s)
    (visibilityHandler s) (resizeTimeout s) (resizeObserver s)
    (renderLogCounter s) (lastRenderLogTime s) (lastSize s) (lastDevice s)
    (updateSizePending s) (isPageVisible s) (resizeDebounceTimeout s)
    (orientationDebounceTimeout s) (observerDebounceTimeout s)
    (frameRequests s) (timers s) (nextFrameId s) v (log s).

Definition set_log (v : list Effect) (s : State) : State :=
  Build_State (camera s) (galaxyGroup s) (particles s) (animationId s)
    (isDestroyed s) (time s) (resizeHandler s) (orientationHandler s)
    (visibilityHandler s) (resizeTimeout s) (resizeObserver s)
    (renderLogCounter s) (lastRenderLogTime s) (lastSize s) (lastDevice s)
    (updateSizePending s) (isPageVisible s) (resizeDebounceTimeout s)
    (orientationDebounceTimeout s) (observerDebounceTimeout s)
    (frameRequests s) (timers s) (nextFrameId s) (nextTimerId s) v.
(** *** Host primitives *)

Definition emit (e : Effect) (s : State) : State := set_log (log s ++ [e]) s.

Definition requestAnimationFrame (cb : FrameCallback) (s : State) : nat * State :=
  let id := nextFrameId s in
  (id, set_nextFrameId (S id)
         (set_frameRequests
            (frameRequests s ++ [{| frameId := id; frameCallback := cb |}]) s)).

Definition cancelAnimationFrame (id : nat) (s : State) : State :=
  set_frameRequests
    (filter (fun r => negb (frameId r =? id)) (frameRequests s)) s.

Definition setTimeout (cb : TimerCallback) (delay : Z) (s : State) : nat * State :=
  let id := nextTimerId s in
  (id, set_nextTimerId (S id)
         (set_timers
            (timers s ++ [{| timerId := id; timerCallback := cb;
                             timerDelay := delay |}]) s)).

Definition clearTimeout (id : nat) (s : State) : State :=
  set_timers (filter (fun t => negb (timerId t =? id)) (timers s)) s.

(** JavaScript truthiness of a handle that may be [null]: [0] is falsy. *)
Definition truthy (h : option nat) : bool :=
  match h with
  | Some id => negb (id =? 0)
  | None => false
  end.

(** *** Device-dependent camera framing *)

Definition getCameraPosition (device : DeviceType) : Vec3Q :=
  match device with
  | mobile => {| qx := 0; qy := 7; qz := 7 |}
  | tablet => {| qx := 0; qy := 7; qz := 14 |}
  | desktop => {| qx := 0; qy := 8; qz := 15 |}
  end.

Definition getCameraLookAt (device : DeviceType) : Vec3Q :=
  match device with
  | mobile => {| qx := 15 # 10; qy := 2; qz := 0 |}
  | tablet => {| qx := 0; qy := 0; qz := 0 |}
  | desktop => {| qx := 0; qy := 0; qz := 0 |}
  end.

Definition getCameraFOV (device : DeviceType) : Q :=
  match device with
  | mobile => 70
  | tablet => 72
  | desktop => 75
  end.

Definition pixelRatio (env : Env) : Q :=
  match deviceType env with
  | mobile => Qmin (devicePixelRatio env) (15 # 10)
  | tablet => Qmin (devicePixelRatio env) 2
  | desktop => Qmin (devicePixelRatio env) 2
  end.

(** *** [createGalaxy] *)

Definition createGalaxy (env : Env) (rnd : nat -> R) (s : State) : State :=
  let particleCount := optimizedParticleCount (deviceType env) in
  let device := deviceType env in
  let s := set_particles (genParticles device particleCount rnd) s in
  let s := emit SceneAdd s in
  set_galaxyGroup
    (Some {| rotation_y := (PI * 0.1)%R;
             rotation_x := match device with
                           | mobile => (- PI * 0.08)%R
                           | _ => (- PI * 0.1)%R
                           end |}) s.

(** *** [handleResize]: [updateSize] and the three debounced triggers *)

Definition updateSize (source : Source) (s : State) : State :=
  if isDestroyed s || updateSizePending s then s
  else snd (requestAnimationFrame (CbUpdateSize source)
              (set_updateSizePending true s)).

(** The callback [updateSize] hands to [requestAnimationFrame]. *)
Definition updateSizeFrame (source : Source) (env : Env) (s : State) : State :=
  if isDestroyed s then set_updateSizePending false s
  else
    let size := getCanvasSize env in
    if ((width size =? 0) || (height size =? 0))%Z then
      set_updateSizePending false s
    else if match lastSize s with
            | Some l => Size_eqb l size
            | None => false
            end then
      set_updateSizePending false s
    else
      let device := deviceType env in
      let camPos := getCameraPosition device in
      let lookAt := getCameraLookAt device in
      let s := emit (CameraPositionSet camPos) s in
      let s := emit (CameraLookAt lookAt) s in
      let aspect := divide (width size) (height size) in
      let fov := getCameraFOV device in
      let s := set_camera {| cam_position := camPos; cam_lookAt := lookAt;
                             fov := fov; aspect := aspect |} s in
      let s := emit UpdateProjectionMatrix s in
      let s := emit (SetSize (width size) (height size)) s in
      let s := match galaxyGroup s with
               | Some _ => emit (Render ResizeRender) s
               | None => s
               end in
      let s := set_lastSize (Some size) s in
      let s := set_lastDevice (Some device) s in
      let s := set_updateSizePending false s in
      let s := match resizeTimeout s with
               | Some id => clearTimeout id s
               | None => s
               end in
      let (id, s) := setTimeout TmPixelRatio 150 s in
      set_resizeTimeout (Some id) s.

Definition handleResizeEvent (s : State) : State :=
  let s := match resizeDebounceTimeout s with
           | Some id => clearTimeout id s
           | None => s
           end in
  let (id, s) := setTimeout TmResizeDebounce 16 s in
  set_resizeDebounceTimeout (Some id) s.

Definition handleOrientationChange (s : State) : State :=
  let s := match orientationDebounceTimeout s with
           | Some id => clearTimeout id s
           | None => s
           end in
  let (id, s) := setTimeout TmOrientationDebounce 150 s in
  set_orientationDebounceTimeout (Some id) s.

(** The callback of the [ResizeObserver]. *)
Definition handleObserved (s : State) : State :=
  let s := match observerDebounceTimeout s with
           | Some id => clearTimeout id s
           | None => s
           end in
  let (id, s) := setTimeout TmObserverDebounce 16 s in
  set_observerDebounceTimeout (Some id) s.

Definition handleResize (env : Env) (s : State) : State :=
  let s := if hasResizeObserver env then
             set_resizeObserver
               (Some match parentElement env with
                     | Some _ => true
                     | None => false
                     end) s
           else s in
  set_orientationHandler true (set_resizeHandler true s).

(** *** [animate] *)

Definition animate (env : Env) (s : State) : State :=
  if isDestroyed s then s
  else if isPageVisible s then
    let (id, s) := requestAnimationFrame CbAnimate s in
    let s := set_animationId (Some id) s in
    match galaxyGroup s with
    | Some g =>
        if isPageVisible s then
          let s := set_time (time s + 0.005)%R s in
          let s := set_particles (map (moveParticle (time s)) (particles s)) s in
          let s := set_galaxyGroup
                     (Some {| rotation_x := rotation_x g;
                              rotation_y := (rotation_y g + 0.00003)%R |}) s in
          let s := emit (Render FrameRender) s in
          let s := set_renderLogCounter (renderLogCounter s + 1)%Z s in
          let now := dateNow env in
          if (5000 <? now - lastRenderLogTime s)%Z then
            set_lastRenderLogTime now (set_renderLogCounter 0%Z s)
          else s
        else s
    | None => s
    end
  else set_animationId None s.

(** *** [handleVisibility] *)

Definition handleVisibilityChange (env : Env) (s : State) : State :=
  let s := set_isPageVisible (negb (document_hidden env)) s in
  if isPageVisible s then
    if negb (truthy (animationId s)) && negb (isDestroyed s) then animate env s
    else s
  else
    match animationId s with
    | Some id => set_animationId None (cancelAnimationFrame id s)
    | None => s
    end.

Definition handleVisibility (env : Env) (s : State) : State :=
  set_visibilityHandler true (set_isPageVisible (negb (document_hidden env)) s).

(** *** [destroy] *)

(** The body of [this.particles.forEach] in [destroy], for the particle at
    [index]: the shared texture first, then the particle's own material. *)
Definition disposeParticle (index : nat) (p : ParticleData) : list Effect :=
  match material_map (material (sprite p)) with
  | Some t => [TextureDispose t; MaterialDispose index]
  | None => [MaterialDispose index]
  end.

Fixpoint disposeParticles (index : nat) (ps : list ParticleData) : list Effect :=
  match ps with
  | [] => []
  | p :: ps' => disposeParticle index p ++ disposeParticles (S index) ps'
  end.

Definition destroy (s : State) : State :=
  let s := set_isDestroyed true s in
  let s := match animationId s with
           | Some id => set_animationId None (cancelAnimationFrame id s)
           | None => s
           end in
  let s := match resizeObserver s with
           | Some _ => set_resizeObserver None s
           | None => s
           end in
  let s := if resizeHandler s then set_resizeHandler false s else s in
  let s := if orientationHandler s then set_orientationHandler false s else s in
  let s := if visibilityHandler s then set_visibilityHandler false s else s in
  let s := match resizeTimeout s with
           | Some id => set_resizeTimeout None (clearTimeout id s)
           | None => s
           end in
  let s := match galaxyGroup s with
           | Some _ =>
               let s := set_log (log s ++ disposeParticles 0 (particles s)) s in
               let s := emit SceneRemove s in
               set_particles [] (set_galaxyGroup None s)
           | None => s
           end in
  emit RendererDispose s.

(** *** The constructor *)

(** The field initialisers of the class, and an idle host. *)
Definition initial : State :=
  {| camera := {| cam_position := {| qx := 0; qy := 0; qz := 0 |};
                  cam_lookAt := {| qx := 0; qy := 0; qz := 0 |};
                  fov := 50; aspect := Ratio 1 |};
     galaxyGroup := None;
     particles := [];
     animationId := None;
     isDestroyed := false;
     time := 0%R;
     resizeHandler := false;
     orientationHandler := false;
     visibilityHandler := false;
     resizeTimeout := None;
     resizeObserver := None;
     renderLogCounter := 0;
     lastRenderLogTime := 0;
     lastSize := None;
     lastDevice := None;
     updateSizePending := false;
     isPageVisible := true;
     resizeDebounceTimeout := None;
     orientationDebounceTimeout := None;
     observerDebounceTimeout := None;
     frameRequests := [];
     timers := [];
     nextFrameId := 1;
     nextTimerId := 1;
     log := [] |}.

Definition construct (env : Env) (rnd : nat -> R) : State :=
  let s := initial in
  let initialSize := getCanvasSize env in
  let s := emit (SetSize (width initialSize) (height initialSize)) s in
  let s := emit (SetPixelRatio (pixelRatio env)) s in
  let s := emit SetClearColor s in
  let device := deviceType env in
  let aspect := divide (width initialSize) (height initialSize) in
  let fov := getCameraFOV device in
  let camPos := getCameraPosition device in
  let lookAt := getCameraLookAt device in
  let s := set_camera {| cam_position := camPos; cam_lookAt := lookAt;
                         fov := fov; aspect := aspect |} s in
  let s := emit (CameraPositionSet camPos) s in
  let s := emit (CameraLookAt lookAt) s in
  let s := createGalaxy env rnd s in
  let s := handleResize env s in
  let s := handleVisibility env s in
  animate env s.

(** *** Events delivered by the host and by the page *)

Inductive Event :=
| EvResize                  (* [resize] on [window] *)
| EvOrientationChange       (* [orientationchange] on [window] *)
| EvResizeObserver          (* the [ResizeObserver] reports the parent *)
| EvVisibilityChange        (* [visibilitychange] on [document] *)
| EvTimer (id : nat)        (* timer [id] expires *)
| EvFrame (id : nat)        (* frame request [id] is served *)
| EvDestroy.                (* the page calls [destroy()] *)

Definition runTimer (env : Env) (cb : TimerCallback) (s : State) : State :=
  match cb with
  | TmResizeDebounce => updateSize window_resize s
  | TmOrientationDebounce => updateSize orientation_change s
  | TmObserverDebounce => updateSize resize_observer s
  | TmPixelRatio =>
      if isDestroyed s then s else emit (SetPixelRatio (pixelRatio env)) s
  end.

Definition runFrame (env : Env) (cb : FrameCallback) (s : State) : State :=
  match cb with
  | CbAnimate => animate env s
  | CbUpdateSize source => updateSizeFrame source env s
  end.

(** One turn of the event loop: [env] is what the handler observes. *)
Definition step (env : Env) (ev : Event) (s : State) : State :=
  match ev with
  | EvResize => if resizeHandler s then handleResizeEvent s else s
  | EvOrientationChange =>
      if orientationHandler s then handleOrientationChange s else s
  | EvResizeObserver =>
      match resizeObserver s with
      | Some true => handleObserved s
      | _ => s
      end
  | EvVisibilityChange =>
      if visibilityHandler s then handleVisibilityChange env s else s
  | EvTimer id =>
      match find (fun t => timerId t =? id) (timers s) with
      | Some t => runTimer env (timerCallback t) (clearTimeout id s)
      | None => s
      end
  | EvFrame id =>
      match find (fun r => frameId r =? id) (frameRequests s) with
      | Some r => runFrame env (frameCallback r) (cancelAnimationFrame id s)
      | None => s
      end
  | EvDestroy => destroy s
  end.

Fixpoint run (evs : list (Env * Event)) (s : State) : State :=
  match evs with
  | [] => s
  | (env, ev) :: evs' => run evs' (step env ev s)
  end.

(** States the class can be in: built by the constructor, then driven by
    the event loop. *)
Inductive Reachable : State -> Prop :=
| Reachable_construct env rnd : Reachable (construct env rnd)
| Reachable_step env ev s : Reachable s -> Reachable (step env ev s).

(** *** Observations on states and logs *)

Definition isRender (e : Effect) : bool :=
  match e with Render _ => true | _ => false end.

Definition isFrameRender (e : Effect) : bool :=
  match e with Render FrameRender => true | _ => false end.

Definition isTextureDispose (t : Texture) (e : Effect) : bool :=
  match e with TextureDispose t' => Texture_eqb t t' | _ => false end.

Definition isSetSize (e : Effect) : bool :=
  match e with SetSize _ _ => true | _ => false end.

Definition isCameraCall (e : Effect) : bool :=
  match e with
  | CameraPositionSet _ | CameraLookAt _ | UpdateProjectionMatrix => true
  | _ => false
  end.

Definition count (f : Effect -> bool) (l : list Effect) : nat :=
  length (filter f l).

Definition renderCount (s : State) : nat := count isRender (log s).

Definition frameRenderCount (s : State) : nat := count isFrameRender (log s).

(** How often [dispose] was invoked on texture [t]. *)
Definition disposeCount (t : Texture) (s : State) : nat :=
  count (isTextureDispose t) (log s).

Definition isAnimate (r : FrameRequest) : bool :=
  match frameCallback r with CbAnimate => true | _ => false end.

Definition isUpdateSize (r : FrameRequest) : bool :=
  match frameCallback r with CbUpdateSize _ => true | _ => false end.

(** Pending requests that would run [animate]: the active loops. *)
Definition activeLoops (s : State) : nat :=
  length (filter isAnimate (frameRequests s)).

(** Pending requests that would run a size update. *)
Definition pendingUpdates (s : State) : nat :=
  length (filter isUpdateSize (frameRequests s)).

(** How many particles reference texture [t]. *)
Definition references (t : Texture) (ps : list ParticleData) : nat :=
  length (filter (fun p => match material_map (material (sprite p)) with
                           | Some t' => Texture_eqb t t'
                           | None => false
                           end) ps).

End GalaxySystem.

(** ** Predicates on states and runs used by the properties *)

Module Invariants.

Import Viewport Field GalaxySystem.

(** After [destroy]: the flag is set, every listener is gone and the field
    has been released. *)
Definition Torn (s : State) : Prop :=
  isDestroyed s = true /\
  resizeHandler s = false /\
  orientationHandler s = false /\
  visibilityHandler s = false /\
  resizeObserver s = None /\
  galaxyGroup s = None.

(** The frame request [animationId] stands for, if any. *)
Definition loopRequests (s : State) : list FrameRequest :=
  if isDestroyed s then []
  else match animationId s with
       | Some id => [{| frameId := id; frameCallback := CbAnimate |}]
       | None => []
       end.

(** Consistency of the host's request table with the instance. *)
Record Inv (s : State) : Prop := {
  inv_next : (1 <= nextFrameId s)%nat;
  inv_dead : isDestroyed s = true -> animationId s = None;
  inv_nodup : NoDup (map frameId (frameRequests s));
  inv_fresh : Forall (fun r => (1 <= frameId r < nextFrameId s)%nat) (frameRequests s);
  inv_loop : filter isAnimate (frameRequests s) = loopRequests s;
  inv_pending :
    pendingUpdates s = (if updateSizePending s then 1 else 0)%nat;
  inv_visibility : visibilityHandler s = negb (isDestroyed s)
}.

(** What [Inv] reads of a state. *)
Definition frameView (s : State) :=
  (frameRequests s, nextFrameId s, animationId s, isDestroyed s,
   updateSizePending s, visibilityHandler s).

(** The request table without the request [id]. *)
Definition dropId (id : nat) (l : list FrameRequest) : list FrameRequest :=
  filter (fun r => negb (frameId r =? id)) l.

(** A live instance still owns its field and has released nothing. *)
Definition Owning (s : State) : Prop :=
  isDestroyed s = false ->
  galaxyGroup s <> None /\ forall t, disposeCount t s = 0%nat.

(** What [createGalaxy] establishes for a particle and no frame changes:
    its material carries a glyph texture, and its angular speed follows
    from its radius. *)
Definition asGenerated (p : ParticleData) : Prop :=
  material_map (material (sprite p)) <> None /\
  orbitalSpeed p = (0.5 / sqrt (radius p + 1))%R.

Definition Generated (s : State) : Prop := Forall asGenerated (particles s).

(** The loop is stopped: by [destroy], or by a hidden page. *)
Definition Paused (s : State) : Prop :=
  isDestroyed s = true \/ (isPageVisible s = false /\ animationId s = None).

(** What a particle keeps for life: everything but the sprite's position. *)
Definition static (p : ParticleData) :=
  (initialAngle p, radius p, orbitalSpeed p, branchAngle p, randomOffset p,
   scale (sprite p), material (sprite p)).

(** Event [ev] serves the pending size update of [s]. *)
Definition servesUpdate (s : State) (ev : Event) : bool :=
  match ev with
  | EvFrame id =>
      match find (fun r => frameId r =? id) (frameRequests s) with
      | Some r => isUpdateSize r
      | None => false
      end
  | _ => false
  end.

(** No event of the run serves a size update. *)
Fixpoint noUpdateServed (evs : list (Env * Event)) (s : State) : Prop :=
  match evs with
  | [] => True
  | (env, ev) :: evs' =>
      servesUpdate s ev = false /\ noUpdateServed evs' (step env ev s)
  end.

(** Event [ev] fires one of the three debounce timers of [s]. *)
Definition firesDebounce (s : State) (ev : Event) : bool :=
  match ev with
  | EvTimer id =>
      match find (fun t => timerId t =? id) (timers s) with
      | Some t => match timerCallback t with
                  | TmPixelRatio => false
                  | _ => true
                  end
      | None => false
      end
  | _ => false
  end.

(** How many events of the run satisfy [f] in the state they arrive in. *)
Fixpoint occurrences (f : State -> Event -> bool)
         (evs : list (Env * Event)) (s : State) : nat :=
  match evs with
  | [] => 0
  | (env, ev) :: evs' =>
      (if f s ev then 1 else 0) + occurrences f evs' (step env ev s)
  end.

(** Size updates the host serves during the run. *)
Definition updatesServed := occurrences servesUpdate.

(** Debounce timers that fire during the run. *)
Definition debouncesFired := occurrences firesDebounce.

(** Every visibility change of the run reports a hidden document. *)
Definition staysHidden (evs : list (Env * Event)) : Prop :=
  forall env, In (env, EvVisibilityChange) evs -> document_hidden env = true.

(** Trigger the size update and let the host serve the request it made. *)
Definition sizeUpdatePath (source : Source) (env : Env) (s : State) : State :=
  step env (EvFrame (nextFrameId s)) (updateSize source s).

(** What the host and the backend see of a state. *)
Definition footprint (f : Effect -> bool) (s : State) :=
  (count f (log s), nextFrameId s, nextTimerId s).

(** What [Paused] and the render counters read of a state. *)
Definition pausedView (s : State) :=
  (isDestroyed s, isPageVisible s, animationId s,
   frameRenderCount s, renderCount s).

(** What [Owning] and [Textured] read of a state. *)
Definition fieldView (t : Texture) (s : State) :=
  (isDestroyed s, galaxyGroup s, particles s, disposeCount t s).

(** The conditions under which the callback gives up. *)
Definition aborts (env : Env) (s : State) : Prop :=
  isDestroyed s = true
  \/ (width (getCanvasSize env) = 0 \/ height (getCanvasSize env) = 0)%Z
  \/ lastSize s = Some (getCanvasSize env).

End Invariants.

(** ** Concrete pages used to exercise the properties *)

Module Examples.

Import Viewport Field GalaxySystem Invariants.


(** A visible 1920 x 1080 desktop page. *)
Definition env_desktop : Env :=
  {| document_hidden := false;
     innerWidth := 1920; innerHeight := 1080;
     isMobileUA := false;
     devicePixelRatio := 1;
     parentElement := Some {| rect_width := 1920; rect_height := 1080 |};
     canvasRect := {| rect_width := 1920; rect_height := 1080 |};
     clientWidth := 1920; clientHeight := 1080;
     hasResizeObserver := true;
     dateNow := 0 |}.

(** The same page once it is hidden. *)
Definition env_hidden : Env :=
  {| document_hidden := true;
     innerWidth := 1920; innerHeight := 1080;
     isMobileUA := false;
     devicePixelRatio := 1;
     parentElement := Some {| rect_width := 1920; rect_height := 1080 |};
     canvasRect := {| rect_width := 1920; rect_height := 1080 |};
     clientWidth := 1920; clientHeight := 1080;
     hasResizeObserver := true;
     dateNow := 0 |}.

(** The desktop page once its window has been resized to 1600 x 900. *)
Definition env_resized : Env :=
  {| document_hidden := false;
     innerWidth := 1600; innerHeight := 900;
     isMobileUA := false;
     devicePixelRatio := 1;
     parentElement := Some {| rect_width := 1600; rect_height := 900 |};
     canvasRect := {| rect_width := 1600; rect_height := 900 |};
     clientWidth := 1600; clientHeight := 900;
     hasResizeObserver := true;
     dateNow := 0 |}.

(** The three triggers of a size update, arriving together. *)
Definition burst : list (Env * Event) :=
  [(env_desktop, EvResize); (env_desktop, EvOrientationChange);
   (env_desktop, EvResizeObserver)].

(** What follows a burst on a host that honours the delays: the two 16 ms
    timers fire, the host serves the next frame, and the 150 ms timer of
    the orientation change fires after that, when the layout has settled
    on the new size. *)
Definition settle : list (Env * Event) :=
  [(env_desktop, EvTimer 1%nat); (env_desktop, EvTimer 3%nat);
   (env_desktop, EvFrame 2%nat);
   (env_resized, EvTimer 2%nat); (env_resized, EvFrame 3%nat)].

(** A resize that reaches a hidden page and is served there. *)
Definition resize_while_hidden : list (Env * Event) :=
  [(env_hidden, EvResize); (env_hidden, EvTimer 1%nat);
   (env_hidden, EvFrame 2%nat)].

(** The constant stream of draws 1/2. *)
Definition rnd_half : nat -> R := fun _ => 0.5%R.

(** A stream of draws in the unit interval: 1/2, 1/3, 1/4, ... *)
Definition rnd_harmonic : nat -> R := fun k => (/ (INR k + 2))%R.

(** The system as the constructor leaves it on the desktop page. *)
Definition sys_desktop : State := construct env_desktop rnd_harmonic.

(** A hand-built live state with a single particle of radius 5. *)
Definition particle_r5 : ParticleData :=
  {| sprite := {| material := {| material_map := Some texture1;
                                 transparent := true;
                                 opacity := 0.3%R;
                                 blending := AdditiveBlending;
                                 color := ColorHex INSIDE_COLOR;
                                 depthWrite := false |};
                  scale := {| vx := 0.1%R; vy := 0.1%R; vz := 1%R |};
                  position := {| vx := 5%R; vy := 0%R; vz := 0%R |} |};
     initialAngle := 0%R;
     radius := 5%R;
     orbitalSpeed := (0.5 / sqrt (5 + 1))%R;
     branchAngle := 0%R;
     randomOffset := {| vx := 0%R; vy := 0%R; vz := 0%R |} |}.

End Examples.

(** ** Further observations on particles, timers and backend calls *)

Module Behaviour.

Import Viewport Field GalaxySystem Invariants.

(** A sprite sits on its particle's orbit: on the circle of the particle's
    radius around its jitter offset, at the jitter's height. *)
Definition onOrbit (p : ParticleData) : Prop :=
  let pos := position (sprite p) in
  let off := randomOffset p in
  ((vx pos - vx off) * (vx pos - vx off)
   + (vz pos - vz off) * (vz pos - vz off) = radius p * radius p)%R
  /\ vy pos = vy off.

(** A sprite lies inside the box around the disc, at its jitter's height:
    the radius plus the largest jitter bounds it along x and z. *)
Definition inField (p : ParticleData) : Prop :=
  let pos := position (sprite p) in
  (Rabs (vx pos) < RADIUS + 0.4
   /\ Rabs (vz pos) < RADIUS + 0.12
   /\ vy pos = vy (randomOffset p)
   /\ Rabs (vy pos) < 0.4)%R.

(** The radius and jitter of a particle generated from draws in [[0,1)]. *)
Definition inBudget (p : ParticleData) : Prop :=
  (0 <= radius p < RADIUS
   /\ Rabs (vx (randomOffset p)) < 0.4
   /\ Rabs (vy (randomOffset p)) < 0.4
   /\ Rabs (vz (randomOffset p)) < 0.12)%R.

Definition TimerCallback_eqb (a b : TimerCallback) : bool :=
  match a, b with
  | TmResizeDebounce, TmResizeDebounce
  | TmOrientationDebounce, TmOrientationDebounce
  | TmObserverDebounce, TmObserverDebounce
  | TmPixelRatio, TmPixelRatio => true
  | _, _ => false
  end.

(** How many timers with callback [cb] are armed. *)
Definition armed (cb : TimerCallback) (s : State) : nat :=
  length (filter (fun t => TimerCallback_eqb (timerCallback t) cb) (timers s)).

(** The variable in which the class keeps the handle of such a timer. *)
Definition handleOf (cb : TimerCallback) (s : State) : option nat :=
  match cb with
  | TmResizeDebounce => resizeDebounceTimeout s
  | TmOrientationDebounce => orientationDebounceTimeout s
  | TmObserverDebounce => observerDebounceTimeout s
  | TmPixelRatio => resizeTimeout s
  end.

(** The delay the class passes to [setTimeout] for each callback. *)
Definition delayOf (cb : TimerCallback) : Z :=
  match cb with
  | TmResizeDebounce => 16
  | TmOrientationDebounce => 150
  | TmObserverDebounce => 16
  | TmPixelRatio => 150
  end.

(** Consistency of the host's timer table with the instance: every armed
    timer is the one its handle variable names. *)
Record TimerInv (s : State) : Prop := {
  tinv_next : (1 <= nextTimerId s)%nat;
  tinv_nodup : NoDup (map timerId (timers s));
  tinv_fresh : Forall (fun t => (1 <= timerId t < nextTimerId s)%nat) (timers s);
  tinv_named : forall t, In t (timers s) ->
                 handleOf (timerCallback t) s = Some (timerId t)
                 /\ timerDelay t = delayOf (timerCallback t);
  tinv_handles : forall cb id, handleOf cb s = Some id ->
                   (id < nextTimerId s)%nat;
  tinv_distinct : forall cb cb' id,
                    handleOf cb s = Some id -> handleOf cb' s = Some id ->
                    cb = cb'
}.

(** What [TimerInv] reads of a state. *)
Definition timerView (s : State) :=
  (timers s, nextTimerId s, resizeTimeout s, resizeDebounceTimeout s,
   orientationDebounceTimeout s, observerDebounceTimeout s).

(** The timer table without the timer [id]. *)
Definition dropTimer (id : nat) (l : list Timer) : list Timer :=
  filter (fun t => negb (timerId t =? id)) l.

(** The backend calls an event handled under [env] may make. *)
Definition emitted (env : Env) (e : Effect) : Prop :=
  match e with
  | SetSize w h =>
      getCanvasSize env = {| width := w; height := h |}
      /\ w <> 0%Z /\ h <> 0%Z
  | SetPixelRatio r => r = pixelRatio env
  | CameraPositionSet p => p = getCameraPosition (deviceType env)
  | CameraLookAt p => p = getCameraLookAt (deviceType env)
  | SetClearColor | SceneAdd => False
  | _ => True
  end.

(** The pixel ratio handed to the renderer stays under the cap. *)
Definition ratioCapped (e : Effect) : Prop :=
  match e with
  | SetPixelRatio r => (r <= 2)%Q
  | _ => True
  end.

(** The clock and the number of frames rendered. *)
Definition tickView (s : State) := (time s, galaxyGroup s, frameRenderCount s).

(** The clock after [n] frames: [time += 0.005], [n] times from 0. *)
Definition clockAfter (n : nat) : R :=
  Nat.iter n (fun t => (t + 0.005)%R) 0%R.

(** The field's rotation about the vertical axis after [n] frames:
    [rotation.y += 0.00003], [n] times from [Math.PI * 0.1]. *)
Definition spinAfter (n : nat) : R :=
  Nat.iter n (fun r => (r + 0.00003)%R) (PI * 0.1)%R.

Definition spun (n : nat) (g : Group) : Prop := rotation_y g = spinAfter n.

(** The clock and the rotation are those of the frames rendered. *)
Definition Ticking (s : State) : Prop :=
  time s = clockAfter (frameRenderCount s)
  /\ forall g, galaxyGroup s = Some g -> spun (frameRenderCount s) g.

(** The particle count of a system built under [env]. *)
Definition Populated (env : Env) (s : State) : Prop :=
  if isDestroyed s then particles s = []
  else length (particles s) = optimizedParticleCount (deviceType env).

(** The backend calls of an applied size update, in order. *)
Definition appliedCalls (env : Env) : list Effect :=
  [CameraPositionSet (getCameraPosition (deviceType env));
   CameraLookAt (getCameraLookAt (deviceType env));
   UpdateProjectionMatrix;
   SetSize (width (getCanvasSize env)) (height (getCanvasSize env));
   Render ResizeRender].

(** The constructor's state just before it calls [animate]. *)
Definition constructed (env : Env) (rnd : nat -> R) : State :=
  let initialSize := getCanvasSize env in
  let s := emit (SetSize (width initialSize) (height initialSize)) initial in
  let s := emit (SetPixelRatio (pixelRatio env)) s in
  let s := emit SetClearColor s in
  let device := deviceType env in
  let s := set_camera
             {| cam_position := getCameraPosition device;
                cam_lookAt := getCameraLookAt device;
                fov := getCameraFOV device;
                aspect := divide (width initialSize) (height initialSize) |}
             s in
  let s := emit (CameraPositionSet (getCameraPosition device)) s in
  let s := emit (CameraLookAt (getCameraLookAt device)) s in
  handleVisibility env (handleResize env (createGalaxy env rnd s)).

(** A live, idle instance with a consistent request table and its field:
    one on which a size-update path runs its callback. *)
Definition ready (s : State) : Prop :=
  Inv s /\ galaxyGroup s <> None
  /\ isDestroyed s = false /\ updateSizePending s = false.

(** The tiers in the order of the budgets they are given. *)
Definition tierRank (d : DeviceType) : nat :=
  match d with mobile => 0 | tablet => 1 | desktop => 2 end.

(** A page whose canvas parent is 0.4 px wide: its width rounds to 0. *)
Definition env_subpixel : Env :=
  {| document_hidden := false;
     innerWidth := 1280; innerHeight := 720;
     isMobileUA := false;
     devicePixelRatio := 1;
     parentElement := Some {| rect_width := 4 # 10; rect_height := 100 |};
     canvasRect := {| rect_width := 4 # 10; rect_height := 100 |};
     clientWidth := 0; clientHeight := 100;
     hasResizeObserver := true;
     dateNow := 0 |}.

(** A phone: a mobile user agent on a 375 x 667 window. *)
Definition env_phone : Env :=
  {| document_hidden := false;
     innerWidth := 375; innerHeight := 667;
     isMobileUA := true;
     devicePixelRatio := 3;
     parentElement := Some {| rect_width := 375; rect_height := 667 |};
     canvasRect := {| rect_width := 375; rect_height := 667 |};
     clientWidth := 375; clientHeight := 667;
     hasResizeObserver := true;
     dateNow := 0 |}.

End Behaviour.

(** * Properties *)

Import Viewport Field GalaxySystem Invariants Examples.

(** ** Canvas size resolution *)

Section ViewportFacts.

Local Open Scope Q_scope.

Lemma Math_round_inject_Z (n : Z) : Math_round (inject_Z n) = n.
Proof.
  unfold Math_round, Qfloor, inject_Z, Qplus; cbn.
  replace (n * 2 + 1)%Z with (1 + n * 2)%Z by lia.
  rewrite Z.div_add by lia. cbn. lia.
Qed.

Lemma gt0_spec (x : Q) : gt0 x = true <-> 0 < x.
Proof.
  unfold gt0. rewrite negb_true_iff.
  split; intro H.
  - apply Qnot_le_lt. intro Hle. apply Qle_bool_iff in Hle. congruence.
  - destruct (Qle_bool x 0) eqn:E; [|reflexivity].
    apply Qle_bool_iff in E. exfalso. exact (Qlt_not_le _ _ H E).
Qed.



Lemma windowFallback_eq (env : Env) :
  windowFallback env =
  {| width := orDefault (innerWidth env) 1920;
     height := orDefault (innerHeight env) 1080 |}.
Proof. unfold windowFallback. now rewrite !Math_round_inject_Z. Qed.



Lemma clientSize_nonzero (env : Env) :
  clientPositive env = true ->
  Math_round (inject_Z (clientWidth env)) <> 0%Z /\
  Math_round (inject_Z (clientHeight env)) <> 0%Z.
Proof.
  unfold clientPositive. rewrite andb_true_iff, !Z.ltb_lt.
  rewrite !Math_round_inject_Z. lia.
Qed.

End ViewportFacts.

(** ** The particle field *)

Section FieldFacts.

Local Open Scope R_scope.

(** *** [Math.pow] on the unit interval *)

Lemma Math_pow_zero (y : R) : 0 < y -> Math_pow 0 y = 0.
Proof.
  intro Hy. unfold Math_pow.
  destruct (Req_dec_T 0 0) as [_|n]; [|contradiction].
  destruct (Req_dec_T y 0); [lra|reflexivity].
Qed.

Lemma Math_pow_pos (x y : R) : 0 < x -> Math_pow x y = Rpower x y.
Proof.
  intro Hx. unfold Math_pow.
  destruct (Req_dec_T x 0); [lra|reflexivity].
Qed.

Lemma Math_pow_unit (u p : R) :
  0 <= u < 1 -> 0 < p -> 0 <= Math_pow u p < 1.
Proof.
  intros [H0 H1] Hp.
  destruct (Req_dec_T u 0) as [->|Hne].
  - rewrite Math_pow_zero by assumption. lra.
  - assert (Hu : 0 < u) by lra.
    rewrite Math_pow_pos by assumption. unfold Rpower. split.
    + left. apply exp_pos.
    + rewrite <- exp_0. apply exp_increasing.
      assert (Hln : ln u < 0).
      { rewrite <- ln_1. apply ln_increasing; lra. }
      nra.
Qed.

(** For the exponent [3] the power is the cube. *)
Lemma Math_pow_cube (u : R) : 0 <= u -> Math_pow u 3 = u * u * u.
Proof.
  intro H0.
  destruct (Req_dec_T u 0) as [->|Hne].
  - rewrite Math_pow_zero by lra. lra.
  - rewrite Math_pow_pos by lra.
    replace 3 with (INR 3) by (simpl; lra).
    rewrite Rpower_pow by lra. simpl. lra.
Qed.

(** For the exponent [2.5] it is the square root of the fifth power. *)
Lemma Math_pow_five_halves (u : R) :
  0 <= u -> Math_pow u 2.5 = sqrt (u * u * u * u * u).
Proof.
  intro H0.
  destruct (Req_dec_T u 0) as [->|Hne].
  - rewrite Math_pow_zero by lra.
    replace (0 * 0 * 0 * 0 * 0) with 0 by lra. now rewrite sqrt_0.
  - assert (Hu : 0 < u) by lra.
    rewrite Math_pow_pos by assumption.
    symmetry. apply sqrt_lem_1.
    + repeat apply Rmult_le_pos; lra.
    + left. unfold Rpower. apply exp_pos.
    + rewrite <- Rpower_plus.
      replace (2.5 + 2.5) with (INR 5) by (simpl; lra).
      rewrite Rpower_pow by assumption. simpl. lra.
Qed.

(** *** The generation loop *)

Lemma makeParticle_cursor device i rnd c :
  snd (makeParticle device i rnd c) = (c + 9)%nat.
Proof.
  cbv [makeParticle bind ret Math_random coin snd]. lia.
Qed.

Lemma makeParticle_radius device i rnd c :
  radius (fst (makeParticle device i rnd c)) =
  Math_pow (rnd (S c)) (densityPower device) * RADIUS.
Proof. reflexivity. Qed.

Lemma makeParticle_branchAngle device i rnd c :
  branchAngle (fst (makeParticle device i rnd c)) = armAngle (i mod BRANCHES).
Proof. reflexivity. Qed.

Lemma makeParticle_orbitalSpeed device i rnd c :
  let p := fst (makeParticle device i rnd c) in
  orbitalSpeed p = 0.5 / sqrt (radius p + 1).
Proof. reflexivity. Qed.

Lemma makeParticle_texture device i rnd c :
  material_map (material (sprite (fst (makeParticle device i rnd c)))) =
  Some (if Rlt_dec (rnd (S (S c))) 0.5 then texture1 else texture0).
Proof.
  cbv [makeParticle bind ret Math_random coin fst sprite material material_map].
  destruct (Rlt_dec (rnd (S (S c))) 0.5); reflexivity.
Qed.

Lemma genLoop_step device n i rnd c :
  fst (genLoop device (S n) i rnd c) =
  fst (makeParticle device i rnd c)
  :: fst (genLoop device n (S i) rnd (c + 9)%nat).
Proof.
  cbn [genLoop]. unfold bind at 1.
  destruct (makeParticle device i rnd c) as [p c'] eqn:E.
  assert (Hc : c' = (c + 9)%nat).
  { pose proof (makeParticle_cursor device i rnd c) as H.
    rewrite E in H. exact H. }
  subst c'. unfold bind, ret.
  destruct (genLoop device n (S i) rnd (c + 9)%nat). reflexivity.
Qed.

Lemma genLoop_length device n : forall i rnd c,
  length (fst (genLoop device n i rnd c)) = n.
Proof.
  induction n as [|n IH]; intros i rnd c.
  - reflexivity.
  - rewrite genLoop_step. cbn [length]. now rewrite IH.
Qed.

Lemma genLoop_nth device n : forall i rnd c k,
  (k < n)%nat ->
  nth_error (fst (genLoop device n i rnd c)) k =
  Some (fst (makeParticle device (i + k) rnd (c + 9 * k)%nat)).
Proof.
  induction n as [|n IH]; intros i rnd c k Hk; [lia|].
  rewrite genLoop_step. destruct k as [|k].
  - cbn [nth_error]. do 3 f_equal; lia.
  - cbn [nth_error]. rewrite IH by lia. do 3 f_equal; lia.
Qed.

Lemma genParticles_length device n rnd :
  length (genParticles device n rnd) = n.
Proof. apply genLoop_length. Qed.

Lemma genParticles_nth device n rnd k p :
  nth_error (genParticles device n rnd) k = Some p ->
  (k < n)%nat /\ p = fst (makeParticle device k rnd (9 * k)%nat).
Proof.
  intro H.
  assert (Hk : (k < n)%nat).
  { rewrite <- (genParticles_length device n rnd).
    apply nth_error_Some. congruence. }
  split; [exact Hk|].
  unfold genParticles in H. rewrite genLoop_nth in H by exact Hk.
  injection H as <-. reflexivity.
Qed.

(** *** Spiral arms *)

Lemma armAngle_inj (a b : nat) : armAngle a = armAngle b -> a = b.
Proof.
  unfold armAngle, BRANCHES. intro H.
  pose proof PI_RGT_0 as Hpi.
  assert (HR : INR a = INR b).
  { simpl in H. nra. }
  now apply INR_eq.
Qed.

Lemma onArm_makeParticle device i rnd c a :
  onArm a (fst (makeParticle device i rnd c)) = (i mod BRANCHES =? a)%nat.
Proof.
  unfold onArm. rewrite makeParticle_branchAngle.
  destruct (Req_dec_T (armAngle (i mod BRANCHES)) (armAngle a)) as [E|E];
    destruct (Nat.eqb_spec (i mod BRANCHES) a) as [E'|E'];
    try reflexivity.
  - apply armAngle_inj in E. contradiction.
  - subst a. contradiction.
Qed.

Lemma armCount_genLoop device a n : forall i rnd c,
  armCount a (fst (genLoop device n i rnd c)) =
  length (filter (fun j => (j mod BRANCHES =? a)%nat) (seq i n)).
Proof.
  unfold armCount.
  induction n as [|n IH]; intros i rnd c; [reflexivity|].
  rewrite genLoop_step. cbn [filter seq].
  rewrite onArm_makeParticle.
  destruct (i mod BRANCHES =? a)%nat; cbn [length]; now rewrite IH.
Qed.

Lemma count_residue (a n : nat) :
  (a < 4)%nat ->
  length (filter (fun j => (j mod 4 =? a)%nat) (seq 0 n)) =
  (n / 4 + (if (a <? n mod 4)%nat then 1 else 0))%nat.
Proof.
  intro Ha. induction n as [|n IH].
  - cbn. destruct a; reflexivity.
  - rewrite seq_S, filter_app, length_app, IH. cbn [filter Nat.add].
    pose proof (Nat.div_mod_eq n 4) as E1.
    pose proof (Nat.mod_upper_bound n 4 ltac:(lia)) as B1.
    pose proof (Nat.div_mod_eq (S n) 4) as E2.
    pose proof (Nat.mod_upper_bound (S n) 4 ltac:(lia)) as B2.
    destruct (Nat.eqb_spec (n mod 4) a);
      destruct (Nat.ltb_spec a (n mod 4));
      destruct (Nat.ltb_spec a (S n mod 4)); cbn [length]; lia.
Qed.

End FieldFacts.

(** ** The event loop *)

(** Reading a field back through assignments and host primitives. *)
Ltac fields :=
  cbn [
       camera galaxyGroup particles animationId isDestroyed time
       resizeHandler orientationHandler visibilityHandler resizeTimeout
       resizeObserver renderLogCounter lastRenderLogTime lastSize
       lastDevice updateSizePending isPageVisible resizeDebounceTimeout
       orientationDebounceTimeout observerDebounceTimeout frameRequests
       timers nextFrameId nextTimerId log set_camera set_galaxyGroup
       set_particles set_animationId set_isDestroyed set_time
       set_resizeHandler set_orientationHandler set_visibilityHandler
       set_resizeTimeout set_resizeObserver set_renderLogCounter
       set_lastRenderLogTime set_lastSize set_lastDevice
       set_updateSizePending set_isPageVisible set_resizeDebounceTimeout
       set_orientationDebounceTimeout set_observerDebounceTimeout
       set_frameRequests set_timers set_nextFrameId set_nextTimerId
       set_log emit requestAnimationFrame cancelAnimationFrame
       setTimeout clearTimeout fst snd
  ] in *.

(** Case analysis on the branches of a handler, innermost test first. *)
Ltac branches :=
  repeat (fields;
          match goal with
          | |- context [match ?x with _ => _ end] =>
              lazymatch x with
              | context [match _ with _ => _ end] => fail
              | _ => destruct x eqn:?
              end
          end); fields.

Ltac handler h := unfold h; branches; try congruence; try reflexivity.

Section SystemFacts.

Local Open Scope nat_scope.


(** Every assignment writes the field it is named after; that it leaves
    the others alone is what [fields] computes. *)
Lemma set_get (s : State) :
  (forall v, camera (set_camera v s) = v)
  /\ (forall v, galaxyGroup (set_galaxyGroup v s) = v)
  /\ (forall v, particles (set_particles v s) = v)
  /\ (forall v, animationId (set_animationId v s) = v)
  /\ (forall v, isDestroyed (set_isDestroyed v s) = v)
  /\ (forall v, time (set_time v s) = v)
  /\ (forall v, resizeHandler (set_resizeHandler v s) = v)
  /\ (forall v, orientationHandler (set_orientationHandler v s) = v)
  /\ (forall v, visibilityHandler (set_visibilityHandler v s) = v)
  /\ (forall v, resizeTimeout (set_resizeTimeout v s) = v)
  /\ (forall v, resizeObserver (set_resizeObserver v s) = v)
  /\ (forall v, renderLogCounter (set_renderLogCounter v s) = v)
  /\ (forall v, lastRenderLogTime (set_lastRenderLogTime v s) = v)
  /\ (forall v, lastSize (set_lastSize v s) = v)
  /\ (forall v, lastDevice (set_lastDevice v s) = v)
  /\ (forall v, updateSizePending (set_updateSizePending v s) = v)
  /\ (forall v, isPageVisible (set_isPageVisible v s) = v)
  /\ (forall v, resizeDebounceTimeout (set_resizeDebounceTimeout v s) = v)
  /\ (forall v, orientationDebounceTimeout (set_orientationDebounceTimeout v s) = v)
  /\ (forall v, observerDebounceTimeout (set_observerDebounceTimeout v s) = v)
  /\ (forall v, frameRequests (set_frameRequests v s) = v)
  /\ (forall v, timers (set_timers v s) = v)
  /\ (forall v, nextFrameId (set_nextFrameId v s) = v)
  /\ (forall v, nextTimerId (set_nextTimerId v s) = v)
  /\ (forall v, log (set_log v s) = v).
Proof. repeat split. Qed.

(** *** Counting in logs *)

Lemma count_app f l l' : count f (l ++ l') = count f l + count f l'.
Proof. unfold count. now rewrite filter_app, length_app. Qed.

Lemma count_snoc f l e :
  count f (l ++ [e]) = count f l + (if f e then 1 else 0).
Proof. rewrite count_app. unfold count. cbn. now destruct (f e). Qed.

Lemma count_snoc_false f l e : f e = false -> count f (l ++ [e]) = count f l.
Proof. intro H. rewrite count_snoc, H. lia. Qed.

(** *** Request tables *)

Lemma dropId_filter P id l : filter P (dropId id l) = dropId id (filter P l).
Proof.
  unfold dropId. induction l as [|r l IH]; [reflexivity|]. cbn.
  destruct (negb (frameId r =? id)) eqn:E1, (P r) eqn:E2; cbn;
    rewrite ?E1, ?E2, IH; reflexivity.
Qed.

Lemma dropId_In id l r : In r (dropId id l) -> In r l /\ frameId r <> id.
Proof.
  unfold dropId. rewrite filter_In, negb_true_iff, Nat.eqb_neq. tauto.
Qed.

Lemma dropId_absent id l :
  (forall r, In r l -> frameId r <> id) -> dropId id l = l.
Proof.
  unfold dropId. induction l as [|r l IH]; intro H; [reflexivity|]. cbn.
  destruct (Nat.eqb_spec (frameId r) id) as [E|E].
  - exfalso. apply (H r); [now left|exact E].
  - cbn. f_equal. apply IH. intros r' Hr'. apply H. now right.
Qed.

Lemma dropId_NoDup id l :
  NoDup (map frameId l) -> NoDup (map frameId (dropId id l)).
Proof.
  unfold dropId. induction l as [|r l IH]; intro H; [constructor|].
  cbn in *. inversion H as [|? ? Hnotin Hnd]; subst.
  destruct (negb (frameId r =? id)); [|auto].
  cbn. constructor; [|auto].
  intro Hin. apply Hnotin. apply in_map_iff in Hin as [r' [E Hr']].
  apply filter_In in Hr' as [Hr' _]. apply in_map_iff. eauto.
Qed.

Lemma dropId_Forall (P : FrameRequest -> Prop) id l :
  Forall P l -> Forall P (dropId id l).
Proof.
  rewrite !Forall_forall. intros H r Hr.
  apply dropId_In in Hr as [Hr _]. auto.
Qed.

Lemma NoDup_same_id l r r' :
  NoDup (map frameId l) -> In r l -> In r' l -> frameId r = frameId r' ->
  r = r'.
Proof.
  induction l as [|x l IH]; intros Hnd Hr Hr' E; [contradiction|].
  cbn in Hnd. inversion Hnd as [|? ? Hnotin Hnd']; subst.
  destruct Hr as [->|Hr], Hr' as [->|Hr']; auto.
  - exfalso. apply Hnotin. rewrite E. now apply in_map.
  - exfalso. apply Hnotin. rewrite <- E. now apply in_map.
Qed.

(** Dropping the request [r] leaves the requests of another kind alone. *)
Lemma dropId_other_kind P l r :
  NoDup (map frameId l) -> In r l -> P r = false ->
  dropId (frameId r) (filter P l) = filter P l.
Proof.
  intros Hnd Hr HP. apply dropId_absent. intros r' Hr' E.
  apply filter_In in Hr' as [Hr' HP'].
  assert (r' = r) by (eapply NoDup_same_id; eauto).
  subst. congruence.
Qed.

Lemma find_frame id l r :
  find (fun r => frameId r =? id) l = Some r -> In r l /\ frameId r = id.
Proof.
  intro H. apply find_some in H as [Hin E].
  apply Nat.eqb_eq in E. auto.
Qed.

Lemma kind_exclusive r : isUpdateSize r = negb (isAnimate r).
Proof. unfold isUpdateSize, isAnimate. now destruct (frameCallback r). Qed.

(** *** The table invariant is kept by every handler *)

Lemma Inv_view s s' : frameView s' = frameView s -> Inv s -> Inv s'.
Proof.
  unfold frameView. intros E [H1 H2 H3 H4 H5 H6 H7].
  injection E as E1 E2 E3 E4 E5 E6.
  constructor; unfold loopRequests, pendingUpdates in *;
    rewrite ?E1, ?E2, ?E3, ?E4, ?E5, ?E6; assumption.
Qed.

Lemma NoDup_snoc (l : list nat) (x : nat) :
  NoDup l -> ~ In x l -> NoDup (l ++ [x]).
Proof.
  intros Hnd Hx. apply NoDup_app; auto.
  - constructor; [intros []|constructor].
  - intros a Ha [<-|[]]. contradiction.
Qed.

Lemma Inv_request cb s :
  Inv s ->
  NoDup (map frameId (frameRequests (snd (requestAnimationFrame cb s))))
  /\ Forall (fun r => 1 <= frameId r < S (nextFrameId s))
            (frameRequests (snd (requestAnimationFrame cb s))).
Proof.
  intros [H1 H2 H3 H4 H5 H6 H7]. fields. split.
  - rewrite map_app. apply NoDup_snoc; [assumption|]. cbn.
    intro Hin. apply in_map_iff in Hin as [r [E Hr]].
    rewrite Forall_forall in H4. specialize (H4 r Hr). lia.
  - apply Forall_app. split.
    + eapply Forall_impl; [|exact H4]. cbn. intros; lia.
    + constructor; [cbn; lia|constructor].
Qed.

Lemma Inv_updateSize src s : Inv s -> Inv (updateSize src s).
Proof.
  intro HI. unfold updateSize.
  destruct (isDestroyed s || updateSizePending s) eqn:E; [assumption|].
  apply orb_false_iff in E as [Ed Ep].
  pose proof (Inv_request (CbUpdateSize src) s HI) as [Hnd Hfr].
  destruct HI as [H1 H2 H3 H4 H5 H6 H7].
  constructor; unfold loopRequests, pendingUpdates in *; fields; auto.
  - rewrite filter_app. cbn. now rewrite app_nil_r.
  - rewrite filter_app, length_app. cbn. rewrite H6, Ep. reflexivity.
Qed.

Lemma Inv_animate env s :
  Inv (set_animationId None s) ->
  (isDestroyed s = true -> animationId s = None) ->
  Inv (animate env s).
Proof.
  intros HI Hdead. unfold animate.
  destruct (isDestroyed s) eqn:Ed.
  { destruct HI as [H1 H2 H3 H4 H5 H6 H7].
    constructor; unfold loopRequests, pendingUpdates in *; fields; auto.
    now rewrite Ed in *. }
  destruct (isPageVisible s) eqn:Ev; [|assumption].
  pose proof (Inv_request CbAnimate _ HI) as [Hnd Hfr].
  destruct HI as [H1 H2 H3 H4 H5 H6 H7].
  unfold loopRequests, pendingUpdates in *. fields. rewrite Ed in *.
  assert (Inv (set_animationId (Some (nextFrameId s))
                 (snd (requestAnimationFrame CbAnimate s)))) as HI'.
  { constructor; unfold loopRequests, pendingUpdates; fields;
      rewrite ?Ed; auto.
    - congruence.
    - rewrite filter_app, H5. reflexivity.
    - rewrite filter_app, length_app. cbn. lia. }
  fields. branches; (eapply Inv_view; [|exact HI']); reflexivity.
Qed.

(** In a consistent table the request named by [animationId] is there. *)
Lemma loop_request_In s id :
  Inv s -> animationId s = Some id ->
  isDestroyed s = false /\
  In {| frameId := id; frameCallback := CbAnimate |} (frameRequests s).
Proof.
  intros HI Ea. destruct (isDestroyed s) eqn:Ed.
  - rewrite (inv_dead s HI Ed) in Ea. discriminate.
  - split; [reflexivity|].
    pose proof (inv_loop s HI) as HL. unfold loopRequests in HL.
    rewrite Ed, Ea in HL.
    assert (Hin : In {| frameId := id; frameCallback := CbAnimate |}
                     (filter isAnimate (frameRequests s)))
      by (rewrite HL; now left).
    now apply filter_In in Hin.
Qed.

Lemma Inv_cancel_loop s id :
  Inv s -> animationId s = Some id ->
  Inv (set_animationId None (cancelAnimationFrame id s)).
Proof.
  intros HI Ea.
  destruct (loop_request_In s id HI Ea) as [Ed Hin].
  destruct HI as [H1 H2 H3 H4 H5 H6 H7].
  unfold loopRequests, pendingUpdates in *. rewrite Ed, Ea in *.
  constructor; unfold loopRequests, pendingUpdates; fields;
    rewrite ?Ed; auto.
  - now apply dropId_NoDup.
  - now apply dropId_Forall.
  - fold (dropId id (frameRequests s)). rewrite dropId_filter, H5.
    unfold dropId. cbn. now rewrite Nat.eqb_refl.
  - fold (dropId id (frameRequests s)). rewrite dropId_filter.
    change id with (frameId {| frameId := id; frameCallback := CbAnimate |}).
    rewrite dropId_other_kind; auto.
Qed.

(** Stopping the loop, whether or not one is running. *)
Lemma Inv_stop_loop s :
  Inv s ->
  Inv match animationId s with
      | Some id => set_animationId None (cancelAnimationFrame id s)
      | None => s
      end.
Proof.
  intro HI. destruct (animationId s) eqn:Ea; [|assumption].
  now apply Inv_cancel_loop.
Qed.

Lemma Inv_kill s :
  Inv s -> animationId s = None ->
  Inv (set_isDestroyed true (set_visibilityHandler false s)).
Proof.
  intros [H1 H2 H3 H4 H5 H6 H7] Ea.
  unfold loopRequests, pendingUpdates in *. rewrite Ea in *.
  constructor; unfold loopRequests, pendingUpdates; fields; auto.
  rewrite H5. now destruct (isDestroyed s).
Qed.

Lemma stop_loop_animationId s :
  animationId match animationId s with
              | Some id => set_animationId None (cancelAnimationFrame id s)
              | None => s
              end = None.
Proof. destruct (animationId s) eqn:E; [reflexivity|exact E]. Qed.

Lemma destroy_view s :
  frameView (destroy s) =
  frameView (set_isDestroyed true
               (set_visibilityHandler false
                  match animationId s with
                  | Some id => set_animationId None (cancelAnimationFrame id s)
                  | None => s
                  end)).
Proof. unfold frameView. handler destroy. Qed.

Lemma Inv_destroy s : Inv s -> Inv (destroy s).
Proof.
  intro HI. eapply Inv_view; [apply destroy_view|].
  apply Inv_kill; [now apply Inv_stop_loop|apply stop_loop_animationId].
Qed.

Lemma updateSizeFrame_view src env s :
  frameView (updateSizeFrame src env s) =
  frameView (set_updateSizePending false s).
Proof. unfold frameView. handler updateSizeFrame. Qed.

Lemma Inv_serve env id r s :
  Inv s ->
  find (fun r => frameId r =? id) (frameRequests s) = Some r ->
  Inv (runFrame env (frameCallback r) (cancelAnimationFrame id s)).
Proof.
  intros HI Hfind. apply find_frame in Hfind as [Hin Eid].
  destruct (frameCallback r) as [|src] eqn:Ecb; cbn [runFrame].
  - (* the loop's own request *)
    assert (HA : In r (filter isAnimate (frameRequests s))).
    { apply filter_In. split; [exact Hin|]. unfold isAnimate. now rewrite Ecb. }
    rewrite (inv_loop s HI) in HA. unfold loopRequests in HA.
    destruct (isDestroyed s) eqn:Ed; [contradiction|].
    destruct (animationId s) as [aid|] eqn:Ea; [|contradiction].
    destruct HA as [<-|[]]. cbn in Eid. subst aid.
    apply Inv_animate.
    + eapply Inv_view; [|exact (Inv_cancel_loop s id HI Ea)]. reflexivity.
    + fields. congruence.
  - (* the pending size update *)
    eapply Inv_view; [apply updateSizeFrame_view|].
    assert (HU : isUpdateSize r = true)
      by (unfold isUpdateSize; now rewrite Ecb).
    assert (HnA : isAnimate r = false)
      by (rewrite kind_exclusive in HU; now destruct (isAnimate r)).
    destruct HI as [H1 H2 H3 H4 H5 H6 H7].
    unfold pendingUpdates in *.
    assert (HrU : In r (filter isUpdateSize (frameRequests s)))
      by (apply filter_In; auto).
    destruct (filter isUpdateSize (frameRequests s)) as [|x [|y l]] eqn:EU;
      [contradiction| |destruct (updateSizePending s); discriminate].
    destruct HrU as [->|[]].
    constructor; unfold loopRequests, pendingUpdates; fields; auto.
    + now apply dropId_NoDup.
    + now apply dropId_Forall.
    + fold (dropId id (frameRequests s)). rewrite dropId_filter, <- Eid.
      rewrite dropId_other_kind; auto.
    + fold (dropId id (frameRequests s)). rewrite dropId_filter, EU.
      unfold dropId. cbn. now rewrite Eid, Nat.eqb_refl.
Qed.

Lemma clearTimeout_view id s : frameView (clearTimeout id s) = frameView s.
Proof. reflexivity. Qed.

Lemma handleResizeEvent_view s : frameView (handleResizeEvent s) = frameView s.
Proof. unfold frameView. handler handleResizeEvent. Qed.

Lemma handleOrientationChange_view s :
  frameView (handleOrientationChange s) = frameView s.
Proof. unfold frameView. handler handleOrientationChange. Qed.

Lemma handleObserved_view s : frameView (handleObserved s) = frameView s.
Proof. unfold frameView. handler handleObserved. Qed.

Lemma Inv_runTimer env cb s : Inv s -> Inv (runTimer env cb s).
Proof.
  intro HI. destruct cb; cbn [runTimer]; try now apply Inv_updateSize.
  destruct (isDestroyed s); [assumption|].
  eapply Inv_view; [|exact HI]. reflexivity.
Qed.

Lemma Inv_visibilityChange env s :
  Inv s -> Inv (handleVisibilityChange env s).
Proof.
  intro HI. unfold handleVisibilityChange.
  set (s1 := set_isPageVisible (negb (document_hidden env)) s).
  assert (HI1 : Inv s1) by (eapply Inv_view; [|exact HI]; reflexivity).
  destruct (isPageVisible s1).
  - destruct (negb (truthy (animationId s1)) && negb (isDestroyed s1)) eqn:E;
      [|assumption].
    apply andb_true_iff in E as [Et Ed].
    apply negb_true_iff in Et. apply negb_true_iff in Ed.
    apply Inv_animate; [|congruence].
    destruct (animationId s1) as [aid|] eqn:Ea.
    + (* a falsy handle would be the request [0], which is never issued *)
      exfalso. destruct (loop_request_In s1 aid HI1 Ea) as [_ Hin].
      pose proof (inv_fresh s1 HI1) as Hf. rewrite Forall_forall in Hf.
      specialize (Hf _ Hin). cbn in Hf, Et.
      apply negb_false_iff, Nat.eqb_eq in Et. lia.
    + eapply Inv_view; [|exact HI1]. unfold frameView.
      subst s1. fields. now rewrite Ea.
  - now apply Inv_stop_loop.
Qed.

Lemma Inv_step env ev s : Inv s -> Inv (step env ev s).
Proof.
  intro HI. destruct ev; cbn [step].
  - destruct (resizeHandler s); [|assumption].
    eapply Inv_view; [apply handleResizeEvent_view|assumption].
  - destruct (orientationHandler s); [|assumption].
    eapply Inv_view; [apply handleOrientationChange_view|assumption].
  - destruct (resizeObserver s) as [[|]|]; try assumption.
    eapply Inv_view; [apply handleObserved_view|assumption].
  - destruct (visibilityHandler s); [|assumption].
    now apply Inv_visibilityChange.
  - destruct (find _ (timers s)); [|assumption].
    apply Inv_runTimer. eapply Inv_view; [apply clearTimeout_view|assumption].
  - destruct (find _ (frameRequests s)) eqn:E; [|assumption].
    now apply Inv_serve.
  - now apply Inv_destroy.
Qed.

Lemma Inv_construct env rnd : Inv (construct env rnd).
Proof.
  unfold construct. apply Inv_animate; [|intros _; handler handleResize].
  constructor; unfold loopRequests, pendingUpdates.
  all: unfold handleVisibility, handleResize, createGalaxy, initial.
  all: branches; auto; try discriminate; constructor.
Qed.

Lemma Reachable_Inv s : Reachable s -> Inv s.
Proof.
  induction 1; [apply Inv_construct|now apply Inv_step].
Qed.

(** *** After [destroy] *)

Lemma destroy_Torn s : Torn (destroy s).
Proof. unfold Torn. repeat split; handler destroy. Qed.

Lemma updateSize_destroyed src s : isDestroyed s = true -> updateSize src s = s.
Proof. intro H. unfold updateSize. now rewrite H. Qed.

Lemma animate_destroyed env s : isDestroyed s = true -> animate env s = s.
Proof. intro H. unfold animate. now rewrite H. Qed.

Lemma runTimer_destroyed env cb s :
  isDestroyed s = true -> runTimer env cb s = s.
Proof.
  intro H. destruct cb; cbn [runTimer];
    rewrite ?updateSize_destroyed by assumption; try reflexivity.
  now rewrite H.
Qed.

Lemma runFrame_destroyed env cb s :
  isDestroyed s = true ->
  runFrame env cb s = match cb with
                      | CbAnimate => s
                      | CbUpdateSize _ => set_updateSizePending false s
                      end.
Proof.
  intro H. destruct cb; cbn [runFrame].
  - now apply animate_destroyed.
  - unfold updateSizeFrame. now rewrite H.
Qed.

Lemma Torn_step env ev s f :
  Torn s -> f RendererDispose = false ->
  Torn (step env ev s) /\ footprint f (step env ev s) = footprint f s.
Proof.
  intros (Hd & Hr & Ho & Hv & Hob & Hg) Hf. unfold Torn, footprint.
  destruct ev; cbn [step]; rewrite ?Hr, ?Ho, ?Hv, ?Hob; auto 10.
  - destruct (find _ (timers s)); [|auto 10].
    rewrite runTimer_destroyed by assumption. auto 10.
  - destruct (find _ (frameRequests s)) as [r|]; [|auto 10].
    rewrite runFrame_destroyed by assumption.
    destruct (frameCallback r); auto 10.
  - unfold destroy. fields. rewrite ?Hr, ?Ho, ?Hv, ?Hob, ?Hg.
    branches; try congruence;
      rewrite ?count_snoc_false by assumption; auto 10.
Qed.

Lemma Torn_run evs f : forall s,
  Torn s -> f RendererDispose = false ->
  Torn (run evs s) /\ footprint f (run evs s) = footprint f s.
Proof.
  induction evs as [|[env ev] evs IH]; intros s HT Hf; [auto|].
  cbn [run]. destruct (Torn_step env ev s f HT Hf) as [HT' E].
  destruct (IH _ HT' Hf) as [HT'' E']. split; congruence.
Qed.

Lemma Event_eq_destroy ev : {ev = EvDestroy} + {ev <> EvDestroy}.
Proof. destruct ev; (now left) || (right; discriminate). Qed.

(** *** The field while the instance lives *)

Lemma references_move t tm ps :
  references t (map (moveParticle tm) ps) = references t ps.
Proof.
  unfold references. induction ps as [|p ps IH]; [reflexivity|].
  cbn [map filter moveParticle sprite material].
  destruct (material_map (material (sprite p))) as [t'|]; [|exact IH].
  destruct (Texture_eqb t t'); cbn [length]; now rewrite IH.
Qed.

Lemma static_move tm p : static (moveParticle tm p) = static p.
Proof. reflexivity. Qed.

Lemma map_static_move tm ps :
  map static (map (moveParticle tm) ps) = map static ps.
Proof. rewrite map_map. apply map_ext. intro p. apply static_move. Qed.

Lemma disposeParticles_count t ps : forall i,
  count (isTextureDispose t) (disposeParticles i ps) = references t ps.
Proof.
  unfold references. induction ps as [|p ps IH]; intro i; [reflexivity|].
  cbn [disposeParticles filter]. rewrite count_app, IH.
  unfold disposeParticle.
  destruct (material_map (material (sprite p))) as [t'|]; [|reflexivity].
  unfold count. cbn. now destruct (Texture_eqb t t').
Qed.

Lemma destroy_disposeCount t s :
  disposeCount t (destroy s) =
  disposeCount t s + match galaxyGroup s with
                     | Some _ => references t (particles s)
                     | None => 0
                     end.
Proof.
  unfold disposeCount, destroy.
  branches; try congruence; rewrite ?count_snoc_false by reflexivity;
    rewrite ?count_app, ?disposeParticles_count; lia.
Qed.

Lemma references_total ps :
  Forall (fun p => material_map (material (sprite p)) <> None) ps ->
  references texture1 ps + references texture0 ps = length ps.
Proof.
  unfold references. induction 1 as [|p ps Hp _ IH]; [reflexivity|].
  cbn [filter length].
  destruct (material_map (material (sprite p))) as [[|]|];
    [| |contradiction]; cbn in *; lia.
Qed.

Lemma genParticles_asGenerated device n rnd :
  Forall asGenerated (genParticles device n rnd).
Proof.
  apply Forall_forall. intros p Hin.
  apply In_nth_error in Hin as [k Hk].
  apply genParticles_nth in Hk as [_ ->]. split.
  - rewrite makeParticle_texture. discriminate.
  - apply makeParticle_orbitalSpeed.
Qed.

Lemma move_asGenerated tm ps :
  Forall asGenerated ps -> Forall asGenerated (map (moveParticle tm) ps).
Proof.
  intro H. apply Forall_forall. intros p Hin.
  apply in_map_iff in Hin as [q [<- Hq]].
  rewrite Forall_forall in H. exact (H q Hq).
Qed.

Lemma asGenerated_textured ps :
  Forall asGenerated ps ->
  Forall (fun p => material_map (material (sprite p)) <> None) ps.
Proof. apply Forall_impl. now intros p [H _]. Qed.

Lemma animate_field env s :
  isDestroyed (animate env s) = isDestroyed s
  /\ (galaxyGroup s <> None -> galaxyGroup (animate env s) <> None)
  /\ (forall t, disposeCount t (animate env s) = disposeCount t s)
  /\ (particles (animate env s) = particles s \/
      exists tm, particles (animate env s) = map (moveParticle tm) (particles s)).
Proof.
  unfold disposeCount, animate.
  branches; repeat split; intros;
    rewrite ?count_snoc_false by reflexivity; try congruence; eauto.
Qed.

Lemma updateSizeFrame_field src env s :
  isDestroyed (updateSizeFrame src env s) = isDestroyed s
  /\ galaxyGroup (updateSizeFrame src env s) = galaxyGroup s
  /\ (forall t, disposeCount t (updateSizeFrame src env s) = disposeCount t s)
  /\ particles (updateSizeFrame src env s) = particles s.
Proof.
  unfold disposeCount, updateSizeFrame.
  branches; repeat split; intros;
    rewrite ?count_snoc_false by reflexivity; try congruence; eauto.
Qed.

Lemma updateSize_field src s t :
  fieldView t (updateSize src s) = fieldView t s.
Proof. unfold fieldView, disposeCount. handler updateSize. Qed.

Lemma runTimer_field env cb s t :
  fieldView t (runTimer env cb s) = fieldView t s.
Proof.
  destruct cb; cbn [runTimer]; try apply updateSize_field.
  unfold fieldView, disposeCount.
  branches; rewrite ?count_snoc_false by reflexivity; congruence.
Qed.

(** Any event but [destroy()] leaves the field in place, moving at most the
    sprites. *)
Lemma step_field env ev s :
  ev <> EvDestroy ->
  isDestroyed (step env ev s) = isDestroyed s
  /\ (galaxyGroup s <> None -> galaxyGroup (step env ev s) <> None)
  /\ (forall t, disposeCount t (step env ev s) = disposeCount t s)
  /\ (particles (step env ev s) = particles s \/
      exists tm, particles (step env ev s) = map (moveParticle tm) (particles s)).
Proof.
  intro Hev.
  assert (Hview : forall s', (forall t, fieldView t s' = fieldView t s) ->
            isDestroyed s' = isDestroyed s
            /\ (galaxyGroup s <> None -> galaxyGroup s' <> None)
            /\ (forall t, disposeCount t s' = disposeCount t s)
            /\ (particles s' = particles s \/
                exists tm, particles s' = map (moveParticle tm) (particles s))).
  { intros s' E. pose proof (E texture1) as E1. unfold fieldView in E1.
    injection E1 as -> Eg Ep _. rewrite Eg, Ep. repeat split; auto.
    intro t. specialize (E t). unfold fieldView in E. congruence. }
  destruct ev; cbn [step]; try contradiction.
  - destruct (resizeHandler s); apply Hview; intro t;
      [unfold fieldView, disposeCount; handler handleResizeEvent|reflexivity].
  - destruct (orientationHandler s); apply Hview; intro t;
      [unfold fieldView, disposeCount; handler handleOrientationChange
      |reflexivity].
  - destruct (resizeObserver s) as [[|]|]; apply Hview; intro t;
      try reflexivity.
    unfold fieldView, disposeCount. handler handleObserved.
  - destruct (visibilityHandler s); [|now apply Hview].
    unfold handleVisibilityChange.
    set (s1 := set_isPageVisible (negb (document_hidden env)) s).
    destruct (isPageVisible s1).
    + destruct (negb (truthy (animationId s1)) && negb (isDestroyed s1));
        [apply (animate_field env s1)|now apply Hview].
    + destruct (animationId s1); now apply Hview.
  - destruct (find _ (timers s)) as [tmr|]; [|now apply Hview].
    apply Hview. intro t. now rewrite runTimer_field.
  - destruct (find _ (frameRequests s)) as [r|]; [|now apply Hview].
    destruct (frameCallback r) as [|src]; cbn [runFrame].
    + apply (animate_field env (cancelAnimationFrame id s)).
    + pose proof (updateSizeFrame_field src env (cancelAnimationFrame id s))
        as (E1 & E2 & E3 & E4).
      fields. repeat split; auto. congruence.
Qed.

Lemma destroyed_step env ev s :
  isDestroyed s = true -> isDestroyed (step env ev s) = true.
Proof.
  intro H. destruct (Event_eq_destroy ev) as [->|Hev].
  - apply destroy_Torn.
  - now rewrite (proj1 (step_field env ev s Hev)).
Qed.

Lemma Owning_construct env rnd :
  Owning (construct env rnd) /\ Generated (construct env rnd).
Proof.
  unfold construct.
  match goal with |- Owning (animate env ?s0) /\ _ => set (s := s0) end.
  pose proof (animate_field env s) as (E1 & E2 & E3 & E4).
  assert (Hg : galaxyGroup s <> None).
  { subst s. unfold handleVisibility, handleResize, createGalaxy.
    branches; discriminate. }
  assert (Hp : particles s =
               genParticles (deviceType env)
                 (optimizedParticleCount (deviceType env)) rnd)
    by (subst s; handler handleResize).
  assert (Hl : forall t, disposeCount t s = 0).
  { intro t. subst s. unfold disposeCount, handleVisibility, handleResize,
      createGalaxy. branches; reflexivity. }
  split.
  - intros _. split; [auto|]. intro t. now rewrite E3.
  - unfold Generated.
    destruct E4 as [->|[tm ->]]; rewrite Hp;
      [|apply move_asGenerated]; apply genParticles_asGenerated.
Qed.

Lemma destroy_particles s :
  particles (destroy s) =
  match galaxyGroup s with Some _ => [] | None => particles s end.
Proof. handler destroy. Qed.

Lemma Owning_step env ev s :
  Owning s /\ Generated s -> Owning (step env ev s) /\ Generated (step env ev s).
Proof.
  intros [HO HT].
  destruct (Event_eq_destroy ev) as [->|Hev].
  - split.
    + intro H. pose proof (destroy_Torn s) as [Hd _]. cbn [step] in H.
      congruence.
    + unfold Generated. cbn [step].
      rewrite destroy_particles.
      destruct (galaxyGroup s); [constructor|exact HT].
  - destruct (step_field env ev s Hev) as (E1 & E2 & E3 & E4). split.
    + intro H. rewrite E1 in H. destruct (HO H) as [Hg Hc].
      split; [auto|]. intro t. now rewrite E3.
    + unfold Generated in *.
      destruct E4 as [->|[tm ->]]; [assumption|now apply move_asGenerated].
Qed.

Lemma Reachable_Owning s : Reachable s -> Owning s /\ Generated s.
Proof.
  induction 1; [apply Owning_construct|now apply Owning_step].
Qed.

(** *** A paused loop *)

Lemma activeLoops_le_1 s : Inv s -> activeLoops s <= 1.
Proof.
  intro HI. unfold activeLoops. rewrite (inv_loop s HI). unfold loopRequests.
  destruct (isDestroyed s); [cbn; lia|].
  destruct (animationId s); cbn; lia.
Qed.

Lemma Paused_no_loop s : Inv s -> Paused s -> activeLoops s = 0.
Proof.
  intros HI HP. unfold activeLoops. rewrite (inv_loop s HI).
  unfold loopRequests. destruct HP as [->|[_ ->]]; [reflexivity|].
  now destruct (isDestroyed s).
Qed.

Lemma running_loop s :
  Inv s -> isDestroyed s = false ->
  activeLoops s = match animationId s with Some _ => 1 | None => 0 end.
Proof.
  intros HI Hd. unfold activeLoops. rewrite (inv_loop s HI).
  unfold loopRequests. rewrite Hd. now destruct (animationId s).
Qed.

Lemma Paused_view s s' :
  pausedView s' = pausedView s -> Paused s ->
  Paused s' /\ frameRenderCount s' = frameRenderCount s
  /\ renderCount s' = renderCount s.
Proof.
  unfold pausedView, Paused. intros E HP.
  injection E as -> -> -> -> ->. auto.
Qed.

Lemma hidden_event env s :
  Inv s -> document_hidden env = true ->
  Paused (step env EvVisibilityChange s)
  /\ log (step env EvVisibilityChange s) = log s.
Proof.
  intros HI Hh. cbn [step]. unfold Paused.
  destruct (visibilityHandler s) eqn:Ev.
  - unfold handleVisibilityChange. rewrite Hh. cbn [negb]. branches; auto.
  - pose proof (inv_visibility s HI) as E. rewrite Ev in E.
    destruct (isDestroyed s); [auto|discriminate].
Qed.

Lemma runTimer_paused env cb s : pausedView (runTimer env cb s) = pausedView s.
Proof.
  unfold pausedView, frameRenderCount, renderCount.
  destruct cb; cbn [runTimer]; try (handler updateSize).
  branches; rewrite ?count_snoc_false by reflexivity; congruence.
Qed.

Lemma updateSizeFrame_paused src env s :
  isDestroyed (updateSizeFrame src env s) = isDestroyed s
  /\ isPageVisible (updateSizeFrame src env s) = isPageVisible s
  /\ animationId (updateSizeFrame src env s) = animationId s
  /\ frameRenderCount (updateSizeFrame src env s) = frameRenderCount s.
Proof.
  unfold frameRenderCount, updateSizeFrame.
  branches; rewrite ?count_snoc_false by reflexivity; auto.
Qed.

Lemma disposeParticles_quiet f ps :
  (forall t, f (TextureDispose t) = false) ->
  (forall i, f (MaterialDispose i) = false) ->
  forall i, count f (disposeParticles i ps) = 0.
Proof.
  intros Ht Hm. induction ps as [|p ps IH]; intro i; [reflexivity|].
  cbn [disposeParticles]. rewrite count_app, IH. unfold disposeParticle.
  destruct (material_map (material (sprite p))); unfold count; cbn;
    rewrite ?Ht, ?Hm; reflexivity.
Qed.

Lemma destroy_quiet f s :
  (forall t, f (TextureDispose t) = false) ->
  (forall i, f (MaterialDispose i) = false) ->
  f SceneRemove = false -> f RendererDispose = false ->
  count f (log (destroy s)) = count f (log s).
Proof.
  intros Ht Hm Hs Hr. unfold destroy.
  branches; try congruence; rewrite ?count_snoc_false by assumption;
    rewrite ?count_app, ?disposeParticles_quiet by assumption; lia.
Qed.

Lemma Paused_step env ev s :
  Inv s -> Paused s ->
  (ev = EvVisibilityChange -> document_hidden env = true) ->
  Paused (step env ev s)
  /\ frameRenderCount (step env ev s) = frameRenderCount s
  /\ (servesUpdate s ev = false ->
      renderCount (step env ev s) = renderCount s).
Proof.
  intros HI HP Hvis.
  assert (Hview : forall s', pausedView s' = pausedView s ->
            Paused s' /\ frameRenderCount s' = frameRenderCount s
            /\ (servesUpdate s ev = false -> renderCount s' = renderCount s)).
  { intros s' E. destruct (Paused_view s s' E HP) as (? & ? & ?). auto. }
  destruct ev; cbn [step].
  - destruct (resizeHandler s); apply Hview; [|reflexivity].
    unfold pausedView, frameRenderCount, renderCount.
    handler handleResizeEvent.
  - destruct (orientationHandler s); apply Hview; [|reflexivity].
    unfold pausedView, frameRenderCount, renderCount.
    handler handleOrientationChange.
  - destruct (resizeObserver s) as [[|]|]; apply Hview; try reflexivity.
    unfold pausedView, frameRenderCount, renderCount.
    handler handleObserved.
  - destruct (hidden_event env s HI (Hvis eq_refl)) as [HP' El].
    cbn [step] in HP', El. unfold frameRenderCount, renderCount.
    rewrite El. auto.
  - destruct (find _ (timers s)); apply Hview; [|reflexivity].
    now rewrite runTimer_paused.
  - destruct (find _ (frameRequests s)) as [r|] eqn:Ef;
      [|apply Hview; reflexivity].
    pose proof Ef as Ef'. apply find_frame in Ef as [Hin _].
    destruct (frameCallback r) as [|src] eqn:Ecb; cbn [runFrame].
    + exfalso. pose proof (Paused_no_loop s HI HP) as H0.
      unfold activeLoops in H0.
      assert (HA : In r (filter isAnimate (frameRequests s))).
      { apply filter_In. split; [exact Hin|]. unfold isAnimate.
        now rewrite Ecb. }
      destruct (filter isAnimate (frameRequests s)); [contradiction|].
      discriminate.
    + pose proof (updateSizeFrame_paused src env (cancelAnimationFrame id s))
        as (E1 & E2 & E3 & E4).
      unfold Paused. rewrite E1, E2, E3, E4.
      split; [exact HP|]. split; [reflexivity|].
      cbn [servesUpdate]. rewrite Ef'. unfold isUpdateSize. rewrite Ecb.
      discriminate.
  - split; [left; apply destroy_Torn|].
    unfold frameRenderCount, renderCount.
    rewrite !destroy_quiet by reflexivity. auto.
Qed.

Lemma Paused_run evs : forall s,
  Inv s -> Paused s -> staysHidden evs ->
  Paused (run evs s)
  /\ frameRenderCount (run evs s) = frameRenderCount s
  /\ (noUpdateServed evs s -> renderCount (run evs s) = renderCount s).
Proof.
  induction evs as [|[env ev] evs IH]; intros s HI HP Hh; [auto|].
  cbn [run noUpdateServed].
  assert (Hev : ev = EvVisibilityChange -> document_hidden env = true).
  { intros ->. apply Hh. now left. }
  destruct (Paused_step env ev s HI HP Hev) as (HP' & Ef & Er).
  assert (Hh' : staysHidden evs).
  { intros e He. apply Hh. now right. }
  destruct (IH _ (Inv_step env ev s HI) HP' Hh') as (HP'' & Ef' & Er').
  split; [exact HP''|]. split; [congruence|].
  intros [Hn Hn']. rewrite Er', Er; auto.
Qed.

Lemma animate_running env s :
  isDestroyed s = false -> isPageVisible s = true ->
  animationId (animate env s) = Some (nextFrameId s).
Proof. intros Hd Hv. unfold animate. rewrite Hd, Hv. branches; reflexivity. Qed.

Lemma visible_event env s :
  Inv s -> document_hidden env = false ->
  let s' := step env EvVisibilityChange s in
  (isDestroyed s = true -> s' = s)
  /\ (activeLoops s = 1 ->
      frameRequests s' = frameRequests s /\ log s' = log s)
  /\ (isDestroyed s = false -> activeLoops s = 0 -> activeLoops s' = 1).
Proof.
  intros HI Hh s'. subst s'. cbn [step].
  pose proof (inv_visibility s HI) as Ev. split; [|split].
  - intro Hd. now rewrite Ev, Hd.
  - intro H1. destruct (isDestroyed s) eqn:Hd.
    + rewrite Ev. auto.
    + rewrite (running_loop s HI Hd) in H1.
      destruct (animationId s) as [aid|] eqn:Ea; [|discriminate].
      destruct (loop_request_In s aid HI Ea) as [_ Hin].
      pose proof (inv_fresh s HI) as Hf. rewrite Forall_forall in Hf.
      specialize (Hf _ Hin). cbn in Hf.
      rewrite Ev. cbn [negb]. unfold handleVisibilityChange.
      rewrite Hh. fields. rewrite Ea. cbn [truthy].
      destruct (Nat.eqb_spec aid 0) as [->|_]; [lia|]. auto.
  - intros Hd H0.
    pose proof (Inv_step env EvVisibilityChange s HI) as HI'.
    cbn [step] in HI'. rewrite Ev, Hd in *. cbn [negb] in *.
    rewrite (running_loop s HI Hd) in H0.
    destruct (animationId s) eqn:Ea; [discriminate|].
    unfold handleVisibilityChange in *. rewrite Hh in *. fields.
    rewrite Ea, Hd in *. cbn [truthy negb andb] in *.
    rewrite running_loop;
      [|assumption|now rewrite (proj1 (animate_field env _))].
    now rewrite animate_running.
Qed.

(** *** The pending size update *)

Lemma updateSize_pending src s :
  isDestroyed s = false -> updateSizePending (updateSize src s) = true.
Proof.
  intro Hd. unfold updateSize. rewrite Hd. cbn [orb].
  destruct (updateSizePending s) eqn:Ep; [exact Ep|reflexivity].
Qed.

Lemma updateSize_coalesced src s :
  updateSizePending s = true -> updateSize src s = s.
Proof. intro Hp. unfold updateSize. now rewrite Hp, orb_true_r. Qed.

Lemma runTimer_keeps_pending env cb s :
  updateSizePending s = true -> updateSizePending (runTimer env cb s) = true.
Proof.
  intro Hp. destruct cb; cbn [runTimer];
    rewrite ?updateSize_coalesced by assumption; try assumption.
  now destruct (isDestroyed s).
Qed.

Lemma animate_pending env s :
  updateSizePending (animate env s) = updateSizePending s.
Proof. handler animate. Qed.

Lemma handleVisibilityChange_pending env s :
  updateSizePending (handleVisibilityChange env s) = updateSizePending s.
Proof.
  unfold handleVisibilityChange.
  set (s1 := set_isPageVisible (negb (document_hidden env)) s).
  change (updateSizePending s) with (updateSizePending s1).
  destruct (isPageVisible s1).
  - destruct (negb (truthy (animationId s1)) && negb (isDestroyed s1));
      [apply animate_pending|reflexivity].
  - now destruct (animationId s1).
Qed.

Lemma destroy_pending s : updateSizePending (destroy s) = updateSizePending s.
Proof. handler destroy. Qed.

Lemma pending_step env ev s :
  updateSizePending s = true -> servesUpdate s ev = false ->
  updateSizePending (step env ev s) = true.
Proof.
  intros Hp Hs. destruct ev; cbn [step servesUpdate] in *.
  - destruct (resizeHandler s); [|exact Hp]. rewrite <- Hp.
    handler handleResizeEvent.
  - destruct (orientationHandler s); [|exact Hp]. rewrite <- Hp.
    handler handleOrientationChange.
  - destruct (resizeObserver s) as [[|]|]; try exact Hp. rewrite <- Hp.
    handler handleObserved.
  - destruct (visibilityHandler s); [|exact Hp].
    now rewrite handleVisibilityChange_pending.
  - destruct (find _ (timers s)); [|exact Hp].
    now apply runTimer_keeps_pending.
  - destruct (find _ (frameRequests s)) as [r|]; [|exact Hp].
    unfold isUpdateSize in Hs.
    destruct (frameCallback r); [|discriminate]. cbn [runFrame].
    now rewrite animate_pending.
  - now rewrite destroy_pending.
Qed.

Lemma pending_run evs : forall s,
  updateSizePending s = true -> noUpdateServed evs s ->
  updateSizePending (run evs s) = true.
Proof.
  induction evs as [|[env ev] evs IH]; intros s Hp Hn; [exact Hp|].
  cbn [run noUpdateServed] in *. destruct Hn as [Hs Hn].
  apply IH; [now apply pending_step|exact Hn].
Qed.

Lemma Inv_run evs : forall s, Inv s -> Inv (run evs s).
Proof.
  induction evs as [|[env ev] evs IH]; intros s HI; [exact HI|].
  cbn [run]. apply IH. now apply Inv_step.
Qed.

Lemma trigger_pending env id tmr s :
  isDestroyed s = false ->
  find (fun t => timerId t =? id) (timers s) = Some tmr ->
  timerCallback tmr <> TmPixelRatio ->
  updateSizePending (step env (EvTimer id) s) = true.
Proof.
  intros Hd Hf Hcb. cbn [step]. rewrite Hf.
  destruct (timerCallback tmr); cbn [runTimer];
    try (now apply updateSize_pending); contradiction.
Qed.

Lemma updateSizeFrame_settles src env s :
  updateSizePending (updateSizeFrame src env s) = false
  /\ count isSetSize (log (updateSizeFrame src env s))
     <= count isSetSize (log s) + 1.
Proof.
  unfold updateSizeFrame.
  branches; (split; [reflexivity|]);
    rewrite ?count_snoc; cbn [isSetSize]; lia.
Qed.

(** *** Repeating a size update *)

Lemma Size_eqb_eq a b : Size_eqb a b = true <-> a = b.
Proof.
  unfold Size_eqb. rewrite andb_true_iff, !Z.eqb_eq.
  destruct a, b; cbn. split; [intros [-> ->]; reflexivity|].
  intro E. now injection E.
Qed.

Lemma updateSizeFrame_abort src env s :
  aborts env s -> updateSizeFrame src env s = set_updateSizePending false s.
Proof.
  intros [Hd|[Hz|Hl]]; unfold updateSizeFrame.
  - now rewrite Hd.
  - destruct (isDestroyed s); [reflexivity|].
    replace ((width (getCanvasSize env) =? 0)
             || (height (getCanvasSize env) =? 0))%Z with true; [reflexivity|].
    symmetry. apply orb_true_iff. rewrite !Z.eqb_eq. exact Hz.
  - destruct (isDestroyed s); [reflexivity|].
    destruct ((width (getCanvasSize env) =? 0)
              || (height (getCanvasSize env) =? 0))%Z; [reflexivity|].
    rewrite Hl. now rewrite (proj2 (Size_eqb_eq _ _) eq_refl).
Qed.

Lemma updateSizeFrame_then_aborts src env s :
  aborts env (updateSizeFrame src env s).
Proof.
  unfold aborts, updateSizeFrame.
  destruct (isDestroyed s) eqn:Hd; [left; exact Hd|].
  destruct ((width (getCanvasSize env) =? 0)
            || (height (getCanvasSize env) =? 0))%Z eqn:Hz.
  { right; left. apply orb_true_iff in Hz. now rewrite !Z.eqb_eq in Hz. }
  right; right.
  destruct (lastSize s) as [l|] eqn:Hl.
  - destruct (Size_eqb l (getCanvasSize env)) eqn:E.
    + apply Size_eqb_eq in E. fields. congruence.
    + branches; reflexivity.
  - branches; reflexivity.
Qed.

Lemma aborts_view env env' s s' :
  getCanvasSize env' = getCanvasSize env ->
  isDestroyed s' = isDestroyed s -> lastSize s' = lastSize s ->
  aborts env s -> aborts env' s'.
Proof. unfold aborts. intros -> -> ->. auto. Qed.

Lemma find_fresh (l : list FrameRequest) n cb :
  Forall (fun r => 1 <= frameId r < n) l ->
  find (fun r => frameId r =? n) (l ++ [{| frameId := n; frameCallback := cb |}])
  = Some {| frameId := n; frameCallback := cb |}.
Proof.
  induction 1 as [|r l Hr _ IH]; cbn.
  - now rewrite Nat.eqb_refl.
  - destruct (Nat.eqb_spec (frameId r) n); [lia|exact IH].
Qed.

Lemma updateSize_isDestroyed src s :
  isDestroyed (updateSize src s) = isDestroyed s.
Proof. handler updateSize. Qed.

Lemma updateSize_lastSize src s : lastSize (updateSize src s) = lastSize s.
Proof. handler updateSize. Qed.

(** On an idle live instance the path is: request, serve, run. *)
Lemma sizeUpdatePath_eq src env s :
  Inv s -> isDestroyed s = false -> updateSizePending s = false ->
  sizeUpdatePath src env s =
  updateSizeFrame src env
    (cancelAnimationFrame (nextFrameId s) (updateSize src s)).
Proof.
  intros HI Hd Hp. unfold sizeUpdatePath. cbn [step].
  replace (frameRequests (updateSize src s)) with
    (frameRequests s ++
       [{| frameId := nextFrameId s; frameCallback := CbUpdateSize src |}])
    by (unfold updateSize; rewrite Hd, Hp; reflexivity).
  rewrite (find_fresh _ _ _ (inv_fresh s HI)). reflexivity.
Qed.

(** *** The frame update *)

Lemma animate_active env s g :
  isDestroyed s = false -> isPageVisible s = true -> galaxyGroup s = Some g ->
  time (animate env s) = (time s + 0.005)%R
  /\ particles (animate env s) =
     map (moveParticle (time s + 0.005)%R) (particles s)
  /\ count isRender (log (animate env s)) = count isRender (log s) + 1.
Proof.
  intros Hd Hv Hg. unfold animate. rewrite Hd, Hv. fields. rewrite Hg, Hv.
  branches; rewrite ?count_snoc; auto.
Qed.

Lemma animate_static env s :
  map static (particles (animate env s)) = map static (particles s).
Proof.
  destruct (animate_field env s) as (_ & _ & _ & [->|[tm ->]]);
    [reflexivity|apply map_static_move].
Qed.

(** *** Counting size updates along a run *)

Lemma animate_quiet f env s :
  f (Render FrameRender) = false ->
  count f (log (animate env s)) = count f (log s).
Proof.
  intro Hf. unfold animate.
  branches; rewrite ?count_snoc_false by assumption; reflexivity.
Qed.

Lemma runTimer_quiet f env cb s :
  (forall r, f (SetPixelRatio r) = false) ->
  count f (log (runTimer env cb s)) = count f (log s).
Proof.
  intro Hf. destruct cb; cbn [runTimer]; try (handler updateSize).
  branches; rewrite ?count_snoc_false by apply Hf; reflexivity.
Qed.

Lemma handleVisibilityChange_quiet f env s :
  f (Render FrameRender) = false ->
  count f (log (handleVisibilityChange env s)) = count f (log s).
Proof.
  intro Hf. unfold handleVisibilityChange.
  set (s1 := set_isPageVisible (negb (document_hidden env)) s).
  change (log s) with (log s1).
  destruct (isPageVisible s1).
  - destruct (negb (truthy (animationId s1)) && negb (isDestroyed s1));
      [now apply animate_quiet|reflexivity].
  - destruct (animationId s1); reflexivity.
Qed.

Lemma updateSizeFrame_renders src env s :
  renderCount (updateSizeFrame src env s) <= renderCount s + 1.
Proof.
  unfold renderCount, updateSizeFrame.
  branches; rewrite ?count_snoc; cbn [isRender]; lia.
Qed.

(** An event that serves a size update runs the callback of [updateSize]
    on a request of the table. *)
Lemma served_step env ev s :
  servesUpdate s ev = true ->
  exists id src r,
    ev = EvFrame id /\ In r (frameRequests s) /\ isUpdateSize r = true
    /\ step env ev s = updateSizeFrame src env (cancelAnimationFrame id s).
Proof.
  destruct ev; cbn [servesUpdate]; try discriminate.
  destruct (find _ (frameRequests s)) as [r|] eqn:Ef; [|discriminate].
  intro Hu. pose proof Ef as Ef'. apply find_frame in Ef' as [Hin _].
  pose proof Hu as Hu'. unfold isUpdateSize in Hu'.
  destruct (frameCallback r) as [|src] eqn:Ecb; [discriminate|].
  exists id, src, r. cbn [step]. rewrite Ef, Ecb. auto.
Qed.

(** Whatever the log counts, an event that serves no size update adds to
    it only frame renders, pixel ratios and disposals. *)
Lemma step_quiet f env ev s :
  f (Render FrameRender) = false ->
  (forall r, f (SetPixelRatio r) = false) ->
  (forall t, f (TextureDispose t) = false) ->
  (forall i, f (MaterialDispose i) = false) ->
  f SceneRemove = false -> f RendererDispose = false ->
  servesUpdate s ev = false ->
  count f (log (step env ev s)) = count f (log s).
Proof.
  intros Hr Hp Ht Hm Hs Hd Hn. destruct ev; cbn [step servesUpdate] in *.
  - handler handleResizeEvent.
  - handler handleOrientationChange.
  - destruct (resizeObserver s) as [[|]|]; try reflexivity.
    handler handleObserved.
  - destruct (visibilityHandler s); [|reflexivity].
    now apply handleVisibilityChange_quiet.
  - destruct (find _ (timers s)); [|reflexivity].
    now rewrite runTimer_quiet.
  - destruct (find _ (frameRequests s)) as [r|]; [|reflexivity].
    unfold isUpdateSize in Hn.
    destruct (frameCallback r); [|discriminate]. cbn [runFrame].
    now rewrite animate_quiet.
  - now apply destroy_quiet.
Qed.

Lemma step_setSize env ev s :
  count isSetSize (log (step env ev s))
  <= count isSetSize (log s) + (if servesUpdate s ev then 1 else 0).
Proof.
  destruct (servesUpdate s ev) eqn:E.
  - destruct (served_step env ev s E) as (id & src & r & _ & _ & _ & ->).
    apply (updateSizeFrame_settles src env (cancelAnimationFrame id s)).
  - rewrite step_quiet by auto. lia.
Qed.

(** An event that neither fires a debounce timer nor serves a size update
    leaves the pending flag as it is. *)
Lemma step_flag env ev s :
  firesDebounce s ev = false -> servesUpdate s ev = false ->
  updateSizePending (step env ev s) = updateSizePending s.
Proof.
  intros Hf Hs. destruct ev; cbn [step servesUpdate firesDebounce] in *.
  - handler handleResizeEvent.
  - handler handleOrientationChange.
  - destruct (resizeObserver s) as [[|]|]; try reflexivity.
    handler handleObserved.
  - destruct (visibilityHandler s); [|reflexivity].
    apply handleVisibilityChange_pending.
  - destruct (find _ (timers s)) as [t|]; [|reflexivity].
    destruct (timerCallback t); try discriminate. cbn [runTimer].
    branches; reflexivity.
  - destruct (find _ (frameRequests s)) as [r|]; [|reflexivity].
    unfold isUpdateSize in Hs.
    destruct (frameCallback r); [|discriminate]. cbn [runFrame].
    now rewrite animate_pending.
  - apply destroy_pending.
Qed.

(** A size update is served only if it was pending, and one becomes
    pending only when a debounce timer fires. *)
Lemma step_budget env ev s :
  Inv s ->
  pendingUpdates (step env ev s) + (if servesUpdate s ev then 1 else 0)
  <= pendingUpdates s + (if firesDebounce s ev then 1 else 0).
Proof.
  intro HI. pose proof (Inv_step env ev s HI) as HI'.
  rewrite (inv_pending _ HI').
  destruct (servesUpdate s ev) eqn:Es.
  - destruct (served_step env ev s Es) as (id & src & r & _ & Hin & Hu & E).
    rewrite E, (proj1 (updateSizeFrame_settles src env _)).
    assert (Hr : In r (filter isUpdateSize (frameRequests s)))
      by (apply filter_In; auto).
    unfold pendingUpdates.
    destruct (filter isUpdateSize (frameRequests s)); [contradiction|].
    cbn [length]. lia.
  - destruct (firesDebounce s ev) eqn:Ef.
    + destruct (updateSizePending (step env ev s)); lia.
    + rewrite (step_flag env ev s Ef Es), (inv_pending _ HI). lia.
Qed.

Lemma run_budget evs : forall s,
  Inv s ->
  updatesServed evs s + pendingUpdates (run evs s)
  <= debouncesFired evs s + pendingUpdates s
  /\ count isSetSize (log (run evs s))
     <= count isSetSize (log s) + updatesServed evs s.
Proof.
  unfold updatesServed, debouncesFired.
  induction evs as [|[env ev] evs IH]; intros s HI; cbn [run occurrences];
    [lia|].
  destruct (IH _ (Inv_step env ev s HI)) as [H1 H2].
  pose proof (step_budget env ev s HI) as H3.
  pose proof (step_setSize env ev s) as H4. lia.
Qed.

(** While the loop is stopped, only served size updates render. *)
Lemma Paused_run_renders evs : forall s,
  Inv s -> Paused s -> staysHidden evs ->
  renderCount (run evs s) <= renderCount s + updatesServed evs s.
Proof.
  unfold updatesServed.
  induction evs as [|[env ev] evs IH]; intros s HI HP Hh;
    cbn [run occurrences]; [lia|].
  assert (Hev : ev = EvVisibilityChange -> document_hidden env = true).
  { intros ->. apply Hh. now left. }
  destruct (Paused_step env ev s HI HP Hev) as (HP' & _ & Er).
  assert (Hh' : staysHidden evs).
  { intros e He. apply Hh. now right. }
  specialize (IH _ (Inv_step env ev s HI) HP' Hh').
  destruct (servesUpdate s ev) eqn:Es.
  - destruct (served_step env ev s Es) as (id & src & r & _ & _ & _ & E).
    pose proof (updateSizeFrame_renders src env (cancelAnimationFrame id s))
      as Hr.
    rewrite <- E in Hr.
    change (renderCount (cancelAnimationFrame id s)) with (renderCount s) in Hr.
    lia.
  - rewrite Er in IH by reflexivity. lia.
Qed.

End SystemFacts.

(** * The specification, property by property *)

Section CanvasSize.




(** A parent box of 0.4 by 100 passes the positivity test and rounds to a
    zero width: the zero comes from an element, not from the fallback. *)
Example getCanvasSize_subpixel_parent :
  width (getCanvasSize
           {| document_hidden := false;
              innerWidth := 1280; innerHeight := 720;
              isMobileUA := false;
              devicePixelRatio := 1;
              parentElement := Some {| rect_width := 4 # 10; rect_height := 100 |};
              canvasRect := {| rect_width := 4 # 10; rect_height := 100 |};
              clientWidth := 0; clientHeight := 100;
              hasResizeObserver := true;
              dateNow := 0 |}) = 0%Z.
Proof. reflexivity. Qed.

End CanvasSize.

Section ParticleClaims.

Local Open Scope R_scope.

(** C5. Every generated particle has [radius = u^p * RADIUS] for its own
    uniform draw [u], with [p = 3] on the mobile tier and [2.5] otherwise
    (the cube, respectively the square root of the fifth power, of [u]);
    hence the radius lies in [[0, RADIUS)] and [RADIUS = 20]. *)
Theorem orbitalRadius_density (device : DeviceType) (n : nat) (rnd : nat -> R)
        (i : nat) (p : ParticleData) :
  (forall k, 0 <= rnd k < 1) ->
  nth_error (genParticles device n rnd) i = Some p ->
  let u := radiusSample rnd i in
  radius p = Math_pow u (densityPower device) * RADIUS
  /\ densityPower device = (if DeviceType_eqb device mobile then 3 else 2.5)
  /\ (device = mobile -> radius p = (u * u * u) * 20)
  /\ (device <> mobile -> radius p = sqrt (u * u * u * u * u) * 20)
  /\ 0 <= radius p < RADIUS.
Proof.
  intros Hrnd Hnth u.
  apply genParticles_nth in Hnth as [Hi ->].
  rewrite makeParticle_radius.
  replace (rnd (S (9 * i))) with u
    by (unfold u, radiusSample; f_equal; lia).
  assert (Hu : 0 <= u < 1) by apply Hrnd.
  assert (Hp : 0 < densityPower device) by (destruct device; cbn; lra).
  pose proof (Math_pow_unit _ _ Hu Hp) as Hpow.
  repeat split.
  - destruct device; reflexivity.
  - intros ->. cbn [densityPower]. rewrite Math_pow_cube by lra.
    reflexivity.
  - intro Hd. replace (densityPower device) with 2.5
      by (destruct device; [contradiction|reflexivity|reflexivity]).
    rewrite Math_pow_five_halves by lra. reflexivity.
  - unfold RADIUS. nra.
  - unfold RADIUS. nra.
Qed.

Lemma orbitalRadius_density_witness :
  exists p, nth_error (genParticles mobile 1 rnd_half) 0 = Some p /\
            0 <= radius p < RADIUS.
Proof.
  eexists. split.
  - unfold genParticles. rewrite genLoop_nth by lia. reflexivity.
  - eapply (orbitalRadius_density mobile 1 rnd_half 0).
    + intro k. unfold rnd_half. lra.
    + unfold genParticles. rewrite genLoop_nth by lia. reflexivity.
Defined.

(** C6. Particle [i] gets [branchAngle = ((i mod 4) / 4) * 2 PI], and for
    every count [n] each of the four arms holds the floor or the ceiling of
    [n / 4] particles. *)
Theorem branch_balance (device : DeviceType) (n : nat) (rnd : nat -> R) :
  let ps := genParticles device n rnd in
  length ps = n
  /\ (forall i p, nth_error ps i = Some p ->
        branchAngle p = (INR (i mod 4) / 4) * (2 * PI))
  /\ (forall a, (a < 4)%nat ->
        armCount a ps = (n / 4 + (if (a <? n mod 4)%nat then 1 else 0))%nat
        /\ (armCount a ps = (n / 4)%nat \/ armCount a ps = ((n + 3) / 4)%nat)).
Proof.
  intro ps. split; [apply genParticles_length|]. split.
  - intros i p Hnth. apply genParticles_nth in Hnth as [_ ->].
    rewrite makeParticle_branchAngle. unfold armAngle, BRANCHES.
    simpl INR. lra.
  - intros a Ha.
    assert (E : armCount a ps =
                (n / 4 + (if (a <? n mod 4)%nat then 1 else 0))%nat).
    { unfold ps, genParticles. rewrite armCount_genLoop.
      now apply count_residue. }
    split; [exact E|]. rewrite E.
    pose proof (Nat.div_mod_eq n 4) as E1.
    pose proof (Nat.mod_upper_bound n 4 ltac:(lia)) as B1.
    pose proof (Nat.div_mod_eq (n + 3) 4) as E2.
    pose proof (Nat.mod_upper_bound (n + 3) 4 ltac:(lia)) as B2.
    destruct (Nat.ltb_spec a (n mod 4)); lia.
Qed.

Lemma branch_balance_witness :
  armCount 1 (genParticles desktop 10 rnd_half) = 3%nat.
Proof.
  apply (proj1 (proj2 (proj2 (branch_balance desktop 10 rnd_half)) 1%nat
                  ltac:(lia))).
Defined.

End ParticleClaims.

Section SystemClaims.

Local Open Scope nat_scope.

Lemma sys_desktop_live : isDestroyed sys_desktop = false.
Proof. reflexivity. Qed.

Lemma sys_desktop_Reachable : Reachable sys_desktop.
Proof. exact (Reachable_construct env_desktop rnd_harmonic). Qed.

Lemma sys_desktop_particles :
  length (particles sys_desktop) = Z.to_nat 8000.
Proof.
  unfold sys_desktop, construct.
  match goal with |- length (particles (animate _ ?s0)) = _ => set (s := s0) end.
  assert (Hp : particles s = genParticles desktop (Z.to_nat 8000) rnd_harmonic)
    by reflexivity.
  destruct (animate_field env_desktop s) as (_ & _ & _ & [->|[tm ->]]);
    rewrite ?length_map, Hp; apply genParticles_length.
Qed.

(** C1, as stated, fails: on the desktop page the two textures receive
    8000 dispose calls between them, so they cannot each receive one. *)
Lemma texture_dispose_not_once :
  disposeCount texture1 (destroy sys_desktop)
  + disposeCount texture0 (destroy sys_desktop) = Z.to_nat 8000
  /\ ~ (disposeCount texture1 (destroy sys_desktop) = 1 /\
        disposeCount texture0 (destroy sys_desktop) = 1).
Proof.
  pose proof sys_desktop_Reachable as HR.
  destruct (Reachable_Owning _ HR) as [HO HG].
  destruct (HO sys_desktop_live) as [Hg Hz].
  assert (E : forall t, disposeCount t (destroy sys_desktop) =
                        references t (particles sys_desktop)).
  { intro t. rewrite destroy_disposeCount, Hz.
    destruct (galaxyGroup sys_desktop); [reflexivity|contradiction]. }
  assert (Hsum : disposeCount texture1 (destroy sys_desktop)
                 + disposeCount texture0 (destroy sys_desktop) = Z.to_nat 8000).
  { rewrite !E, references_total by (apply asGenerated_textured; exact HG).
    apply sys_desktop_particles. }
  split; [exact Hsum|]. intros [H1 H0]. rewrite H1, H0 in Hsum. lia.
Qed.

(** C1, amended. Tearing down a live instance invokes [dispose] on a glyph
    texture once for every particle whose material references it, so the
    two textures receive as many calls as there are particles; whatever
    happens afterwards, a repeated [destroy()] included, adds none. *)
Theorem dispose_once_per_reference (s : State) (t : Texture)
        (evs : list (Env * Event)) :
  Reachable s -> isDestroyed s = false ->
  disposeCount t (run evs (destroy s)) = references t (particles s)
  /\ references texture1 (particles s) + references texture0 (particles s)
     = length (particles s).
Proof.
  intros HR Hd. destruct (Reachable_Owning _ HR) as [HO HG].
  destruct (HO Hd) as [Hg Hz]. split.
  - destruct (Torn_run evs (isTextureDispose t) (destroy s)
                (destroy_Torn s) eq_refl) as [_ E].
    unfold footprint in E. injection E as E _ _.
    transitivity (disposeCount t (destroy s)); [exact E|].
    rewrite destroy_disposeCount, Hz.
    destruct (galaxyGroup s); [reflexivity|contradiction].
  - apply references_total, asGenerated_textured, HG.
Qed.

Lemma dispose_once_per_reference_witness :
  disposeCount texture1
    (run [(env_desktop, EvDestroy)] (destroy sys_desktop))
  = references texture1 (particles sys_desktop).
Proof.
  apply (dispose_once_per_reference sys_desktop texture1
           [(env_desktop, EvDestroy)]).
  - exact sys_desktop_Reachable.
  - reflexivity.
Defined.

(** C2. Once [destroy()] has run, no later event renders, resizes the
    renderer, requests a frame or arms a timer; and each deferred callback
    that finds the flag set renders nothing and schedules nothing. *)
Theorem no_render_after_destroy (s : State) (evs : list (Env * Event)) :
  (isDestroyed (run evs (destroy s)) = true
   /\ renderCount (run evs (destroy s)) = renderCount (destroy s)
   /\ count isSetSize (log (run evs (destroy s)))
      = count isSetSize (log (destroy s))
   /\ nextFrameId (run evs (destroy s)) = nextFrameId (destroy s)
   /\ nextTimerId (run evs (destroy s)) = nextTimerId (destroy s))
  /\ (forall env cb s', isDestroyed s' = true ->
        log (runFrame env cb s') = log s'
        /\ frameRequests (runFrame env cb s') = frameRequests s'
        /\ timers (runFrame env cb s') = timers s')
  /\ (forall env cb s', isDestroyed s' = true -> runTimer env cb s' = s').
Proof.
  split; [|split].
  - destruct (Torn_run evs isRender (destroy s) (destroy_Torn s) eq_refl)
      as [HT E1].
    destruct (Torn_run evs isSetSize (destroy s) (destroy_Torn s) eq_refl)
      as [_ E2].
    unfold footprint in *. injection E1 as E1 Ef Et. injection E2 as E2 _ _.
    unfold renderCount. repeat split; auto. apply HT.
  - intros env cb s' Hd. rewrite runFrame_destroyed by assumption.
    destruct cb; auto.
  - intros env cb s' Hd. now apply runTimer_destroyed.
Qed.

Lemma no_render_after_destroy_witness :
  isDestroyed (destroy sys_desktop) = true /\
  log (runFrame env_desktop CbAnimate (destroy sys_desktop))
  = log (destroy sys_desktop).
Proof.
  split; [reflexivity|].
  apply (proj1 (proj2 (no_render_after_destroy sys_desktop []))
           env_desktop CbAnimate (destroy sys_desktop)).
  reflexivity.
Defined.

(** C3, as stated, fails.  On a host that honours the delays the code asks
    for (16, 150 and 16 ms), the timer of the orientation change fires after
    the update scheduled by the two 16 ms timers has been served, and
    schedules a second one: the burst ends in two size updates, not one,
    and both resize the renderer when the layout settles in between. *)
Lemma burst_two_updates :
  map (fun t => (timerCallback t, timerDelay t)) (timers (run burst sys_desktop))
  = [(TmResizeDebounce, 16%Z); (TmOrientationDebounce, 150%Z);
     (TmObserverDebounce, 16%Z)]
  /\ updatesServed (burst ++ settle) sys_desktop = 2
  /\ count isSetSize (log (run (burst ++ settle) sys_desktop))
     = count isSetSize (log sys_desktop) + 2
  /\ ~ updatesServed (burst ++ settle) sys_desktop = 1.
Proof.
  assert (H2 : updatesServed (burst ++ settle) sys_desktop = 2)
    by reflexivity.
  split; [reflexivity|]. split; [exact H2|]. split; [reflexivity|].
  rewrite H2. discriminate.
Qed.

(** C3, amended. The size update is single-flight only while a request is
    pending: at most one is pending, exactly while [updateSizePending] is
    set; a trigger that arrives meanwhile changes nothing; once a debounce
    timer of a live instance has fired, exactly one update is pending until
    the host serves it, whatever other events arrive; serving it returns to
    idle and resizes the renderer at most once.  Triggers are not coalesced
    across a served update: a debounce timer that fires afterwards
    schedules another.  Along any run, the updates served and still
    pending are at most the debounce timers fired plus the updates pending
    at the start, and the renderer is resized at most once per update
    served. *)
Theorem size_update_single_flight (s : State) :
  Reachable s ->
  pendingUpdates s = (if updateSizePending s then 1 else 0)
  /\ (updateSizePending s = true -> forall src, updateSize src s = s)
  /\ (isDestroyed s = false ->
      forall env id tmr evs,
        find (fun t => timerId t =? id) (timers s) = Some tmr ->
        timerCallback tmr <> TmPixelRatio ->
        noUpdateServed evs (step env (EvTimer id) s) ->
        updateSizePending (run evs (step env (EvTimer id) s)) = true
        /\ pendingUpdates (run evs (step env (EvTimer id) s)) = 1)
  /\ (forall env id r,
        find (fun r => frameId r =? id) (frameRequests s) = Some r ->
        isUpdateSize r = true ->
        updateSizePending (step env (EvFrame id) s) = false
        /\ pendingUpdates (step env (EvFrame id) s) = 0
        /\ count isSetSize (log (step env (EvFrame id) s))
           <= count isSetSize (log s) + 1)
  /\ (forall evs,
        updatesServed evs s + pendingUpdates (run evs s)
        <= debouncesFired evs s + pendingUpdates s
        /\ count isSetSize (log (run evs s))
           <= count isSetSize (log s) + updatesServed evs s).
Proof.
  intro HR. pose proof (Reachable_Inv s HR) as HI.
  split; [apply (inv_pending s HI)|]. split; [|split; [|split]].
  - intros Hp src. now apply updateSize_coalesced.
  - intros Hd env id tmr evs Hf Hcb Hn.
    assert (Hp : updateSizePending (run evs (step env (EvTimer id) s)) = true).
    { apply pending_run; [|exact Hn]. eapply trigger_pending; eauto. }
    split; [exact Hp|].
    rewrite (inv_pending _ (Inv_run evs _ (Inv_step env (EvTimer id) s HI))).
    now rewrite Hp.
  - intros env id r Hf Hu.
    pose proof (Inv_step env (EvFrame id) s HI) as HI'.
    pose proof (inv_pending _ HI') as Hc.
    cbn [step] in *. rewrite Hf in *.
    unfold isUpdateSize in Hu.
    destruct (frameCallback r) as [|src]; [discriminate|].
    cbn [runFrame] in *.
    destruct (updateSizeFrame_settles src env (cancelAnimationFrame id s))
      as [Hp Hl].
    rewrite Hp in Hc. repeat split; auto.
  - intro evs. now apply run_budget.
Qed.

(** The desktop system after a window resize has armed its debounce timer. *)
Lemma sys_resized_timer :
  find (fun t => timerId t =? 1)
       (timers (step env_desktop EvResize sys_desktop))
  = Some {| timerId := 1; timerCallback := TmResizeDebounce; timerDelay := 16 |}.
Proof. reflexivity. Qed.

Lemma size_update_single_flight_witness :
  pendingUpdates
    (run [(env_desktop, EvOrientationChange); (env_desktop, EvResizeObserver);
          (env_desktop, EvTimer 2); (env_desktop, EvTimer 3)]
       (step env_desktop (EvTimer 1) (step env_desktop EvResize sys_desktop)))
  = 1
  /\ updatesServed (burst ++ settle) sys_desktop
     + pendingUpdates (run (burst ++ settle) sys_desktop)
     <= debouncesFired (burst ++ settle) sys_desktop
        + pendingUpdates sys_desktop.
Proof.
  assert (HR : Reachable (step env_desktop EvResize sys_desktop))
    by exact (Reachable_step _ _ _ sys_desktop_Reachable).
  split.
  - apply (proj1 (proj2 (proj2 (size_update_single_flight _ HR)))
             eq_refl env_desktop 1 _ _ sys_resized_timer).
    + discriminate.
    + cbn [noUpdateServed servesUpdate]. tauto.
  - apply (proj2 (proj2 (proj2 (proj2
             (size_update_single_flight _ sys_desktop_Reachable))))
             (burst ++ settle)).
Defined.

(** C4. Running the size update twice with the same resolved canvas size
    is idempotent: the second run leaves the camera, the backend log (no
    camera call, no resize, no render) and the timers as they are and
    ends idle. *)
Theorem size_update_idempotent (s : State) (env env' : Env) (src src' : Source) :
  Reachable s -> isDestroyed s = false -> updateSizePending s = false ->
  getCanvasSize env' = getCanvasSize env ->
  let s1 := sizeUpdatePath src env s in
  let s2 := sizeUpdatePath src' env' s1 in
  (camera s2 = camera s1 /\ log s2 = log s1 /\ timers s2 = timers s1
   /\ lastSize s2 = lastSize s1
   /\ updateSizePending s2 = false /\ pendingUpdates s2 = 0)
  /\ (forall s0,
        updateSizeFrame src' env' (updateSizeFrame src env s0)
        = set_updateSizePending false (updateSizeFrame src env s0)).
Proof.
  intros HR Hd Hp Hsize s1 s2.
  assert (Hcb : forall s0,
            updateSizeFrame src' env' (updateSizeFrame src env s0)
            = set_updateSizePending false (updateSizeFrame src env s0)).
  { intro s0. apply updateSizeFrame_abort.
    eapply aborts_view; [exact Hsize|reflexivity|reflexivity|].
    apply updateSizeFrame_then_aborts. }
  split; [|exact Hcb].
  pose proof (Reachable_Inv s HR) as HI.
  assert (HI1 : Inv s1).
  { unfold s1, sizeUpdatePath. apply Inv_step. now apply Inv_updateSize. }
  assert (E1 : s1 = updateSizeFrame src env
                      (cancelAnimationFrame (nextFrameId s) (updateSize src s)))
    by (now apply sizeUpdatePath_eq).
  assert (Hd1 : isDestroyed s1 = false).
  { rewrite E1, (proj1 (updateSizeFrame_field _ _ _)). fields.
    now rewrite updateSize_isDestroyed. }
  assert (Hp1 : updateSizePending s1 = false).
  { rewrite E1. apply updateSizeFrame_settles. }
  assert (Ha1 : aborts env s1).
  { rewrite E1. apply updateSizeFrame_then_aborts. }
  assert (E2 : s2 = set_updateSizePending false
                      (cancelAnimationFrame (nextFrameId s1)
                         (updateSize src' s1))).
  { unfold s2. rewrite sizeUpdatePath_eq by assumption.
    apply updateSizeFrame_abort.
    eapply aborts_view; [exact Hsize| | |exact Ha1]; fields;
      [apply updateSize_isDestroyed|apply updateSize_lastSize]. }
  assert (HI2 : Inv s2).
  { unfold s2, sizeUpdatePath. apply Inv_step. now apply Inv_updateSize. }
  pose proof (inv_pending s2 HI2) as Hc.
  rewrite E2 in *. unfold updateSize in *. rewrite Hd1, Hp1 in *.
  cbn [orb] in *. repeat split; try reflexivity. exact Hc.
Qed.

Lemma size_update_idempotent_witness :
  log (sizeUpdatePath orientation_change env_hidden
         (sizeUpdatePath window_resize env_desktop sys_desktop))
  = log (sizeUpdatePath window_resize env_desktop sys_desktop).
Proof.
  apply (size_update_idempotent sys_desktop env_desktop env_hidden
           window_resize orientation_change).
  - exact sys_desktop_Reachable.
  - reflexivity.
  - reflexivity.
  - reflexivity.
Defined.

(** The first of the two runs does apply: the constructor records no size. *)
Example size_update_first_applies :
  lastSize (sizeUpdatePath window_resize env_desktop sys_desktop)
  = Some {| width := 1920; height := 1080 |}.
Proof. reflexivity. Qed.

(** C7. On a frame of a live, visible instance the clock advances by 0.005
    and every sprite is placed at
    [x = cos (initialAngle + orbitalSpeed * time) * radius + randomOffset.x],
    [z = sin (...) * radius + randomOffset.z], [y = randomOffset.y], where
    [orbitalSpeed = 0.5 / sqrt (radius + 1)]; for radius 5 that speed is
    [0.5 / sqrt 6] and the angle is [initialAngle + (0.5 / sqrt 6) * time]. *)
Theorem frame_orbit (env : Env) (s : State) (g : Group) :
  Reachable s ->
  isDestroyed s = false -> isPageVisible s = true -> galaxyGroup s = Some g ->
  let s' := animate env s in
  let t := time s' in
  t = (time s + 0.005)%R
  /\ length (particles s') = length (particles s)
  /\ forall i p, nth_error (particles s) i = Some p ->
       orbitalSpeed p = (0.5 / sqrt (radius p + 1))%R
       /\ (radius p = 5%R ->
           orbitalSpeed p = (0.5 / sqrt 6)%R
           /\ currentAngle p t = (initialAngle p + (0.5 / sqrt 6) * t)%R)
       /\ exists p',
            nth_error (particles s') i = Some p'
            /\ vx (position (sprite p')) =
               (cos (initialAngle p + orbitalSpeed p * t) * radius p
                + vx (randomOffset p))%R
            /\ vz (position (sprite p')) =
               (sin (initialAngle p + orbitalSpeed p * t) * radius p
                + vz (randomOffset p))%R
            /\ vy (position (sprite p')) = vy (randomOffset p).
Proof.
  intros HR Hd Hv Hg s' t.
  destruct (animate_active env s g Hd Hv Hg) as (Et & Ep & _).
  destruct (Reachable_Owning s HR) as [_ HG].
  split; [exact Et|]. split.
  - unfold s'. now rewrite Ep, length_map.
  - intros i p Hnth.
    assert (Hspeed : orbitalSpeed p = (0.5 / sqrt (radius p + 1))%R).
    { unfold Generated in HG. rewrite Forall_forall in HG.
      apply (HG p). eapply nth_error_In; eauto. }
    split; [exact Hspeed|]. split.
    + intro Hr. rewrite Hr in Hspeed.
      replace (5 + 1)%R with 6%R in Hspeed by lra.
      split; [exact Hspeed|]. unfold currentAngle. now rewrite Hspeed.
    + exists (moveParticle t p). split.
      * unfold s', t, s'. rewrite Ep, Et. now apply map_nth_error.
      * repeat split.
Qed.

Lemma frame_orbit_witness :
  time (animate env_desktop sys_desktop) = (time sys_desktop + 0.005)%R.
Proof.
  assert (Hg : galaxyGroup sys_desktop
               = Some {| rotation_x := (- PI * 0.1)%R;
                         rotation_y := (PI * 0.1 + 0.00003)%R |})
    by reflexivity.
  exact (proj1 (frame_orbit env_desktop sys_desktop _ sys_desktop_Reachable
                  eq_refl eq_refl Hg)).
Defined.

(** C9. A frame changes nothing of a particle but its sprite's position:
    angle, radius, speed, arm, jitter, scale and material (texture, tint,
    opacity) are what they were, for [animate] and for every frame request
    the host serves. *)
Theorem frame_moves_position_only (env : Env) (s : State) (id : nat) :
  map static (particles (animate env s)) = map static (particles s)
  /\ map static (particles (step env (EvFrame id) s))
     = map static (particles s)
  /\ (forall tm p, static (moveParticle tm p) = static p).
Proof.
  split; [apply animate_static|]. split; [|reflexivity].
  destruct (step_field env (EvFrame id) s ltac:(discriminate))
    as (_ & _ & _ & [->|[tm ->]]); [reflexivity|apply map_static_move].
Qed.

(** C8, as stated, fails.  The forced render of a size update does not
    look at the visibility of the page: a resize that reaches the hidden
    page and whose frame request the host serves renders once, while the
    page is still hidden. *)
Lemma hidden_page_renders :
  isPageVisible (step env_hidden EvVisibilityChange sys_desktop) = false
  /\ isPageVisible
       (run resize_while_hidden
          (step env_hidden EvVisibilityChange sys_desktop)) = false
  /\ renderCount
       (run resize_while_hidden
          (step env_hidden EvVisibilityChange sys_desktop))
     = renderCount (step env_hidden EvVisibilityChange sys_desktop) + 1.
Proof. repeat split; reflexivity. Qed.

(** C8, amended. At most one animation loop is ever active.  A visibility
    change to hidden stops it at once, and until a change to visible
    arrives the loop renders nothing and stays stopped.  The forced render
    of a size update is not held back: while the page is hidden there are
    at most as many renders as size updates the host serves, and none if
    it serves none.  A change to visible starts a loop only when none is
    running and the instance is live, and then exactly one. *)
Theorem visibility_single_loop (s : State) :
  Reachable s ->
  activeLoops s <= 1
  /\ (forall env evs,
        document_hidden env = true -> staysHidden evs ->
        let s1 := step env EvVisibilityChange s in
        activeLoops s1 = 0
        /\ log s1 = log s
        /\ activeLoops (run evs s1) = 0
        /\ frameRenderCount (run evs s1) = frameRenderCount s
        /\ renderCount (run evs s1) <= renderCount s + updatesServed evs s1
        /\ (noUpdateServed evs s1 ->
            renderCount (run evs s1) = renderCount s))
  /\ (forall env,
        document_hidden env = false ->
        let s1 := step env EvVisibilityChange s in
        (isDestroyed s = true -> s1 = s)
        /\ (activeLoops s = 1 ->
            frameRequests s1 = frameRequests s /\ log s1 = log s)
        /\ (isDestroyed s = false -> activeLoops s = 0 ->
            activeLoops s1 = 1)).
Proof.
  intro HR. pose proof (Reachable_Inv s HR) as HI.
  split; [now apply activeLoops_le_1|]. split.
  - intros env evs Hh Hs s1.
    destruct (hidden_event env s HI Hh) as [HP El].
    pose proof (Inv_step env EvVisibilityChange s HI) as HI1.
    destruct (Paused_run evs _ HI1 HP Hs) as (HP' & Ef & Er).
    pose proof (Paused_run_renders evs _ HI1 HP Hs) as Hb.
    split; [now apply Paused_no_loop|]. split; [exact El|].
    split; [apply Paused_no_loop; [now apply Inv_run|exact HP']|].
    unfold frameRenderCount, renderCount in *. fold s1 in Ef, Er, Hb.
    subst s1. rewrite El in *. auto.
  - intros env Hv. now apply visible_event.
Qed.

Lemma visibility_single_loop_witness :
  activeLoops sys_desktop = 1
  /\ activeLoops (step env_hidden EvVisibilityChange sys_desktop) = 0
  /\ frameRenderCount
       (run resize_while_hidden
          (step env_hidden EvVisibilityChange sys_desktop))
     = frameRenderCount sys_desktop
  /\ renderCount
       (run resize_while_hidden
          (step env_hidden EvVisibilityChange sys_desktop))
     <= renderCount sys_desktop
        + updatesServed resize_while_hidden
            (step env_hidden EvVisibilityChange sys_desktop)
  /\ activeLoops
       (step env_desktop EvVisibilityChange
          (step env_hidden EvVisibilityChange sys_desktop)) = 1.
Proof.
  pose proof sys_desktop_Reachable as HR.
  assert (HR' : Reachable (step env_hidden EvVisibilityChange sys_desktop))
    by exact (Reachable_step _ _ _ sys_desktop_Reachable).
  assert (Hs : staysHidden resize_while_hidden).
  { intros e [H|[H|[H|[]]]]; discriminate. }
  destruct (proj1 (proj2 (visibility_single_loop sys_desktop HR))
              env_hidden _ eq_refl Hs) as (H0 & _ & _ & Hf & Hb & _).
  split; [reflexivity|]. split; [exact H0|]. split; [exact Hf|].
  split; [exact Hb|].
  apply (proj2 (proj2 (visibility_single_loop _ HR')) env_desktop eq_refl).
  - reflexivity.
  - exact H0.
Defined.

End SystemClaims.

(** * Further properties of the code *)

Import Behaviour.

Section DeviceAndCanvas.

(** X1. The device tier is decided by the window width and the user agent:
    below 640 it is mobile, from 1024 on it is desktop, and in between a
    mobile user agent makes it mobile and any other makes it tablet; so a
    mobile user agent never yields the tablet tier. *)
Theorem deviceType_tiers (env : Env) :
  (deviceType env = mobile <->
   (innerWidth env < 640 \/ (isMobileUA env = true /\ innerWidth env < 1024))%Z)
  /\ (deviceType env = tablet <->
      (isMobileUA env = false /\ 640 <= innerWidth env < 1024)%Z)
  /\ (deviceType env = desktop <-> (1024 <= innerWidth env)%Z)
  /\ (isMobileUA env = true -> deviceType env <> tablet).
Proof.
  unfold deviceType.
  destruct (Z.ltb_spec (innerWidth env) 640);
    destruct (Z.ltb_spec (innerWidth env) 1024);
    destruct (isMobileUA env); cbn;
    repeat split; intros; try discriminate; try lia; try tauto;
    try (now right); try (now left);
    repeat match goal with
           | H : _ /\ _ |- _ => destruct H
           | H : _ \/ _ |- _ => destruct H
           end; try discriminate; try lia.
Qed.

Lemma deviceType_tiers_witness : deviceType env_phone <> tablet.
Proof.
  exact (proj2 (proj2 (proj2 (deviceType_tiers env_phone))) eq_refl).
Defined.

Lemma Math_round_nonneg (x : Q) : (0 <= x)%Q -> (0 <= Math_round x)%Z.
Proof.
  intro H. unfold Math_round.
  assert (Hq : (inject_Z 0 <= x + (1 # 2))%Q).
  { destruct x as [n d]. unfold Qle, Qplus, inject_Z in *. cbn in *. lia. }
  apply Qfloor_resp_le in Hq. now rewrite Qfloor_Z in Hq.
Qed.

Lemma Math_round_pos (x : Q) : (1 # 2 <= x)%Q -> (1 <= Math_round x)%Z.
Proof.
  intro H. unfold Math_round.
  assert (Hq : (inject_Z 1 <= x + (1 # 2))%Q).
  { destruct x as [n d]. unfold Qle, Qplus, inject_Z in *. cbn in *. lia. }
  apply Qfloor_resp_le in Hq. now rewrite Qfloor_Z in Hq.
Qed.

Lemma roundRect_nonneg (r : DOMRect) :
  rectPositive r = true ->
  (0 <= width (roundRect r) /\ 0 <= height (roundRect r))%Z.
Proof.
  unfold rectPositive. rewrite andb_true_iff, !gt0_spec. intros [Hw Hh].
  split; apply Math_round_nonneg; now apply Qlt_le_weak.
Qed.

(** X2. The resolved canvas size is never negative when the window's inner
    size is not, and the window's size is consulted only when no element
    reports a positive box: with a positive parent box the result is that
    box rounded, whatever the canvas and the window report. *)
Theorem getCanvasSize_nonnegative (env : Env) :
  ((0 <= innerWidth env)%Z -> (0 <= innerHeight env)%Z ->
   (0 <= width (getCanvasSize env) /\ 0 <= height (getCanvasSize env))%Z)
  /\ (forall r, parentElement env = Some r -> rectPositive r = true ->
        getCanvasSize env = roundRect r
        /\ ((1 # 2 <= rect_width r)%Q -> (1 # 2 <= rect_height r)%Q ->
            (1 <= width (getCanvasSize env) /\ 1 <= height (getCanvasSize env))%Z)).
Proof.
  split.
  - intros Hw Hh.
    pose proof (clientSize_nonzero env) as Hc.
    assert (Hf : (0 <= width (windowFallback env)
                  /\ 0 <= height (windowFallback env))%Z).
    { rewrite windowFallback_eq. cbn. unfold orDefault.
      destruct (innerWidth env =? 0)%Z, (innerHeight env =? 0)%Z; lia. }
    assert (Hk : clientPositive env = true ->
                 (0 <= Math_round (inject_Z (clientWidth env))
                  /\ 0 <= Math_round (inject_Z (clientHeight env)))%Z).
    { unfold clientPositive. rewrite andb_true_iff, !Z.ltb_lt.
      rewrite !Math_round_inject_Z. lia. }
    unfold getCanvasSize.
    destruct (parentElement env) as [r|].
    + destruct (rectPositive r) eqn:Hr; [now apply roundRect_nonneg|].
      destruct (rectPositive (canvasRect env)) eqn:Hcr;
        [now apply roundRect_nonneg|].
      destruct (clientPositive env); [now apply Hk|exact Hf].
    + destruct (rectPositive (canvasRect env)) eqn:Hcr;
        [now apply roundRect_nonneg|].
      destruct (clientPositive env); [now apply Hk|exact Hf].
  - intros r Hp Hr. unfold getCanvasSize. rewrite Hp, Hr.
    split; [reflexivity|]. intros Hw Hh.
    split; now apply Math_round_pos.
Qed.

Lemma getCanvasSize_nonnegative_witness :
  (0 <= width (getCanvasSize env_desktop))%Z.
Proof.
  apply (proj1 (getCanvasSize_nonnegative env_desktop)); cbn; lia.
Defined.

End DeviceAndCanvas.

Section GeneratedParticles.

Local Open Scope R_scope.

Lemma genParticles_draws device n rnd i p :
  nth_error (genParticles device n rnd) i = Some p ->
  p = fst (makeParticle device i rnd (9 * i)%nat).
Proof. intro H. now apply genParticles_nth in H. Qed.

Lemma jitter_bound (m a : R) (b : bool) :
  0 <= m < 1 -> 0 < a ->
  Rabs (Math_pow m RANDOMNESS_POWER * a * (if b then 1 else -1)) < a.
Proof.
  intros Hm Ha.
  assert (Hp : 0 <= Math_pow m RANDOMNESS_POWER < 1).
  { apply Math_pow_unit; [exact Hm|unfold RANDOMNESS_POWER; lra]. }
  destruct b; apply Rabs_def1; nra.
Qed.

Lemma makeParticle_jitter device i rnd c :
  (forall k, 0 <= rnd k < 1) ->
  let p := fst (makeParticle device i rnd c) in
  Rabs (vx (randomOffset p)) < 0.4
  /\ Rabs (vy (randomOffset p)) < 0.4
  /\ Rabs (vz (randomOffset p)) < 0.12.
Proof.
  intros Hrnd.
  cbv [makeParticle bind ret Math_random coin fst randomOffset vx vy vz].
  repeat split.
  - destruct (Rlt_dec (rnd (S (S (S (S c))))) 0.5);
      [apply (jitter_bound _ RANDOMNESS true)
      |apply (jitter_bound _ RANDOMNESS false)];
      auto; unfold RANDOMNESS; lra.
  - destruct (Rlt_dec (rnd (S (S (S (S (S (S c))))))) 0.5);
      [apply (jitter_bound _ RANDOMNESS true)
      |apply (jitter_bound _ RANDOMNESS false)];
      auto; unfold RANDOMNESS; lra.
  - replace 0.12 with (RANDOMNESS * 0.3) by (unfold RANDOMNESS; lra).
    rewrite (Rmult_assoc _ RANDOMNESS 0.3).
    destruct (Rlt_dec (rnd (S (S (S (S (S (S (S (S c))))))))) 0.5);
      [apply (jitter_bound _ (RANDOMNESS * 0.3) true)
      |apply (jitter_bound _ (RANDOMNESS * 0.3) false)];
      auto; unfold RANDOMNESS; lra.
Qed.

(** X3. With draws in [[0,1)], every generated particle's jitter is
    smaller than 0.4 along x and y and smaller than 0.12 along z: the field
    is a flat disc. *)
Theorem randomOffset_bounds (device : DeviceType) (n : nat) (rnd : nat -> R)
        (i : nat) (p : ParticleData) :
  (forall k, 0 <= rnd k < 1) ->
  nth_error (genParticles device n rnd) i = Some p ->
  Rabs (vx (randomOffset p)) < 0.4
  /\ Rabs (vy (randomOffset p)) < 0.4
  /\ Rabs (vz (randomOffset p)) < 0.12.
Proof.
  intros Hrnd Hnth. apply genParticles_draws in Hnth. subst p.
  now apply makeParticle_jitter.
Qed.

Lemma randomOffset_bounds_witness :
  exists p, nth_error (genParticles mobile 1 rnd_half) 0 = Some p /\
            Rabs (vz (randomOffset p)) < 0.12.
Proof.
  eexists. split.
  - unfold genParticles. rewrite genLoop_nth by lia. reflexivity.
  - eapply (randomOffset_bounds mobile 1 rnd_half 0).
    + intro k. unfold rnd_half. lra.
    + unfold genParticles. rewrite genLoop_nth by lia. reflexivity.
Defined.

Lemma makeParticle_radius_bound device i rnd c :
  (forall k, 0 <= rnd k < 1) ->
  0 <= radius (fst (makeParticle device i rnd c)) < RADIUS.
Proof.
  intro Hrnd. rewrite makeParticle_radius.
  assert (Hp : 0 < densityPower device) by (destruct device; cbn; lra).
  pose proof (Math_pow_unit _ _ (Hrnd (S c)) Hp). unfold RADIUS. nra.
Qed.

Lemma makeParticle_opacity device i rnd c :
  let p := fst (makeParticle device i rnd c) in
  opacity (material (sprite p)) =
  baseOpacity device * 0.4
  + (baseOpacity device * 1.2 - baseOpacity device * 0.4) * (radius p / RADIUS).
Proof. reflexivity. Qed.

Lemma makeParticle_scale device i rnd c :
  let p := fst (makeParticle device i rnd c) in
  let size := baseSize device * (1 - radius p / RADIUS * 0.5) in
  scale (sprite p) = {| vx := size; vy := size; vz := 1 |}.
Proof. reflexivity. Qed.

(** X4. Opacity and size follow the distance from the centre: with draws in
    [[0,1)] the opacity lies in [[0.4 b, 1.2 b)] for the tier's base opacity
    [b] (so between 0.16 and 0.6), the sprite is square with a side in
    [(s/2, s]] for the tier's base size [s], and of two particles of one
    field the farther one is at least as opaque and at most as large. *)
Theorem opacity_and_size_by_radius (device : DeviceType) (n : nat)
        (rnd : nat -> R) (i j : nat) (p q : ParticleData) :
  (forall k, 0 <= rnd k < 1) ->
  nth_error (genParticles device n rnd) i = Some p ->
  nth_error (genParticles device n rnd) j = Some q ->
  (baseOpacity device * 0.4 <= opacity (material (sprite p))
   < baseOpacity device * 1.2)
  /\ 0.16 <= opacity (material (sprite p)) < 0.6
  /\ vx (scale (sprite p)) = vy (scale (sprite p))
  /\ vz (scale (sprite p)) = 1
  /\ baseSize device / 2 < vx (scale (sprite p)) <= baseSize device
  /\ (radius p <= radius q ->
      opacity (material (sprite p)) <= opacity (material (sprite q))
      /\ vx (scale (sprite q)) <= vx (scale (sprite p))).
Proof.
  intros Hrnd Hp Hq.
  apply genParticles_draws in Hp, Hq. subst p q.
  pose proof (makeParticle_radius_bound device i rnd (9 * i)%nat Hrnd) as Hrp.
  pose proof (makeParticle_radius_bound device j rnd (9 * j)%nat Hrnd) as Hrq.
  rewrite !makeParticle_opacity, !makeParticle_scale. cbn [vx vy vz].
  set (rp := radius (fst (makeParticle device i rnd (9 * i)%nat))) in *.
  set (rq := radius (fst (makeParticle device j rnd (9 * j)%nat))) in *.
  unfold RADIUS in *.
  assert (Hb : 0.4 <= baseOpacity device <= 0.5) by (destruct device; cbn; lra).
  assert (Hs : 0 < baseSize device) by (destruct device; cbn; lra).
  repeat split; try nra.
Qed.

Lemma opacity_and_size_by_radius_witness :
  exists p, nth_error (genParticles mobile 1 rnd_half) 0 = Some p /\
            0.16 <= opacity (material (sprite p)) < 0.6.
Proof.
  eexists. split.
  - unfold genParticles. rewrite genLoop_nth by lia. reflexivity.
  - eapply (opacity_and_size_by_radius mobile 1 rnd_half 0 0).
    + intro k. unfold rnd_half. lra.
    + unfold genParticles. rewrite genLoop_nth by lia. reflexivity.
    + unfold genParticles. rewrite genLoop_nth by lia. reflexivity.
Defined.

Lemma moveParticle_onOrbit tm p : onOrbit (moveParticle tm p).
Proof.
  unfold onOrbit, moveParticle. cbn [position sprite randomOffset vx vy vz radius].
  split; [|reflexivity].
  set (a := initialAngle p + orbitalSpeed p * tm).
  pose proof (sin2_cos2 a) as H. unfold Rsqr in H.
  replace (cos a * radius p + vx (randomOffset p) - vx (randomOffset p))
    with (cos a * radius p) by lra.
  replace (sin a * radius p + vz (randomOffset p) - vz (randomOffset p))
    with (sin a * radius p) by lra.
  nra.
Qed.

Lemma makeParticle_start device i rnd c :
  let p := fst (makeParticle device i rnd c) in
  moveParticle 0 p = p
  /\ initialAngle p = branchAngle p + radius p * SPIN.
Proof.
  cbv zeta. split; [|reflexivity].
  cbv [makeParticle bind ret Math_random coin fst moveParticle
       initialAngle orbitalSpeed radius randomOffset sprite material scale
       branchAngle vx vy vz].
  rewrite Rmult_0_r, Rplus_0_r. reflexivity.
Qed.

(** X5. A particle is created on its own orbit: its initial sprite position
    is the frame formula at time 0, and its starting angle is its arm's
    angle plus [SPIN] (1.5) times its radius, so the arms wind outward. *)
Theorem generated_at_time_zero (device : DeviceType) (n : nat) (rnd : nat -> R)
        (i : nat) (p : ParticleData) :
  nth_error (genParticles device n rnd) i = Some p ->
  moveParticle 0 p = p
  /\ initialAngle p = (armAngle (i mod 4) + radius p * 1.5)%R
  /\ onOrbit p.
Proof.
  intro Hnth. apply genParticles_draws in Hnth. subst p.
  destruct (makeParticle_start device i rnd (9 * i)%nat) as [Hm Ha].
  split; [exact Hm|]. split.
  - rewrite Ha, makeParticle_branchAngle. reflexivity.
  - rewrite <- Hm. apply moveParticle_onOrbit.
Qed.

Lemma generated_at_time_zero_witness :
  exists p, nth_error (genParticles mobile 1 rnd_half) 0 = Some p /\ onOrbit p.
Proof.
  eexists. split.
  - unfold genParticles. rewrite genLoop_nth by lia. reflexivity.
  - eapply (generated_at_time_zero mobile 1 rnd_half 0).
    unfold genParticles. rewrite genLoop_nth by lia. reflexivity.
Defined.

End GeneratedParticles.

Section LivingField.

Local Open Scope nat_scope.

Lemma construct_particles env rnd :
  particles (construct env rnd) =
    genParticles (deviceType env) (optimizedParticleCount (deviceType env)) rnd
  \/ exists tm,
       particles (construct env rnd) =
       map (moveParticle tm)
           (genParticles (deviceType env)
              (optimizedParticleCount (deviceType env)) rnd).
Proof.
  unfold construct.
  match goal with |- context [animate env ?s0] => set (s := s0) end.
  assert (Hp : particles s =
               genParticles (deviceType env)
                 (optimizedParticleCount (deviceType env)) rnd)
    by (subst s; handler handleResize).
  destruct (animate_field env s) as (_ & _ & _ & [->|[tm ->]]);
    rewrite Hp; eauto.
Qed.

(** What holds of the particles a state starts with and the frame update
    keeps, holds after any run of events. *)
Lemma run_particles (Q : ParticleData -> Prop) :
  (forall tm p, Q p -> Q (moveParticle tm p)) ->
  forall evs s0, Forall Q (particles s0) -> Forall Q (particles (run evs s0)).
Proof.
  intro Hmove.
  assert (Hmap : forall tm ps, Forall Q ps -> Forall Q (map (moveParticle tm) ps)).
  { intros tm ps H. apply Forall_forall. intros p Hin.
    apply in_map_iff in Hin as [q [<- Hq]].
    rewrite Forall_forall in H. auto. }
  induction evs as [|[env ev] evs IH]; intros s0 H0; [exact H0|].
  cbn [run]. apply IH.
  destruct (Event_eq_destroy ev) as [->|Hev].
  - cbn [step]. rewrite destroy_particles.
    destruct (galaxyGroup s0); [constructor|exact H0].
  - destruct (step_field env ev s0 Hev) as (_ & _ & _ & [->|[tm ->]]); auto.
Qed.

Lemma Rabs_orbit (c r off b : R) :
  (-1 <= c <= 1 -> 0 <= r < RADIUS -> Rabs off < b ->
   Rabs (c * r + off) < RADIUS + b)%R.
Proof.
  intros Hc Hr Ho.
  apply Rle_lt_trans with (Rabs (c * r) + Rabs off)%R; [apply Rabs_triang|].
  rewrite Rabs_mult, (Rabs_pos_eq r) by lra.
  assert (Rabs c <= 1)%R by (apply Rabs_le; lra).
  pose proof (Rabs_pos c). nra.
Qed.

(** The frame update puts a sprite of bounded radius and jitter inside the
    box, and changes neither radius nor jitter. *)
Lemma moveParticle_inField tm p :
  inBudget p -> inBudget (moveParticle tm p) /\ inField (moveParticle tm p).
Proof.
  intros (Hr & Hx & Hy & Hz). split; [repeat split; tauto|].
  unfold inField, moveParticle.
  cbn [position sprite randomOffset vx vy vz radius].
  repeat split.
  - apply Rabs_orbit; auto. apply COS_bound.
  - apply Rabs_orbit; auto. apply SIN_bound.
  - exact Hy.
Qed.

(** X6. No sprite ever leaves the box around the disc: with draws in
    [[0,1)], through any run of events every sprite of the instance stays
    within 20.4 of the centre along x and within 20.12 along z, at the
    height of its jitter, which is less than 0.4 from the plane. *)
Theorem sprites_stay_in_field (env : Env) (rnd : nat -> R)
        (evs : list (Env * Event)) (p : ParticleData) :
  (forall k, (0 <= rnd k < 1)%R) ->
  In p (particles (run evs (construct env rnd))) ->
  (Rabs (vx (position (sprite p))) < 20.4
   /\ Rabs (vz (position (sprite p))) < 20.12
   /\ vy (position (sprite p)) = vy (randomOffset p)
   /\ Rabs (vy (position (sprite p))) < 0.4)%R.
Proof.
  intros Hrnd Hin.
  assert (Hgen : Forall (fun q => inBudget q /\ inField q)
                   (genParticles (deviceType env)
                      (optimizedParticleCount (deviceType env)) rnd)).
  { apply Forall_forall. intros q Hq.
    apply In_nth_error in Hq as [k Hk].
    apply genParticles_draws in Hk. subst q.
    rewrite <- (proj1 (makeParticle_start (deviceType env) k rnd (9 * k))).
    apply moveParticle_inField.
    split; [now apply makeParticle_radius_bound|].
    now apply makeParticle_jitter. }
  assert (Hmove : forall tm q, inBudget q /\ inField q ->
                    inBudget (moveParticle tm q) /\ inField (moveParticle tm q)).
  { intros tm q [Hb _]. now apply moveParticle_inField. }
  assert (H0 : Forall (fun q => inBudget q /\ inField q)
                 (particles (construct env rnd))).
  { destruct (construct_particles env rnd) as [->|[tm ->]]; [exact Hgen|].
    apply Forall_forall. intros q Hq.
    apply in_map_iff in Hq as [q0 [<- Hq0]].
    rewrite Forall_forall in Hgen. apply Hmove, Hgen, Hq0. }
  pose proof (run_particles _ Hmove evs _ H0) as HF.
  rewrite Forall_forall in HF. destruct (HF p Hin) as [_ HP].
  unfold inField, RADIUS in HP. cbv zeta in HP.
  destruct HP as (Hx & Hz & Hy & Hy'). repeat split; auto; lra.
Qed.

Lemma sprites_stay_in_field_witness :
  Forall (fun p => (Rabs (vx (position (sprite p))) < 20.4)%R)
    (particles (run [(env_hidden, EvVisibilityChange)]
                  (construct env_desktop rnd_harmonic))).
Proof.
  apply Forall_forall. intros p Hin.
  apply (sprites_stay_in_field env_desktop rnd_harmonic
           [(env_hidden, EvVisibilityChange)] p).
  - intro k. unfold rnd_harmonic. pose proof (pos_INR k).
    split.
    + left. apply Rinv_0_lt_compat. lra.
    + assert (H1 : (/ (INR k + 2) < / 1)%R)
        by (apply Rinv_lt_contravar; lra).
      rewrite Rinv_1 in H1. exact H1.
  - exact Hin.
Defined.

Lemma optimizedParticleCount_values device :
  Z.of_nat (optimizedParticleCount device) =
  match device with mobile => 2400 | tablet => 4800 | desktop => 8000 end%Z.
Proof. destruct device; reflexivity. Qed.

Lemma Populated_construct env rnd : Populated env (construct env rnd).
Proof.
  unfold Populated.
  replace (isDestroyed (construct env rnd)) with false
    by (symmetry; unfold construct; rewrite (proj1 (animate_field env _));
        handler handleResize).
  destruct (construct_particles env rnd) as [->|[tm ->]];
    rewrite ?length_map; apply genParticles_length.
Qed.

Lemma Populated_step env0 env ev s :
  Reachable s -> Populated env0 s -> Populated env0 (step env ev s).
Proof.
  unfold Populated. intros HR HP.
  destruct (Event_eq_destroy ev) as [->|Hev].
  - cbn [step]. rewrite (proj1 (destroy_Torn s)), destroy_particles.
    destruct (galaxyGroup s) eqn:Hg; [reflexivity|].
    destruct (isDestroyed s) eqn:Hd; [exact HP|].
    destruct (Reachable_Owning s HR) as [HO _].
    destruct (HO Hd) as [Hne _]. contradiction.
  - destruct (step_field env ev s Hev) as (-> & _ & _ & [->|[tm ->]]);
      [exact HP|].
    destruct (isDestroyed s); [now rewrite HP|now rewrite length_map].
Qed.

Lemma Reachable_run evs : forall s, Reachable s -> Reachable (run evs s).
Proof.
  induction evs as [|[env ev] evs IH]; intros s HR; [exact HR|].
  cbn [run]. apply IH. now apply Reachable_step.
Qed.

(** X7. The particle count is fixed at construction: through any run of
    events a system built under [env] holds the count of [env]'s tier
    (2400, 4800 or 8000) until it is destroyed, and none afterwards; a
    later change of tier never regenerates the field. *)
Theorem particle_count_fixed (env : Env) (rnd : nat -> R)
        (evs : list (Env * Event)) :
  let s := run evs (construct env rnd) in
  length (particles s) =
    (if isDestroyed s then 0 else optimizedParticleCount (deviceType env))
  /\ Z.of_nat (optimizedParticleCount (deviceType env)) =
     match deviceType env with
     | mobile => 2400 | tablet => 4800 | desktop => 8000
     end%Z.
Proof.
  intro s. split; [|apply optimizedParticleCount_values].
  assert (H : forall evs s0, Reachable s0 -> Populated env s0 ->
                             Populated env (run evs s0)).
  { clear. induction evs as [|[e ev] evs IH]; intros s0 HR HP; [exact HP|].
    cbn [run]. apply IH; [now apply Reachable_step|now apply Populated_step]. }
  specialize (H evs _ (Reachable_construct env rnd) (Populated_construct env rnd)).
  fold s in H. unfold Populated in H.
  destruct (isDestroyed s); [now rewrite H|exact H].
Qed.

End LivingField.

Section ClockAndLoop.

Local Open Scope nat_scope.

Lemma Ticking_view s s' : tickView s' = tickView s -> Ticking s -> Ticking s'.
Proof.
  unfold tickView, Ticking. intros E HT. injection E as -> -> ->. exact HT.
Qed.

Lemma frameRenderCount_snoc s e :
  count isFrameRender (log s ++ [e]) =
  frameRenderCount s + (if isFrameRender e then 1 else 0).
Proof. apply count_snoc. Qed.

(** What one call of [animate] does to the clock, the field's rotation and
    the frame count: nothing, or one tick of each. *)
Lemma animate_tick env s :
  tickView (animate env s) = tickView s
  \/ exists g,
       galaxyGroup s = Some g
       /\ isDestroyed s = false /\ isPageVisible s = true
       /\ time (animate env s) = (time s + 0.005)%R
       /\ galaxyGroup (animate env s)
          = Some {| rotation_x := rotation_x g;
                    rotation_y := (rotation_y g + 0.00003)%R |}
       /\ frameRenderCount (animate env s) = frameRenderCount s + 1.
Proof.
  unfold tickView, frameRenderCount, animate.
  destruct (isDestroyed s) eqn:Hd; [now left|].
  destruct (isPageVisible s) eqn:Hv; [|now left]. fields.
  destruct (galaxyGroup s) as [g|] eqn:Hg; [|left; fields; now rewrite ?Hg].
  rewrite ?Hv. right. exists g.
  branches; rewrite ?count_snoc; rewrite ?Hg; cbn [isFrameRender]; auto 10.
Qed.

Lemma Ticking_animate env s : Ticking s -> Ticking (animate env s).
Proof.
  intro HT. destruct (animate_tick env s) as [E|(g & Hg & _ & _ & Et & Eg & Ef)].
  - now apply (Ticking_view s).
  - destruct HT as [Ht Hs]. unfold Ticking. rewrite Et, Eg, Ef, Ht.
    specialize (Hs g Hg). unfold spun, clockAfter, spinAfter in *.
    rewrite Nat.add_1_r. cbn [Nat.iter]. split; [reflexivity|].
    intros g' E. injection E as <-. cbn [rotation_y]. now rewrite Hs.
Qed.

Lemma updateSizeFrame_tick src env s :
  tickView (updateSizeFrame src env s) = tickView s.
Proof.
  unfold tickView, frameRenderCount, updateSizeFrame.
  branches; rewrite ?count_snoc_false by reflexivity; congruence.
Qed.

Lemma runTimer_tick env cb s : tickView (runTimer env cb s) = tickView s.
Proof.
  unfold tickView, frameRenderCount.
  destruct cb; cbn [runTimer]; try (handler updateSize).
  branches; rewrite ?count_snoc_false by reflexivity; congruence.
Qed.

Lemma destroy_tick s :
  time (destroy s) = time s
  /\ galaxyGroup (destroy s) = None
  /\ frameRenderCount (destroy s) = frameRenderCount s.
Proof.
  split; [handler destroy|]. split; [apply destroy_Torn|].
  unfold frameRenderCount. now rewrite destroy_quiet.
Qed.

Lemma Ticking_step env ev s : Ticking s -> Ticking (step env ev s).
Proof.
  intro HT. destruct ev; cbn [step].
  - destruct (resizeHandler s); [|exact HT]. apply (Ticking_view s); [|exact HT].
    unfold tickView, frameRenderCount. handler handleResizeEvent.
  - destruct (orientationHandler s); [|exact HT].
    apply (Ticking_view s); [|exact HT].
    unfold tickView, frameRenderCount. handler handleOrientationChange.
  - destruct (resizeObserver s) as [[|]|]; try exact HT.
    apply (Ticking_view s); [|exact HT].
    unfold tickView, frameRenderCount. handler handleObserved.
  - destruct (visibilityHandler s); [|exact HT].
    unfold handleVisibilityChange.
    set (s1 := set_isPageVisible (negb (document_hidden env)) s).
    assert (HT1 : Ticking s1) by (apply (Ticking_view s); [reflexivity|exact HT]).
    destruct (isPageVisible s1).
    + destruct (negb (truthy (animationId s1)) && negb (isDestroyed s1));
        [now apply Ticking_animate|exact HT1].
    + destruct (animationId s1); [|exact HT1].
      apply (Ticking_view s1); [reflexivity|exact HT1].
  - destruct (find _ (timers s)); [|exact HT].
    apply (Ticking_view s); [|exact HT]. now rewrite runTimer_tick.
  - destruct (find _ (frameRequests s)) as [r|]; [|exact HT].
    assert (HT1 : Ticking (cancelAnimationFrame id s))
      by (apply (Ticking_view s); [reflexivity|exact HT]).
    destruct (frameCallback r); cbn [runFrame].
    + now apply Ticking_animate.
    + apply (Ticking_view (cancelAnimationFrame id s)); [|exact HT1].
      apply updateSizeFrame_tick.
  - destruct (destroy_tick s) as (Et & Eg & Ef). destruct HT as [Ht _].
    unfold Ticking. rewrite Et, Eg, Ef. split; [exact Ht|discriminate].
Qed.

Lemma Ticking_construct env rnd : Ticking (construct env rnd).
Proof.
  unfold construct. apply Ticking_animate. unfold Ticking, spun, frameRenderCount.
  unfold handleVisibility, handleResize, createGalaxy, initial.
  branches; (split; [reflexivity|]); intros g E; injection E as <-;
    reflexivity.
Qed.

Lemma time_step env ev s : (time s <= time (step env ev s))%R.
Proof.
  assert (Hview : forall s', tickView s' = tickView s -> (time s <= time s')%R).
  { unfold tickView. intros s' E. injection E as -> _ _. lra. }
  assert (Hanim : forall s', time s' = time s ->
                             (time s <= time (animate env s'))%R).
  { intros s' E. destruct (animate_tick env s') as [E'|(g & _ & _ & _ & Et & _)].
    - unfold tickView in E'. injection E' as -> _ _. lra.
    - rewrite Et, E. lra. }
  destruct ev; cbn [step].
  - destruct (resizeHandler s); apply Hview; [|reflexivity].
    unfold tickView, frameRenderCount. handler handleResizeEvent.
  - destruct (orientationHandler s); apply Hview; [|reflexivity].
    unfold tickView, frameRenderCount. handler handleOrientationChange.
  - destruct (resizeObserver s) as [[|]|]; apply Hview; try reflexivity.
    unfold tickView, frameRenderCount. handler handleObserved.
  - destruct (visibilityHandler s); [|lra].
    unfold handleVisibilityChange.
    set (s1 := set_isPageVisible (negb (document_hidden env)) s).
    destruct (isPageVisible s1).
    + destruct (negb (truthy (animationId s1)) && negb (isDestroyed s1));
        [now apply Hanim|cbn; lra].
    + destruct (animationId s1); cbn; lra.
  - destruct (find _ (timers s)); [|lra]. apply Hview.
    now rewrite runTimer_tick.
  - destruct (find _ (frameRequests s)) as [r|]; [|lra].
    destruct (frameCallback r); cbn [runFrame].
    + now apply Hanim.
    + apply Hview. now rewrite updateSizeFrame_tick.
  - rewrite (proj1 (destroy_tick s)). lra.
Qed.

(** X8. The simulation clock is a function of the frames rendered: in
    every reachable state [time] is what [time += 0.005] gives when run
    once per frame the loop has rendered, starting from 0, and the field's
    [rotation.y] is what [rotation.y += 0.00003] gives from its initial
    [Math.PI * 0.1].  Resizes, visibility changes, timers and [destroy]
    leave the clock alone, and no event ever sets it back. *)
Theorem clock_counts_frames (s : State) :
  Reachable s ->
  time s = clockAfter (frameRenderCount s)
  /\ (forall g, galaxyGroup s = Some g ->
        rotation_y g = spinAfter (frameRenderCount s))
  /\ (forall env ev,
        (time s <= time (step env ev s))%R
        /\ (frameRenderCount (step env ev s) = frameRenderCount s ->
            time (step env ev s) = time s)).
Proof.
  intro HR.
  assert (HT : forall s0, Reachable s0 -> Ticking s0).
  { clear. intros s0 H.
    induction H; [apply Ticking_construct|now apply Ticking_step]. }
  destruct (HT s HR) as [Ht Hs]. split; [exact Ht|]. split; [exact Hs|].
  intros env ev. split; [apply time_step|].
  intro Ef. destruct (HT _ (Reachable_step env ev s HR)) as [Ht' _].
  now rewrite Ht', Ef, Ht.
Qed.

Lemma clock_counts_frames_witness :
  time sys_desktop = clockAfter (frameRenderCount sys_desktop).
Proof. exact (proj1 (clock_counts_frames sys_desktop sys_desktop_Reachable)). Defined.

Lemma animate_flags env s :
  (isDestroyed (animate env s), updateSizePending (animate env s),
   lastSize (animate env s), timers (animate env s),
   isPageVisible (animate env s), resizeHandler (animate env s),
   orientationHandler (animate env s), visibilityHandler (animate env s),
   resizeObserver (animate env s))
  = (isDestroyed s, updateSizePending s, lastSize s, timers s,
     isPageVisible s, resizeHandler s, orientationHandler s,
     visibilityHandler s, resizeObserver s).
Proof. handler animate. Qed.

Lemma construct_flags env rnd :
  let s := construct env rnd in
  isDestroyed s = false /\ updateSizePending s = false /\ lastSize s = None
  /\ timers s = [] /\ isPageVisible s = negb (document_hidden env)
  /\ resizeHandler s = true /\ orientationHandler s = true
  /\ visibilityHandler s = true
  /\ resizeObserver s =
     (if hasResizeObserver env
      then Some match parentElement env with Some _ => true | None => false end
      else None).
Proof.
  cbv zeta. unfold construct.
  match goal with |- context [animate env ?s0] => set (s := s0) end.
  pose proof (animate_flags env s) as E.
  injection E as -> -> -> -> -> -> -> -> ->.
  subst s. unfold handleVisibility, handleResize, createGalaxy, initial.
  repeat split; branches; reflexivity.
Qed.

End ClockAndLoop.

Section ConstructAndDestroy.

Local Open Scope nat_scope.

Lemma animate_log env s :
  log (animate env s) =
  log s ++ (if negb (isDestroyed s) && isPageVisible s
            then match galaxyGroup s with
                 | Some _ => [Render FrameRender]
                 | None => []
                 end
            else []).
Proof.
  unfold animate.
  destruct (isDestroyed s) eqn:Hd; cbn [negb andb];
    [now rewrite app_nil_r|].
  destruct (isPageVisible s) eqn:Hv; [|fields; now rewrite app_nil_r].
  fields. rewrite Hv.
  destruct (galaxyGroup s) eqn:Hg; branches; rewrite ?app_nil_r; reflexivity.
Qed.

Lemma animate_camera env s : camera (animate env s) = camera s.
Proof. handler animate. Qed.

Lemma construct_eq env rnd :
  construct env rnd = animate env (constructed env rnd).
Proof. reflexivity. Qed.

Lemma constructed_state env rnd :
  log (constructed env rnd) =
    [SetSize (width (getCanvasSize env)) (height (getCanvasSize env));
     SetPixelRatio (pixelRatio env); SetClearColor;
     CameraPositionSet (getCameraPosition (deviceType env));
     CameraLookAt (getCameraLookAt (deviceType env)); SceneAdd]
  /\ isDestroyed (constructed env rnd) = false
  /\ isPageVisible (constructed env rnd) = negb (document_hidden env)
  /\ galaxyGroup (constructed env rnd) <> None
  /\ nextFrameId (constructed env rnd) = 1.
Proof.
  unfold constructed, handleVisibility, handleResize, createGalaxy, initial.
  repeat split; branches; try reflexivity; discriminate.
Qed.

Lemma construct_log env rnd :
  log (construct env rnd) =
    [SetSize (width (getCanvasSize env)) (height (getCanvasSize env));
     SetPixelRatio (pixelRatio env); SetClearColor;
     CameraPositionSet (getCameraPosition (deviceType env));
     CameraLookAt (getCameraLookAt (deviceType env)); SceneAdd]
    ++ (if document_hidden env then [] else [Render FrameRender]).
Proof.
  destruct (constructed_state env rnd) as (El & Ed & Ev & Eg & _).
  rewrite construct_eq, animate_log, El, Ed, Ev.
  destruct (galaxyGroup (constructed env rnd)); [|contradiction].
  now destruct (document_hidden env).
Qed.

Lemma construct_animationId env rnd :
  animationId (construct env rnd) =
  if document_hidden env then None else Some 1.
Proof.
  destruct (constructed_state env rnd) as (_ & Ed & Ev & _ & En).
  rewrite construct_eq. destruct (document_hidden env) eqn:Eh.
  - unfold animate. rewrite Ed, Ev. reflexivity.
  - rewrite animate_running, En; auto.
Qed.

(** X9. The constructor sizes the renderer once, sets the pixel ratio,
    clears, places and aims the camera for the tier, adds the field to the
    scene and, on a visible page, renders one frame and starts one loop; on
    a hidden page it renders nothing and starts no loop.  The camera gets
    the tier's field of view and the quotient of the initial size as its
    aspect, which is no finite number when the initial height is zero.  It
    leaves every listener registered, no timer armed, no size update
    pending and no last size recorded. *)
Theorem constructor_postconditions (env : Env) (rnd : nat -> R) :
  log (construct env rnd) =
    [SetSize (width (getCanvasSize env)) (height (getCanvasSize env));
     SetPixelRatio (pixelRatio env); SetClearColor;
     CameraPositionSet (getCameraPosition (deviceType env));
     CameraLookAt (getCameraLookAt (deviceType env)); SceneAdd]
    ++ (if document_hidden env then [] else [Render FrameRender])
  /\ camera (construct env rnd)
     = {| cam_position := getCameraPosition (deviceType env);
          cam_lookAt := getCameraLookAt (deviceType env);
          fov := getCameraFOV (deviceType env);
          aspect := divide (width (getCanvasSize env))
                      (height (getCanvasSize env)) |}
  /\ (height (getCanvasSize env) = 0%Z ->
      forall q, aspect (camera (construct env rnd)) <> Ratio q)
  /\ activeLoops (construct env rnd) = (if document_hidden env then 0 else 1)
  /\ animationId (construct env rnd)
     = (if document_hidden env then None else Some 1)
  /\ isDestroyed (construct env rnd) = false
  /\ updateSizePending (construct env rnd) = false
  /\ lastSize (construct env rnd) = None
  /\ timers (construct env rnd) = []
  /\ isPageVisible (construct env rnd) = negb (document_hidden env)
  /\ resizeHandler (construct env rnd) = true
  /\ orientationHandler (construct env rnd) = true
  /\ visibilityHandler (construct env rnd) = true.
Proof.
  destruct (construct_flags env rnd)
    as (Hd & Hp & Hl & Ht & Hv & Hr & Ho & Hvh & _).
  split; [apply construct_log|].
  assert (Hc : camera (construct env rnd)
               = {| cam_position := getCameraPosition (deviceType env);
                    cam_lookAt := getCameraLookAt (deviceType env);
                    fov := getCameraFOV (deviceType env);
                    aspect := divide (width (getCanvasSize env))
                                (height (getCanvasSize env)) |}).
  { rewrite construct_eq, animate_camera.
    unfold constructed, handleVisibility, handleResize, createGalaxy.
    branches; reflexivity. }
  split; [exact Hc|]. split.
  { intros Hz q. rewrite Hc. cbn [aspect]. unfold divide. rewrite Hz.
    cbn [Z.eqb].
    destruct (0 <? width (getCanvasSize env))%Z; [discriminate|].
    destruct (width (getCanvasSize env) <? 0)%Z; discriminate. }
  split.
  - rewrite (running_loop _ (Inv_construct env rnd) Hd), construct_animationId.
    now destruct (document_hidden env).
  - split; [apply construct_animationId|]. repeat split; assumption.
Qed.

Lemma find_loop_request s id :
  Inv s -> animationId s = Some id ->
  find (fun r => frameId r =? id) (frameRequests s)
  = Some {| frameId := id; frameCallback := CbAnimate |}.
Proof.
  intros HI Ea. destruct (loop_request_In s id HI Ea) as [_ Hin].
  destruct (find (fun r => frameId r =? id) (frameRequests s)) as [r|] eqn:Ef.
  - apply find_frame in Ef as [Hr Eid]. f_equal.
    apply (NoDup_same_id (frameRequests s)); auto. apply (inv_nodup s HI).
  - exfalso. apply (find_none _ _ Ef) in Hin. cbn in Hin.
    now rewrite Nat.eqb_refl in Hin.
Qed.

(** X10. While the instance is live and the page visible the loop keeps
    itself going: serving its frame request renders exactly one frame,
    advances the clock by 0.005 and leaves exactly one new request pending,
    the one [animationId] then names. *)
Theorem loop_keeps_running (env : Env) (s : State) (id : nat) :
  Reachable s -> isDestroyed s = false -> isPageVisible s = true ->
  animationId s = Some id ->
  let s' := step env (EvFrame id) s in
  animationId s' = Some (nextFrameId s)
  /\ activeLoops s' = 1
  /\ renderCount s' = renderCount s + 1
  /\ time s' = (time s + 0.005)%R
  /\ isDestroyed s' = false /\ isPageVisible s' = true.
Proof.
  intros HR Hd Hv Ea s'.
  pose proof (Reachable_Inv s HR) as HI.
  assert (Es : s' = animate env (cancelAnimationFrame id s)).
  { unfold s'. cbn [step]. now rewrite (find_loop_request s id HI Ea). }
  destruct (Reachable_Owning s HR) as [HO _]. destruct (HO Hd) as [Hg _].
  destruct (galaxyGroup s) as [g|] eqn:Eg; [|contradiction].
  destruct (animate_active env (cancelAnimationFrame id s) g Hd Hv Eg)
    as (Et & _ & Er).
  assert (Ea' : animationId s' = Some (nextFrameId s)).
  { rewrite Es. now rewrite animate_running. }
  assert (Hd' : isDestroyed s' = false).
  { rewrite Es. now rewrite (proj1 (animate_field env _)). }
  split; [exact Ea'|]. split.
  - rewrite (running_loop s' (Inv_step env (EvFrame id) s HI) Hd'), Ea'.
    reflexivity.
  - unfold renderCount. rewrite Es. split; [exact Er|]. split; [exact Et|].
    split; [now rewrite <- Es|].
    pose proof (animate_flags env (cancelAnimationFrame id s)) as E.
    injection E as _ _ _ _ -> _ _ _ _. exact Hv.
Qed.

Lemma loop_keeps_running_witness :
  activeLoops (step env_desktop (EvFrame 1) sys_desktop) = 1.
Proof.
  exact (proj1 (proj2 (loop_keeps_running env_desktop sys_desktop 1
                         sys_desktop_Reachable eq_refl eq_refl eq_refl))).
Defined.

Lemma set_isDestroyed_same (x : State) :
  isDestroyed x = true -> set_isDestroyed true x = x.
Proof. destruct x. cbn. now intros ->. Qed.

Lemma destroy_cleared s :
  animationId (destroy s) = None /\ resizeTimeout (destroy s) = None.
Proof. split; handler destroy. Qed.

(** X11. [destroy()] is idempotent up to the renderer: a second call only
    calls [renderer.dispose()] once more, and changes nothing else. *)
Theorem destroy_twice (s : State) :
  destroy (destroy s) = emit RendererDispose (destroy s).
Proof.
  destruct (destroy_Torn s) as (Hd & Hr & Ho & Hv & Hob & Hg).
  destruct (destroy_cleared s) as [Ha Ht].
  generalize dependent (destroy s). intros x Hd Hr Ho Hv Hob Hg Ha Ht.
  unfold destroy. rewrite (set_isDestroyed_same x Hd).
  rewrite Ha, Hob, Hr, Ho, Hv, Ht, Hg. reflexivity.
Qed.

End ConstructAndDestroy.

Section BackendCalls.

Local Open Scope nat_scope.

Lemma emitted_disposeParticles env ps : forall i,
  Forall (emitted env) (disposeParticles i ps).
Proof.
  induction ps as [|p ps IH]; intro i; [constructor|].
  cbn [disposeParticles]. apply Forall_app. split; [|apply IH].
  unfold disposeParticle.
  destruct (material_map (material (sprite p))); repeat constructor.
Qed.

(** The log is only ever appended to. *)
Ltac grown :=
  rewrite <- ?app_assoc; cbn [app];
  match goal with
  | |- exists l, ?a = ?a /\ _ => exists []; rewrite ?app_nil_r
  | |- exists l, ?a ++ ?b = ?a ++ l /\ _ => exists b
  | |- exists l, ?a = ?a ++ l /\ _ => exists []; rewrite ?app_nil_r
  end; (split; [reflexivity|]).

Lemma animate_grows env s :
  exists l, log (animate env s) = log s ++ l /\ Forall (emitted env) l.
Proof.
  rewrite animate_log. eexists. split; [reflexivity|].
  destruct (negb (isDestroyed s) && isPageVisible s); [|constructor].
  destruct (galaxyGroup s); repeat constructor.
Qed.

Lemma updateSizeFrame_grows src env s :
  exists l, log (updateSizeFrame src env s) = log s ++ l
            /\ Forall (emitted env) l.
Proof.
  unfold updateSizeFrame.
  destruct (isDestroyed s); [exists []; rewrite app_nil_r; auto|].
  destruct ((width (getCanvasSize env) =? 0)
            || (height (getCanvasSize env) =? 0))%Z eqn:Hz;
    [exists []; rewrite app_nil_r; auto|].
  apply orb_false_iff in Hz as [Hw Hh]. apply Z.eqb_neq in Hw, Hh.
  assert (Hsz : emitted env (SetSize (width (getCanvasSize env))
                                     (height (getCanvasSize env)))).
  { cbn. split; [now destruct (getCanvasSize env)|auto]. }
  destruct (match lastSize s with
            | Some l => Size_eqb l (getCanvasSize env)
            | None => false
            end); [exists []; rewrite app_nil_r; auto|].
  branches; grown; repeat apply Forall_cons; try apply Forall_nil;
    try exact Hsz; cbn; auto.
Qed.

Lemma runTimer_grows env cb s :
  exists l, log (runTimer env cb s) = log s ++ l /\ Forall (emitted env) l.
Proof.
  assert (Hu : forall src, log (updateSize src s) = log s)
    by (intro src; handler updateSize).
  destruct cb; cbn [runTimer]; rewrite ?Hu;
    try (exists []; rewrite app_nil_r; auto; fail).
  branches; grown; repeat constructor.
Qed.

Lemma destroy_grows env s :
  exists l, log (destroy s) = log s ++ l /\ Forall (emitted env) l.
Proof.
  assert (E : log (destroy s) =
              log s ++ match galaxyGroup s with
                       | Some _ => disposeParticles 0 (particles s)
                                   ++ [SceneRemove; RendererDispose]
                       | None => [RendererDispose]
                       end).
  { unfold destroy. branches; try congruence;
      rewrite <- ?app_assoc; reflexivity. }
  rewrite E. eexists. split; [reflexivity|].
  destruct (galaxyGroup s); [|repeat constructor].
  apply Forall_app. split; [apply emitted_disposeParticles|repeat constructor].
Qed.

(** What one event appends to the backend log. *)
Lemma step_grows env ev s :
  exists l, log (step env ev s) = log s ++ l /\ Forall (emitted env) l.
Proof.
  assert (Hsame : forall s', log s' = log s ->
            exists l, log s' = log s ++ l /\ Forall (emitted env) l).
  { intros s' E. exists []. rewrite app_nil_r. auto. }
  destruct ev; cbn [step].
  - destruct (resizeHandler s); apply Hsame; [|reflexivity].
    handler handleResizeEvent.
  - destruct (orientationHandler s); apply Hsame; [|reflexivity].
    handler handleOrientationChange.
  - destruct (resizeObserver s) as [[|]|]; apply Hsame; try reflexivity.
    handler handleObserved.
  - destruct (visibilityHandler s); [|now apply Hsame].
    unfold handleVisibilityChange.
    set (s1 := set_isPageVisible (negb (document_hidden env)) s).
    change (log s) with (log s1).
    destruct (isPageVisible s1).
    + destruct (negb (truthy (animationId s1)) && negb (isDestroyed s1));
        [apply animate_grows|exists []; rewrite app_nil_r; auto].
    + destruct (animationId s1); exists []; rewrite app_nil_r; auto.
  - destruct (find _ (timers s)); [|now apply Hsame].
    apply (runTimer_grows env _ (clearTimeout id s)).
  - destruct (find _ (frameRequests s)) as [r|]; [|now apply Hsame].
    destruct (frameCallback r); cbn [runFrame].
    + apply (animate_grows env (cancelAnimationFrame id s)).
    + apply (updateSizeFrame_grows _ env (cancelAnimationFrame id s)).
  - apply destroy_grows.
Qed.


(** X12. The backend log is append-only, and what a run of events appends
    is limited: a renderer resize only to the non-zero size resolved when
    one of its events was handled, a pixel ratio only as capped for the tier
    at that moment, camera calls only with that tier's framing, and never a
    clear colour or a scene insertion, which only the constructor issues. *)
Theorem backend_calls_of_an_event (evs : list (Env * Event)) (s : State) :
  exists l,
    log (run evs s) = log s ++ l
    /\ Forall (fun e => exists env, In env (map fst evs) /\ emitted env e) l.
Proof.
  revert s. induction evs as [|[env ev] evs IH]; intro s.
  - exists []. rewrite app_nil_r. split; [reflexivity|constructor].
  - cbn [run]. destruct (step_grows env ev s) as (l1 & E1 & H1).
    destruct (IH (step env ev s)) as (l2 & E2 & H2).
    exists (l1 ++ l2). rewrite E2, E1, app_assoc. split; [reflexivity|].
    apply Forall_app. split.
    + eapply Forall_impl; [|exact H1]. intros e He. exists env.
      split; [now left|exact He].
    + eapply Forall_impl; [|exact H2]. intros e (env' & Hin & He).
      exists env'. split; [now right|exact He].
Qed.

Lemma pixelRatio_capped env :
  (pixelRatio env <= 2)%Q
  /\ (pixelRatio env <= devicePixelRatio env)%Q
  /\ (deviceType env = mobile -> (pixelRatio env <= 15 # 10)%Q).
Proof.
  unfold pixelRatio. destruct (deviceType env); repeat split;
    try discriminate; intros;
    try apply Q.le_min_l; try apply Q.le_min_r.
  eapply Qle_trans; [apply Q.le_min_r|]. unfold Qle. cbn. lia.
Qed.

(** X13. The renderer is never handed a pixel ratio above 2, by the
    constructor or by any later event. *)
Theorem pixel_ratio_never_above_cap (s : State) :
  Reachable s -> Forall ratioCapped (log s).
Proof.
  induction 1 as [env rnd|env ev s HR IH].
  - rewrite construct_log. apply Forall_app. split.
    + repeat constructor. cbn. apply pixelRatio_capped.
    + destruct (document_hidden env); repeat constructor.
  - destruct (step_grows env ev s) as (l & -> & Hl).
    apply Forall_app. split; [exact IH|].
    eapply Forall_impl; [|exact Hl].
    intros [] He; cbn in *; auto. subst. apply pixelRatio_capped.
Qed.

Lemma pixel_ratio_never_above_cap_witness :
  Forall ratioCapped (log (step env_phone (EvTimer 1) sys_desktop)).
Proof.
  apply pixel_ratio_never_above_cap.
  exact (Reachable_step _ _ _ sys_desktop_Reachable).
Defined.

End BackendCalls.

Section Timers.

Local Open Scope nat_scope.

Lemma TimerCallback_eqb_eq a b : TimerCallback_eqb a b = true <-> a = b.
Proof. destruct a, b; cbn; split; intro; congruence. Qed.

Lemma TimerCallback_eq_dec (a b : TimerCallback) : {a = b} + {a <> b}.
Proof. decide equality. Qed.

Lemma dropTimer_In id l t :
  In t (dropTimer id l) <-> In t l /\ timerId t <> id.
Proof.
  unfold dropTimer. now rewrite filter_In, negb_true_iff, Nat.eqb_neq.
Qed.

Lemma filter_NoDup_ids (P : Timer -> bool) l :
  NoDup (map timerId l) -> NoDup (map timerId (filter P l)).
Proof.
  induction l as [|t l IH]; intro H; [constructor|].
  cbn in *. inversion H as [|? ? Hnotin Hnd]; subst.
  destruct (P t); [|auto]. cbn. constructor; [|auto].
  intro Hin. apply Hnotin. apply in_map_iff in Hin as [t' [E Ht']].
  apply filter_In in Ht' as [Ht' _]. apply in_map_iff. eauto.
Qed.

Lemma TimerInv_view s s' : timerView s' = timerView s -> TimerInv s -> TimerInv s'.
Proof.
  unfold timerView. intros E [H1 H2 H3 H4 H5 H6].
  injection E as E1 E2 E3 E4 E5 E6.
  assert (Hh : forall cb, handleOf cb s' = handleOf cb s)
    by (intros []; cbn; assumption).
  constructor; rewrite ?E1, ?E2; auto.
  - intros t Ht. rewrite Hh. auto.
  - intros cb id. rewrite Hh. apply H5.
  - intros cb cb' id. rewrite !Hh. apply H6.
Qed.

(** Clearing the timer a handle names leaves no timer of that kind, so
    the handle may then be reassigned freely. *)
Lemma TimerInv_forget cb s s' :
  TimerInv s ->
  timers s' = match handleOf cb s with
              | Some old => dropTimer old (timers s)
              | None => timers s
              end ->
  nextTimerId s' = nextTimerId s ->
  (forall cb', cb' <> cb -> handleOf cb' s' = handleOf cb' s) ->
  handleOf cb s' = handleOf cb s \/ handleOf cb s' = None ->
  TimerInv s' /\ armed cb s' = 0.
Proof.
  intros [H1 H2 H3 H4 H5 H6] Et En Hh Hc.
  assert (Hle : forall cb' id, handleOf cb' s' = Some id ->
                               handleOf cb' s = Some id).
  { intros cb' id E. destruct (TimerCallback_eq_dec cb' cb) as [->|Hne].
    - destruct Hc as [Hc|Hc]; congruence.
    - now rewrite <- (Hh _ Hne). }
  assert (Hsub : forall t, In t (timers s') ->
                   In t (timers s) /\ timerCallback t <> cb).
  { intros t Ht. rewrite Et in Ht.
    destruct (handleOf cb s) as [old|] eqn:Eo.
    - apply dropTimer_In in Ht as [Ht Hne]. split; [exact Ht|].
      intro Ecb. destruct (H4 t Ht) as [Hn _]. rewrite Ecb, Eo in Hn.
      congruence.
    - split; [exact Ht|]. intro Ecb. destruct (H4 t Ht) as [Hn _].
      rewrite Ecb, Eo in Hn. discriminate. }
  split.
  - constructor.
    + now rewrite En.
    + rewrite Et. destruct (handleOf cb s); [|exact H2].
      now apply filter_NoDup_ids.
    + rewrite En. apply Forall_forall. intros t Ht.
      rewrite Forall_forall in H3. apply H3. now apply Hsub.
    + intros t Ht. destruct (Hsub t Ht) as [Hin Hne].
      rewrite (Hh _ Hne). auto.
    + intros cb' id E. rewrite En. eapply H5, Hle, E.
    + intros cb1 cb2 id E1 E2. eapply H6; eapply Hle; eauto.
  - unfold armed.
    destruct (filter _ (timers s')) as [|t l] eqn:Ef; [reflexivity|].
    exfalso. assert (Hin : In t (filter
      (fun t => TimerCallback_eqb (timerCallback t) cb) (timers s')))
      by (rewrite Ef; now left).
    apply filter_In in Hin as [Hin Hcb]. apply TimerCallback_eqb_eq in Hcb.
    now destruct (Hsub t Hin).
Qed.

(** Arming a timer of a kind none of which is armed. *)
Lemma TimerInv_arm cb s s' :
  TimerInv s -> armed cb s = 0 ->
  timers s' = timers s ++ [{| timerId := nextTimerId s; timerCallback := cb;
                              timerDelay := delayOf cb |}] ->
  nextTimerId s' = S (nextTimerId s) ->
  handleOf cb s' = Some (nextTimerId s) ->
  (forall cb', cb' <> cb -> handleOf cb' s' = handleOf cb' s) ->
  TimerInv s' /\ armed cb s' = 1.
Proof.
  intros [H1 H2 H3 H4 H5 H6] H0 Et En Hc Hh. split.
  - constructor.
    + rewrite En. lia.
    + rewrite Et, map_app. apply NoDup_snoc; [exact H2|]. cbn.
      intro Hin. apply in_map_iff in Hin as [t [E Ht]].
      rewrite Forall_forall in H3. specialize (H3 t Ht). lia.
    + rewrite Et, En. apply Forall_app. split.
      * eapply Forall_impl; [|exact H3]. cbn. intros; lia.
      * constructor; [cbn; lia|constructor].
    + intros t Ht. rewrite Et in Ht. apply in_app_iff in Ht as [Ht|[<-|[]]].
      * destruct (TimerCallback_eq_dec (timerCallback t) cb) as [E|Hne].
        -- exfalso. unfold armed in H0.
           assert (Hin : In t (filter
             (fun t => TimerCallback_eqb (timerCallback t) cb) (timers s))).
           { apply filter_In. split; [exact Ht|].
             now apply TimerCallback_eqb_eq. }
           destruct (filter _ (timers s)); [contradiction|discriminate].
        -- rewrite (Hh _ Hne). auto.
      * cbn. auto.
    + intros cb' id E. rewrite En.
      destruct (TimerCallback_eq_dec cb' cb) as [->|Hne].
      * rewrite Hc in E. injection E as <-. lia.
      * rewrite (Hh _ Hne) in E. apply H5 in E. lia.
    + intros cb1 cb2 id E1 E2.
      destruct (TimerCallback_eq_dec cb1 cb) as [->|Hn1];
        destruct (TimerCallback_eq_dec cb2 cb) as [->|Hn2]; auto.
      * rewrite Hc in E1. injection E1 as <-.
        rewrite (Hh _ Hn2) in E2. apply H5 in E2. lia.
      * rewrite Hc in E2. injection E2 as <-.
        rewrite (Hh _ Hn1) in E1. apply H5 in E1. lia.
      * rewrite (Hh _ Hn1) in E1. rewrite (Hh _ Hn2) in E2. eauto.
  - unfold armed in *. rewrite Et, filter_app, length_app, H0. cbn.
    now rewrite (proj2 (TimerCallback_eqb_eq cb cb) eq_refl).
Qed.

(** The pattern of every debounced handler: clear the previous timer of
    the kind, arm a new one, keep its handle. *)
Lemma TimerInv_rearm cb s s' :
  TimerInv s ->
  timers s' = match handleOf cb s with
              | Some old => dropTimer old (timers s)
              | None => timers s
              end
              ++ [{| timerId := nextTimerId s; timerCallback := cb;
                     timerDelay := delayOf cb |}] ->
  nextTimerId s' = S (nextTimerId s) ->
  handleOf cb s' = Some (nextTimerId s) ->
  (forall cb', cb' <> cb -> handleOf cb' s' = handleOf cb' s) ->
  TimerInv s' /\ armed cb s' = 1.
Proof.
  intros HI Et En Hc Hh.
  pose (mid := set_timers match handleOf cb s with
                          | Some old => dropTimer old (timers s)
                          | None => timers s
                          end s).
  assert (Hmid : forall cb', handleOf cb' mid = handleOf cb' s)
    by (intros []; reflexivity).
  destruct (TimerInv_forget cb s mid HI eq_refl eq_refl
              (fun cb' _ => Hmid cb') (or_introl (Hmid cb))) as [HIm H0].
  apply (TimerInv_arm cb mid s' HIm H0); auto.
Qed.

Ltac other_handles :=
  let cb' := fresh "cb" in
  intro cb'; let Hne := fresh "Hne" in
  intro Hne; destruct cb'; try reflexivity; congruence.

Lemma handleResizeEvent_rearm s :
  TimerInv s ->
  TimerInv (handleResizeEvent s) /\ armed TmResizeDebounce (handleResizeEvent s) = 1.
Proof.
  intro HI. apply (TimerInv_rearm TmResizeDebounce s); [exact HI| | | |];
    unfold handleResizeEvent; cbn [handleOf];
    destruct (resizeDebounceTimeout s); try reflexivity; other_handles.
Qed.

Lemma handleOrientationChange_rearm s :
  TimerInv s ->
  TimerInv (handleOrientationChange s)
  /\ armed TmOrientationDebounce (handleOrientationChange s) = 1.
Proof.
  intro HI. apply (TimerInv_rearm TmOrientationDebounce s); [exact HI| | | |];
    unfold handleOrientationChange; cbn [handleOf];
    destruct (orientationDebounceTimeout s); try reflexivity; other_handles.
Qed.

Lemma handleObserved_rearm s :
  TimerInv s ->
  TimerInv (handleObserved s) /\ armed TmObserverDebounce (handleObserved s) = 1.
Proof.
  intro HI. apply (TimerInv_rearm TmObserverDebounce s); [exact HI| | | |];
    unfold handleObserved; cbn [handleOf];
    destruct (observerDebounceTimeout s); try reflexivity; other_handles.
Qed.

Lemma updateSizeFrame_timers src env s :
  TimerInv s -> TimerInv (updateSizeFrame src env s).
Proof.
  intro HI.
  assert (Habort : TimerInv (set_updateSizePending false s))
    by (apply (TimerInv_view s); [reflexivity|exact HI]).
  unfold updateSizeFrame.
  destruct (isDestroyed s); [exact Habort|].
  destruct ((width (getCanvasSize env) =? 0)
            || (height (getCanvasSize env) =? 0))%Z; [exact Habort|].
  destruct (match lastSize s with
            | Some l => Size_eqb l (getCanvasSize env)
            | None => false
            end); [exact Habort|].
  apply (TimerInv_rearm TmPixelRatio s); [exact HI| | | |].
  1-3: cbn [handleOf]; branches; try reflexivity; congruence.
  intros cb Hne. destruct cb; try congruence; cbn [handleOf]; branches;
    try reflexivity; congruence.
Qed.

Lemma animate_timerView env s : timerView (animate env s) = timerView s.
Proof. unfold timerView. handler animate. Qed.

Lemma runTimer_timerView env cb s : timerView (runTimer env cb s) = timerView s.
Proof.
  unfold timerView. destruct cb; cbn [runTimer]; handler updateSize.
Qed.

Lemma destroy_timers_eq s :
  timers (destroy s) = match resizeTimeout s with
                       | Some id => dropTimer id (timers s)
                       | None => timers s
                       end.
Proof. unfold destroy. branches; try reflexivity; congruence. Qed.

Lemma destroy_timers s :
  TimerInv s -> TimerInv (destroy s) /\ armed TmPixelRatio (destroy s) = 0.
Proof.
  intro HI.
  apply (TimerInv_forget TmPixelRatio s); [exact HI| | | |right].
  - cbn [handleOf]. apply destroy_timers_eq.
  - handler destroy.
  - intros cb Hne. destruct cb; try congruence; cbn [handleOf];
      handler destroy.
  - cbn [handleOf]. apply destroy_cleared.
Qed.

Lemma TimerInv_step env ev s : TimerInv s -> TimerInv (step env ev s).
Proof.
  intro HI. destruct ev; cbn [step].
  - destruct (resizeHandler s); [now apply handleResizeEvent_rearm|exact HI].
  - destruct (orientationHandler s);
      [now apply handleOrientationChange_rearm|exact HI].
  - destruct (resizeObserver s) as [[|]|]; try exact HI.
    now apply handleObserved_rearm.
  - destruct (visibilityHandler s); [|exact HI].
    unfold handleVisibilityChange.
    set (s1 := set_isPageVisible (negb (document_hidden env)) s).
    assert (HI1 : TimerInv s1) by (apply (TimerInv_view s); [reflexivity|exact HI]).
    destruct (isPageVisible s1).
    + destruct (negb (truthy (animationId s1)) && negb (isDestroyed s1));
        [|exact HI1].
      apply (TimerInv_view s1); [apply animate_timerView|exact HI1].
    + destruct (animationId s1); [|exact HI1].
      apply (TimerInv_view s1); [reflexivity|exact HI1].
  - destruct (find _ (timers s)) as [t|] eqn:Ef; [|exact HI].
    eapply TimerInv_view; [apply runTimer_timerView|].
    destruct HI as [H1 H2 H3 H4 H5 H6]. constructor; fields; auto.
    + now apply filter_NoDup_ids.
    + apply Forall_forall. intros t' Ht'. apply filter_In in Ht' as [Ht' _].
      rewrite Forall_forall in H3. auto.
    + intros t' Ht'. apply filter_In in Ht' as [Ht' _].
      destruct (H4 t' Ht') as [Hn Hd]. split; [|exact Hd].
      rewrite <- Hn. now destruct (timerCallback t').
  - destruct (find _ (frameRequests s)) as [r|]; [|exact HI].
    assert (HI1 : TimerInv (cancelAnimationFrame id s))
      by (apply (TimerInv_view s); [reflexivity|exact HI]).
    destruct (frameCallback r); cbn [runFrame].
    + apply (TimerInv_view (cancelAnimationFrame id s));
        [apply animate_timerView|exact HI1].
    + now apply updateSizeFrame_timers.
  - now apply destroy_timers.
Qed.

Lemma TimerInv_construct env rnd : TimerInv (construct env rnd).
Proof.
  rewrite construct_eq.
  apply (TimerInv_view (constructed env rnd)); [apply animate_timerView|].
  unfold constructed, handleVisibility, handleResize, createGalaxy, initial.
  constructor; branches; try (constructor; fail); try lia;
    try (intros t []; fail); intros []; cbn; intros; discriminate.
Qed.

Lemma Reachable_TimerInv s : Reachable s -> TimerInv s.
Proof.
  induction 1; [apply TimerInv_construct|now apply TimerInv_step].
Qed.

Lemma armed_le_1 cb s : TimerInv s -> armed cb s <= 1.
Proof.
  intros [H1 H2 H3 H4 _ _]. unfold armed.
  pose proof (filter_NoDup_ids
                (fun t => TimerCallback_eqb (timerCallback t) cb) _ H2) as Hnd.
  assert (Hall : forall t,
            In t (filter (fun t => TimerCallback_eqb (timerCallback t) cb)
                         (timers s)) ->
            handleOf cb s = Some (timerId t)).
  { intros t Ht. apply filter_In in Ht as [Ht Hcb].
    apply TimerCallback_eqb_eq in Hcb. destruct (H4 t Ht) as [Hn _].
    now rewrite Hcb in Hn. }
  destruct (filter _ (timers s)) as [|a [|b l]]; cbn; try lia.
  exfalso. cbn in Hnd. inversion Hnd as [|? ? Hnotin _]; subst.
  apply Hnotin. left.
  pose proof (Hall a (or_introl eq_refl)) as Ea.
  pose proof (Hall b (or_intror (or_introl eq_refl))) as Eb.
  congruence.
Qed.

(** X14. Debounce timers are replaced, not accumulated: in every reachable
    state at most one timer of each kind is armed (window resize,
    orientation change, container observation, pixel ratio), each with the
    delay its kind is given (16, 150, 16, 150 ms) and named by the handle
    the class keeps for that kind; a resize event on a live instance leaves
    exactly one resize timer armed however many came before. *)
Theorem timers_replaced_not_accumulated (s : State) :
  Reachable s ->
  (forall cb, armed cb s <= 1)
  /\ (forall t, In t (timers s) ->
        handleOf (timerCallback t) s = Some (timerId t)
        /\ timerDelay t = delayOf (timerCallback t))
  /\ (forall env, resizeHandler s = true ->
        armed TmResizeDebounce (step env EvResize s) = 1)
  /\ (forall env, orientationHandler s = true ->
        armed TmOrientationDebounce (step env EvOrientationChange s) = 1).
Proof.
  intro HR. pose proof (Reachable_TimerInv s HR) as HI.
  split; [intro cb; now apply armed_le_1|].
  split; [apply (tinv_named s HI)|]. split.
  - intros env Hr. cbn [step]. rewrite Hr. now apply handleResizeEvent_rearm.
  - intros env Ho. cbn [step]. rewrite Ho.
    now apply handleOrientationChange_rearm.
Qed.

Lemma timers_replaced_not_accumulated_witness :
  armed TmResizeDebounce
    (step env_desktop EvResize (step env_desktop EvResize sys_desktop)) = 1.
Proof.
  apply (proj1 (proj2 (proj2 (timers_replaced_not_accumulated
           (step env_desktop EvResize sys_desktop)
           (Reachable_step _ _ _ sys_desktop_Reachable))))).
  reflexivity.
Defined.

(** X15. [destroy()] cancels the loop's frame request and the pixel-ratio
    timer and removes every listener, but it leaves an armed debounce timer
    and a pending size-update request in the host's tables; those find the
    flag set when they fire. *)
Theorem destroy_cancels (s : State) :
  Reachable s ->
  activeLoops (destroy s) = 0
  /\ armed TmPixelRatio (destroy s) = 0
  /\ resizeHandler (destroy s) = false
  /\ orientationHandler (destroy s) = false
  /\ visibilityHandler (destroy s) = false
  /\ resizeObserver (destroy s) = None
  /\ pendingUpdates (destroy s) = pendingUpdates s
  /\ (forall cb, cb <> TmPixelRatio -> armed cb (destroy s) = armed cb s).
Proof.
  intro HR. pose proof (Reachable_Inv s HR) as HI.
  pose proof (Reachable_TimerInv s HR) as HT.
  destruct (destroy_Torn s) as (Hd & Hr & Ho & Hv & Hob & _).
  split.
  { apply Paused_no_loop; [now apply Inv_destroy|now left]. }
  split; [now apply destroy_timers|].
  repeat (split; [assumption|]). split.
  - rewrite (inv_pending _ (Inv_destroy s HI)), (inv_pending s HI).
    now rewrite destroy_pending.
  - intros cb Hne. unfold armed.
    rewrite destroy_timers_eq.
    destruct (resizeTimeout s) as [id|] eqn:Er; [|reflexivity].
    f_equal. unfold dropTimer.
    assert (Hkeep : forall t, In t (timers s) ->
              TimerCallback_eqb (timerCallback t) cb = true ->
              negb (timerId t =? id) = true).
    { intros t Ht Hcb. apply TimerCallback_eqb_eq in Hcb.
      apply negb_true_iff, Nat.eqb_neq. intros <-.
      destruct (tinv_named s HT t Ht) as [Hn _]. rewrite Hcb in Hn.
      apply Hne. apply (tinv_distinct s HT cb TmPixelRatio (timerId t)); auto. }
    induction (timers s) as [|t l IH]; [reflexivity|]. cbn [filter].
    destruct (TimerCallback_eqb (timerCallback t) cb) eqn:Ecb.
    + rewrite (Hkeep t (or_introl eq_refl) Ecb). cbn [filter]. rewrite Ecb.
      f_equal. apply IH. intros t' Ht'. apply Hkeep. now right.
    + destruct (negb (timerId t =? id)); cbn [filter]; rewrite ?Ecb;
        apply IH; intros t' Ht'; apply Hkeep; now right.
Qed.

Lemma destroy_cancels_witness :
  armed TmResizeDebounce (destroy (step env_desktop EvResize sys_desktop)) = 1.
Proof.
  rewrite (proj2 (proj2 (proj2 (proj2 (proj2 (proj2 (proj2
             (destroy_cancels (step env_desktop EvResize sys_desktop)
                (Reachable_step _ _ _ sys_desktop_Reachable))))))))
             TmResizeDebounce ltac:(discriminate)).
  change (step env_desktop EvResize sys_desktop)
    with (handleResizeEvent sys_desktop).
  apply handleResizeEvent_rearm, Reachable_TimerInv, sys_desktop_Reachable.
Defined.

End Timers.

Section SizeUpdates.

Local Open Scope nat_scope.

Lemma updateSizeFrame_applied src env s :
  isDestroyed s = false ->
  width (getCanvasSize env) <> 0%Z -> height (getCanvasSize env) <> 0%Z ->
  lastSize s <> Some (getCanvasSize env) ->
  galaxyGroup s <> None ->
  log (updateSizeFrame src env s) = log s ++ appliedCalls env
  /\ lastSize (updateSizeFrame src env s) = Some (getCanvasSize env)
  /\ lastDevice (updateSizeFrame src env s) = Some (deviceType env)
  /\ camera (updateSizeFrame src env s)
     = {| cam_position := getCameraPosition (deviceType env);
          cam_lookAt := getCameraLookAt (deviceType env);
          fov := getCameraFOV (deviceType env);
          aspect := Ratio (inject_Z (width (getCanvasSize env))
                           / inject_Z (height (getCanvasSize env))) |}
  /\ resizeTimeout (updateSizeFrame src env s) = Some (nextTimerId s)
  /\ updateSizePending (updateSizeFrame src env s) = false.
Proof.
  intros Hd Hw Hh Hl Hg. unfold updateSizeFrame, appliedCalls, divide.
  rewrite Hd.
  apply Z.eqb_neq in Hw, Hh. rewrite Hw, Hh. cbn [orb].
  assert (El : match lastSize s with
               | Some l => Size_eqb l (getCanvasSize env)
               | None => false
               end = false).
  { destruct (lastSize s) as [l|]; [|reflexivity].
    destruct (Size_eqb l (getCanvasSize env)) eqn:E; [|reflexivity].
    apply Size_eqb_eq in E. congruence. }
  rewrite El. branches; try congruence; rewrite <- ?app_assoc;
    repeat split; reflexivity.
Qed.

Lemma updateSizeFrame_arms src env s :
  TimerInv s -> isDestroyed s = false ->
  width (getCanvasSize env) <> 0%Z -> height (getCanvasSize env) <> 0%Z ->
  lastSize s <> Some (getCanvasSize env) ->
  armed TmPixelRatio (updateSizeFrame src env s) = 1.
Proof.
  intros HI Hd Hw Hh Hl.
  assert (El : match lastSize s with
               | Some l => Size_eqb l (getCanvasSize env)
               | None => false
               end = false).
  { destruct (lastSize s) as [l|]; [|reflexivity].
    destruct (Size_eqb l (getCanvasSize env)) eqn:E; [|reflexivity].
    apply Size_eqb_eq in E. congruence. }
  apply Z.eqb_neq in Hw, Hh.
  unfold updateSizeFrame. rewrite Hd, Hw, Hh, El. cbn [orb].
  apply (TimerInv_rearm TmPixelRatio s); [exact HI| | | |].
  1-3: cbn [handleOf]; branches; try reflexivity; congruence.
  intros cb Hne. destruct cb; try congruence; cbn [handleOf]; branches;
    try reflexivity; congruence.
Qed.

Lemma updateSize_idle_view src s :
  isDestroyed s = false -> updateSizePending s = false ->
  let m := cancelAnimationFrame (nextFrameId s) (updateSize src s) in
  isDestroyed m = false /\ lastSize m = lastSize s
  /\ galaxyGroup m = galaxyGroup s /\ log m = log s
  /\ nextTimerId m = nextTimerId s /\ camera m = camera s.
Proof.
  intros Hd Hp. cbv zeta. unfold updateSize. rewrite Hd, Hp. cbn [orb].
  auto 10.
Qed.

Lemma ready_sizeUpdatePath src env s :
  ready s -> ready (sizeUpdatePath src env s).
Proof.
  intros (HI & Hg & Hd & Hp).
  assert (HI' : Inv (sizeUpdatePath src env s)).
  { unfold sizeUpdatePath. apply Inv_step. now apply Inv_updateSize. }
  rewrite (sizeUpdatePath_eq src env s HI Hd Hp) in *.
  destruct (updateSize_idle_view src s Hd Hp) as (Hd' & _ & Hg' & _).
  destruct (updateSizeFrame_field src env
              (cancelAnimationFrame (nextFrameId s) (updateSize src s)))
    as (E1 & E2 & _ & _).
  split; [exact HI'|]. split; [|split].
  - rewrite E2, Hg'. exact Hg.
  - now rewrite E1.
  - apply updateSizeFrame_settles.
Qed.

Lemma Reachable_ready s :
  Reachable s -> isDestroyed s = false -> updateSizePending s = false ->
  ready s.
Proof.
  intros HR Hd Hp. destruct (Reachable_Owning s HR) as [HO _].
  destruct (HO Hd) as [Hg _].
  split; [now apply Reachable_Inv|]. split; [exact Hg|]. split; assumption.
Qed.

Lemma path_applied src env s :
  ready s ->
  width (getCanvasSize env) <> 0%Z -> height (getCanvasSize env) <> 0%Z ->
  lastSize s <> Some (getCanvasSize env) ->
  log (sizeUpdatePath src env s) = log s ++ appliedCalls env
  /\ lastSize (sizeUpdatePath src env s) = Some (getCanvasSize env)
  /\ lastDevice (sizeUpdatePath src env s) = Some (deviceType env)
  /\ resizeTimeout (sizeUpdatePath src env s) = Some (nextTimerId s).
Proof.
  intros (HI & Hg & Hd & Hp) Hw Hh Hl.
  rewrite (sizeUpdatePath_eq src env s HI Hd Hp).
  destruct (updateSize_idle_view src s Hd Hp) as (Hd' & El & Eg & Elog & En & _).
  destruct (updateSizeFrame_applied src env
              (cancelAnimationFrame (nextFrameId s) (updateSize src s)))
    as (A1 & A2 & A3 & _ & A5 & _); try congruence.
  rewrite A1, A2, A3, A5, Elog, En. auto.
Qed.

Lemma path_aborted src env s :
  ready s ->
  (width (getCanvasSize env) = 0 \/ height (getCanvasSize env) = 0)%Z ->
  log (sizeUpdatePath src env s) = log s
  /\ lastSize (sizeUpdatePath src env s) = lastSize s
  /\ camera (sizeUpdatePath src env s) = camera s
  /\ timers (sizeUpdatePath src env s) = timers s.
Proof.
  intros (HI & Hg & Hd & Hp) Hz.
  rewrite (sizeUpdatePath_eq src env s HI Hd Hp).
  rewrite updateSizeFrame_abort by (right; left; exact Hz).
  unfold updateSize. rewrite Hd, Hp. cbn [orb]. auto.
Qed.

(** X16. A size update of a live idle instance whose resolved size is
    non-zero and differs from the last one recorded is applied: the camera
    is reframed for the current tier and its projection recomputed, then
    the renderer is resized, then one frame is rendered, in that order; the
    size and tier are recorded and the pixel-ratio timer is armed. *)
Theorem size_update_applies (s : State) (env : Env) (src : Source) :
  Reachable s -> isDestroyed s = false -> updateSizePending s = false ->
  width (getCanvasSize env) <> 0%Z -> height (getCanvasSize env) <> 0%Z ->
  lastSize s <> Some (getCanvasSize env) ->
  let s' := sizeUpdatePath src env s in
  log s' = log s ++ appliedCalls env
  /\ lastSize s' = Some (getCanvasSize env)
  /\ lastDevice s' = Some (deviceType env)
  /\ resizeTimeout s' = Some (nextTimerId s)
  /\ armed TmPixelRatio s' = 1
  /\ updateSizePending s' = false
  /\ pendingUpdates s' = 0.
Proof.
  intros HR Hd Hp Hw Hh Hl s'.
  pose proof (Reachable_ready s HR Hd Hp) as Hr.
  destruct (path_applied src env s Hr Hw Hh Hl) as (A1 & A2 & A3 & A4).
  destruct (ready_sizeUpdatePath src env s Hr) as (HI' & _ & _ & Hp').
  assert (Harm : armed TmPixelRatio (sizeUpdatePath src env s) = 1).
  { rewrite (sizeUpdatePath_eq src env s (Reachable_Inv s HR) Hd Hp).
    destruct (updateSize_idle_view src s Hd Hp) as (Hd' & El & _).
    apply updateSizeFrame_arms; try congruence.
    apply (TimerInv_view s); [|now apply Reachable_TimerInv].
    unfold timerView, updateSize. rewrite Hd, Hp. reflexivity. }
  unfold s'. repeat split; auto.
  rewrite (inv_pending _ HI'). now rewrite Hp'.
Qed.

Lemma size_update_applies_witness :
  lastSize (sizeUpdatePath window_resize env_phone sys_desktop)
  = Some (getCanvasSize env_phone).
Proof.
  apply (proj1 (proj2 (size_update_applies sys_desktop env_phone window_resize
           sys_desktop_Reachable eq_refl eq_refl
           ltac:(discriminate) ltac:(discriminate) ltac:(discriminate)))).
Defined.

(** X17. The constructor records no last size, so the first size update
    after construction is always applied when the resolved size is
    non-zero, even when that size is the one the constructor used. *)
Theorem first_size_update_reapplies (env env' : Env) (rnd : nat -> R)
        (src : Source) :
  width (getCanvasSize env') <> 0%Z -> height (getCanvasSize env') <> 0%Z ->
  lastSize (construct env rnd) = None
  /\ log (sizeUpdatePath src env' (construct env rnd))
     = log (construct env rnd) ++ appliedCalls env'
  /\ count isSetSize (log (sizeUpdatePath src env' (construct env rnd))) = 2.
Proof.
  intros Hw Hh.
  destruct (construct_flags env rnd) as (Hd & Hp & Hl & _).
  pose proof (Reachable_ready _ (Reachable_construct env rnd) Hd Hp) as Hr.
  destruct (path_applied src env' _ Hr Hw Hh) as (A1 & _).
  { rewrite Hl. discriminate. }
  split; [exact Hl|]. split; [exact A1|].
  rewrite A1, construct_log, !count_app. unfold appliedCalls, count.
  destruct (document_hidden env); reflexivity.
Qed.

Lemma first_size_update_reapplies_witness :
  count isSetSize
    (log (sizeUpdatePath window_resize env_desktop
            (construct env_desktop rnd_harmonic))) = 2.
Proof.
  apply (proj2 (proj2 (first_size_update_reapplies env_desktop env_desktop
           rnd_harmonic window_resize ltac:(discriminate) ltac:(discriminate)))).
Defined.

(** X18. A resolved size with a zero dimension is tolerated: that update
    touches neither the camera, the backend, the recorded size nor the
    timers, and the next update with a usable size is applied as if the
    failed one had not happened. *)
Theorem zero_size_tolerated (s : State) (env0 env1 : Env) (src0 src1 : Source) :
  Reachable s -> isDestroyed s = false -> updateSizePending s = false ->
  (width (getCanvasSize env0) = 0 \/ height (getCanvasSize env0) = 0)%Z ->
  width (getCanvasSize env1) <> 0%Z -> height (getCanvasSize env1) <> 0%Z ->
  lastSize s <> Some (getCanvasSize env1) ->
  let s0 := sizeUpdatePath src0 env0 s in
  (log s0 = log s /\ lastSize s0 = lastSize s /\ camera s0 = camera s
   /\ timers s0 = timers s /\ updateSizePending s0 = false)
  /\ log (sizeUpdatePath src1 env1 s0) = log s ++ appliedCalls env1
  /\ lastSize (sizeUpdatePath src1 env1 s0) = Some (getCanvasSize env1).
Proof.
  intros HR Hd Hp Hz Hw Hh Hl s0.
  pose proof (Reachable_ready s HR Hd Hp) as Hr.
  destruct (path_aborted src0 env0 s Hr Hz) as (B1 & B2 & B3 & B4).
  pose proof (ready_sizeUpdatePath src0 env0 s Hr) as Hr0.
  fold s0 in B1, B2, B3, B4, Hr0.
  destruct (path_applied src1 env1 s0 Hr0 Hw Hh) as (A1 & A2 & _).
  { now rewrite B2. }
  split; [repeat split; auto; apply Hr0|].
  split; [now rewrite A1, B1|exact A2].
Qed.

Lemma zero_size_tolerated_witness :
  lastSize (sizeUpdatePath orientation_change env_phone
              (sizeUpdatePath window_resize env_subpixel sys_desktop))
  = Some (getCanvasSize env_phone).
Proof.
  apply (proj2 (proj2 (zero_size_tolerated sys_desktop env_subpixel env_phone
           window_resize orientation_change sys_desktop_Reachable
           eq_refl eq_refl (or_introl eq_refl)
           ltac:(discriminate) ltac:(discriminate) ltac:(discriminate)))).
Defined.

End SizeUpdates.

Section LifeOfAField.

Local Open Scope nat_scope.

(** X19. Widening the window never lowers the tier: for a fixed user agent
    the tier, and with it the particle budget, is monotone in the window
    width. *)
Theorem deviceType_monotone (env env' : Env) :
  isMobileUA env' = isMobileUA env ->
  (innerWidth env <= innerWidth env')%Z ->
  tierRank (deviceType env) <= tierRank (deviceType env')
  /\ optimizedParticleCount (deviceType env)
     <= optimizedParticleCount (deviceType env').
Proof.
  intros Hua Hw.
  assert (Hr : tierRank (deviceType env) <= tierRank (deviceType env')).
  { unfold deviceType. rewrite Hua.
    destruct (Z.ltb_spec (innerWidth env) 640);
      destruct (Z.ltb_spec (innerWidth env) 1024);
      destruct (Z.ltb_spec (innerWidth env') 640);
      destruct (Z.ltb_spec (innerWidth env') 1024);
      destruct (isMobileUA env); cbn; lia. }
  split; [exact Hr|].
  apply Nat2Z.inj_le. rewrite !optimizedParticleCount_values.
  destruct (deviceType env), (deviceType env'); cbn in Hr; lia.
Qed.

Lemma deviceType_monotone_witness :
  tierRank (deviceType env_subpixel) <= tierRank (deviceType env_desktop).
Proof.
  apply (deviceType_monotone env_subpixel env_desktop); [reflexivity|cbn; lia].
Defined.

Lemma armCount_static ps ps' :
  map static ps = map static ps' ->
  forall a, armCount a ps = armCount a ps'.
Proof.
  intros E a. unfold armCount. revert ps' E.
  induction ps as [|p ps IH]; intros [|q qs] E; try discriminate;
    [reflexivity|].
  cbn [map] in E. injection E as Ep Eps. cbn [filter].
  assert (Eb : branchAngle p = branchAngle q)
    by (unfold static in Ep; congruence).
  assert (Eo : onArm a p = onArm a q) by (unfold onArm; now rewrite Eb).
  rewrite Eo. destruct (onArm a q); cbn [length]; now rewrite (IH qs).
Qed.

(** Events that do not destroy the instance keep the static data. *)
Lemma static_kept_run (gen : list ParticleData) evs : forall s0,
  (isDestroyed s0 = false -> map static (particles s0) = map static gen) ->
  isDestroyed (run evs s0) = false ->
  map static (particles (run evs s0)) = map static gen.
Proof.
  induction evs as [|[e ev] evs IH]; intros s0 H0 Hd; [auto|].
  cbn [run] in *. apply IH; [|exact Hd]. intro Hd1.
  destruct (Event_eq_destroy ev) as [->|Hev].
  - cbn [step] in Hd1. rewrite (proj1 (destroy_Torn s0)) in Hd1.
    discriminate.
  - destruct (step_field e ev s0 Hev) as (Ed & _ & _ & Ep).
    rewrite Ed in Hd1.
    destruct Ep as [->|[tm ->]]; rewrite ?map_static_move; auto.
Qed.

Lemma construct_static env rnd :
  map static (particles (construct env rnd)) =
  map static (genParticles (deviceType env)
                (optimizedParticleCount (deviceType env)) rnd).
Proof.
  destruct (construct_particles env rnd) as [->|[tm ->]];
    rewrite ?map_static_move; reflexivity.
Qed.

(** X20. What [createGalaxy] gives a particle, it keeps for the life of
    the instance: through any run of events that does not destroy it, the
    angle, radius, speed, arm, jitter, scale and material of every particle
    are those it was generated with. *)
Theorem static_for_life (env : Env) (rnd : nat -> R)
        (evs : list (Env * Event)) :
  isDestroyed (run evs (construct env rnd)) = false ->
  map static (particles (run evs (construct env rnd))) =
  map static (genParticles (deviceType env)
                (optimizedParticleCount (deviceType env)) rnd).
Proof.
  intro Hd. apply static_kept_run; [|exact Hd].
  intros _. apply construct_static.
Qed.

Lemma static_for_life_witness :
  map static (particles (run [(env_hidden, EvVisibilityChange)] sys_desktop)) =
  map static (genParticles desktop (optimizedParticleCount desktop)
                rnd_harmonic).
Proof.
  apply (static_for_life env_desktop rnd_harmonic
           [(env_hidden, EvVisibilityChange)]).
  reflexivity.
Defined.

(** X21. In every tier the field is exactly balanced, and stays so: while
    the instance lives each of the four arms holds a quarter of the
    particles (600, 1200 or 2000). *)
Theorem arms_exactly_balanced (env : Env) (rnd : nat -> R)
        (evs : list (Env * Event)) (a : nat) :
  isDestroyed (run evs (construct env rnd)) = false -> a < 4 ->
  armCount a (particles (run evs (construct env rnd)))
  = optimizedParticleCount (deviceType env) / 4
  /\ Z.of_nat (optimizedParticleCount (deviceType env) / 4) =
     match deviceType env with
     | mobile => 600 | tablet => 1200 | desktop => 2000
     end%Z.
Proof.
  intros Hd Ha.
  assert (Hq : Z.of_nat (optimizedParticleCount (deviceType env) / 4) =
               match deviceType env with
               | mobile => 600 | tablet => 1200 | desktop => 2000
               end%Z).
  { rewrite Nat2Z.inj_div, optimizedParticleCount_values.
    now destruct (deviceType env). }
  split; [|exact Hq].
  rewrite (armCount_static _ _
             (static_kept_run _ evs _ (fun _ => construct_static env rnd) Hd)).
  unfold genParticles. rewrite armCount_genLoop, (count_residue a _ Ha).
  assert (Hm : optimizedParticleCount (deviceType env) mod 4 = 0).
  { apply Nat2Z.inj. rewrite Nat2Z.inj_mod, optimizedParticleCount_values.
    now destruct (deviceType env). }
  rewrite Hm. cbn. lia.
Qed.

Lemma arms_exactly_balanced_witness :
  armCount 3 (particles (run [(env_hidden, EvVisibilityChange)] sys_desktop))
  = optimizedParticleCount desktop / 4.
Proof.
  apply (proj1 (arms_exactly_balanced env_desktop rnd_harmonic
                  [(env_hidden, EvVisibilityChange)] 3 eq_refl ltac:(lia))).
Defined.

Lemma hidden_step_view env s :
  Reachable s -> document_hidden env = true -> isDestroyed s = false ->
  let s1 := step env EvVisibilityChange s in
  isDestroyed s1 = false /\ animationId s1 = None
  /\ isPageVisible s1 = false /\ visibilityHandler s1 = true
  /\ time s1 = time s /\ frameRenderCount s1 = frameRenderCount s
  /\ particles s1 = particles s.
Proof.
  intros HR Hh Hd. cbv zeta. cbn [step].
  pose proof (inv_visibility s (Reachable_Inv s HR)) as Ev.
  rewrite Hd in Ev. cbn in Ev. rewrite Ev.
  unfold handleVisibilityChange, frameRenderCount. rewrite Hh.
  cbn [negb]. branches; auto 10.
Qed.

Lemma visible_resume env s :
  visibilityHandler s = true -> document_hidden env = false ->
  animationId s = None -> isDestroyed s = false ->
  step env EvVisibilityChange s = animate env (set_isPageVisible true s).
Proof.
  intros Hv Hh Ha Hd. cbn [step]. rewrite Hv. unfold handleVisibilityChange.
  rewrite Hh. cbn [negb]. fields. now rewrite Ha, Hd.
Qed.

Lemma animate_active_frame env s :
  isDestroyed s = false -> isPageVisible s = true -> galaxyGroup s <> None ->
  frameRenderCount (animate env s) = frameRenderCount s + 1
  /\ time (animate env s) = (time s + 0.005)%R.
Proof.
  intros Hd Hv Hg. destruct (galaxyGroup s) as [g|] eqn:Eg; [|contradiction].
  destruct (animate_active env s g Hd Hv Eg) as (Et & _ & _).
  split; [|exact Et].
  unfold frameRenderCount. rewrite animate_log, Hd, Hv, Eg. cbn [negb andb].
  now rewrite count_snoc.
Qed.

(** X22. Hiding and showing the page again resumes with one synchronous
    frame: after a hidden and then a visible visibility change a live
    instance has exactly one loop, has rendered exactly one more frame and
    advanced its clock by one tick, and its particles' static data are
    untouched. *)
Theorem hide_then_show (s : State) (envh envv : Env) :
  Reachable s -> isDestroyed s = false ->
  document_hidden envh = true -> document_hidden envv = false ->
  let s2 := step envv EvVisibilityChange (step envh EvVisibilityChange s) in
  activeLoops s2 = 1
  /\ frameRenderCount s2 = frameRenderCount s + 1
  /\ time s2 = (time s + 0.005)%R
  /\ map static (particles s2) = map static (particles s).
Proof.
  intros HR Hd Hh Hv. cbv zeta.
  destruct (hidden_step_view envh s HR Hh Hd)
    as (Hd1 & Ha1 & Hp1 & Hv1 & Etime & Ecount & Ep).
  pose proof (Reachable_step envh EvVisibilityChange s HR) as HR1.
  rewrite <- Etime, <- Ecount, <- Ep.
  remember (step envh EvVisibilityChange s) as s1 eqn:E1. clear E1.
  pose proof (Reachable_Inv s1 HR1) as HI1.
  destruct (visible_event envv s1 HI1 Hv) as (_ & _ & Hloop).
  assert (H0 : activeLoops s1 = 0)
    by (rewrite (running_loop s1 HI1 Hd1), Ha1; reflexivity).
  split; [now apply Hloop|].
  rewrite (visible_resume envv s1 Hv1 Hv Ha1 Hd1).
  destruct (Reachable_Owning s1 HR1) as [HO _]. destruct (HO Hd1) as [Hg _].
  destruct (animate_active_frame envv (set_isPageVisible true s1) Hd1 eq_refl Hg)
    as [Ef Etm].
  rewrite Ef, Etm, animate_static. repeat split; reflexivity.
Qed.

Lemma hide_then_show_witness :
  activeLoops (step env_desktop EvVisibilityChange
                 (step env_hidden EvVisibilityChange sys_desktop)) = 1.
Proof.
  apply (proj1 (hide_then_show sys_desktop env_hidden env_desktop
                  sys_desktop_Reachable eq_refl eq_refl eq_refl)).
Defined.

End LifeOfAField.
